(** * DDR-Generator: the deterministic extraction, validation and
      entity-lock pipeline, embedded from the Python sources

    The development follows the three modules that carry the pipeline:
    [area_parser.py] (segmenter and area reducer), [validator.py]
    (structural validator) and [ddr_generator.py] (thermal de-duplication
    and the post-generation entity count).
    The code around them follows: the severity rules of [validator.py],
    the payload of [ddr_generator.py], the describer of [area_parser.py],
    the conversion loop and the image merge of [extraction.py], the dicts
    built by [app.py], [image_batcher.py] and [rate_limiter.py].

    Conventions of the embedding.
    - A Python [str] is a [string]; its characters are read as the code
      points U+0000 to U+00FF, which are closed under [str.lower] and
      [str.strip].  Message literals of the source that leave this range
      are written with their UTF-8 bytes.
    - A Python [int] is a [Z] or, where it is a length or an index, a [nat].
      [int(x)] raises the [ValueError] of the interpreter's default bound
      of 4300 digits.
    - A raised exception is the [Raises] case of [outcome]; [print] calls,
      which only write to the console, are left out.
    - A [dict] used as a record with optional keys is a [gmap string pyval];
      a [dict] whose insertion order is observable is an association list.
      Where the code assigns into dicts that can be listed more than once,
      the dicts live in a store and the lists hold references
      ([validator_store]). *)

From Stdlib Require Import ZArith List String Ascii Lia DecimalString DecimalPos.
From stdpp Require Import base option list gmap strings sorting.

Open Scope string_scope.
Open Scope list_scope.

(** ** Exceptions and results *)

Inductive exn : Type :=
| ValueError (msg : string)
| ValidationError (msg : string)
| AssertionError (msg : string)
| KeyError
| AttributeError
| TypeError
| IndexError
| UnboundLocalError
| ZeroDivisionError
| Exception (msg : string).

Inductive outcome (A : Type) : Type :=
| Returns (a : A)
| Raises (e : exn).
Arguments Returns {A} a.
Arguments Raises {A} e.

#[global] Instance outcome_ret : MRet outcome := λ A a, Returns a.
#[global] Instance outcome_bind : MBind outcome := λ A B f m,
  match m with
  | Returns a => f a
  | Raises e => Raises e
  end.

(** ** Python strings *)

Module py.

Definition ord (c : ascii) : N := N_of_ascii c.

(** [str.isspace] on one character, which is also the class [\s] of [re]
    for [str] patterns. *)
Definition isspace (c : ascii) : bool :=
  let n := ord c in
  ((9 <=? n) && (n <=? 13) || (28 <=? n) && (n <=? 32)
   || (n =? 133) || (n =? 160))%N.

(** The class [\d] of [re] (decimal digits; below U+0100 these are 0-9). *)
Definition isdigit (c : ascii) : bool :=
  let n := ord c in ((48 <=? n) && (n <=? 57))%N.

Definition is_upper_char (c : ascii) : bool :=
  let n := ord c in
  ((65 <=? n) && (n <=? 90) || (192 <=? n) && (n <=? 214)
   || (216 <=? n) && (n <=? 222))%N.

Definition is_lower_char (c : ascii) : bool :=
  let n := ord c in
  ((97 <=? n) && (n <=? 122) || (n =? 170) || (n =? 181) || (n =? 186)
   || (223 <=? n) && (n <=? 246) || (248 <=? n) && (n <=? 255))%N.

Definition lower_char (c : ascii) : ascii :=
  if is_upper_char c then ascii_of_N (ord c + 32) else c.

(** [s.lower()] *)
Fixpoint lower (s : string) : string :=
  match s with
  | EmptyString => EmptyString
  | String c s' => String (lower_char c) (lower s')
  end.

Fixpoint existsb_char (p : ascii → bool) (s : string) : bool :=
  match s with
  | EmptyString => false
  | String c s' => p c || existsb_char p s'
  end.

(** [s.isupper()]: some cased character, and no lowercase one. *)
Definition isupper (s : string) : bool :=
  existsb_char is_upper_char s && negb (existsb_char is_lower_char s).

Fixpoint lstrip (s : string) : string :=
  match s with
  | EmptyString => EmptyString
  | String c s' => if isspace c then lstrip s' else s
  end.

Fixpoint rstrip (s : string) : string :=
  match s with
  | EmptyString => EmptyString
  | String c s' =>
      match rstrip s' with
      | EmptyString => if isspace c then EmptyString else String c EmptyString
      | r => String c r
      end
  end.

(** [s.strip()] *)
Definition strip (s : string) : string := rstrip (lstrip s).

(** [pat in s] for two strings. *)
Fixpoint contains (pat s : string) : bool :=
  match s with
  | EmptyString => String.prefix pat EmptyString
  | String _ s' => String.prefix pat s || contains pat s'
  end.

(** [s[start:stop]] for [0 <= start] and [0 <= stop]; empty when
    [stop <= start]. *)
Definition slice (start stop : nat) (s : string) : string :=
  String.substring start (stop - start) s.

(** [sep.join(l)] *)
Fixpoint join (sep : string) (l : list string) : string :=
  match l with
  | [] => ""
  | [x] => x
  | x :: l' => x +:+ sep +:+ join sep l'
  end.

(** [str(n)] for an [int]. *)
Definition str_of_Z (z : Z) : string := NilZero.string_of_int (Z.to_int z).
Definition str_of_nat (n : nat) : string := str_of_Z (Z.of_nat n).

Definition digit_value (c : ascii) : Z := Z.of_N (ord c) - 48.

Fixpoint int_of_digits (acc : Z) (s : string) : Z :=
  match s with
  | EmptyString => acc
  | String c s' => int_of_digits (10 * acc + digit_value c) s'
  end.

(** The number that a string of decimal digits, as matched by [\d+],
    denotes. *)
Definition int_value (s : string) : Z := int_of_digits 0 s.

(** The interpreter's default bound on the digits of a decimal string,
    [sys.int_info.default_max_str_digits]; leading zeros count. *)
Definition max_str_digits : Z := 4300.

Definition int_limit_message (digits : nat) : string :=
  "Exceeds the limit (4300 digits) for integer string conversion: value has "
  +:+ str_of_nat digits
  +:+ " digits; use sys.set_int_max_str_digits() to increase the limit".

(** [int(s)] for a string of decimal digits. *)
Definition int (s : string) : outcome Z :=
  if (max_str_digits <? Z.of_nat (String.length s))%Z
  then Raises (ValueError (int_limit_message (String.length s)))
  else Returns (int_value s).

(** [bool(s)] for a string. *)
Definition truthy_str (s : string) : bool :=
  match s with EmptyString => false | _ => true end.

End py.

(** ** The two patterns handed to [re]

    Both patterns are a literal matched without regard to case, then
    [\s+], then [\d+] (and a colon).  The three character classes are
    pairwise disjoint, so the greedy run of each class is the only way a
    match can go: giving characters back never helps.  [finditer] and
    [findall] scan from the left and resume at the end of each match. *)

Module re.

(** A literal of the pattern under [re.IGNORECASE]: on success, the rest
    of the text. *)
Fixpoint literal_ignorecase (lit s : string) : option string :=
  match lit with
  | EmptyString => Some s
  | String p lit' =>
      match s with
      | EmptyString => None
      | String t s' =>
          if Ascii.eqb (py.lower_char t) (py.lower_char p)
          then literal_ignorecase lit' s'
          else None
      end
  end.

(** The longest run of characters of a class, and the rest. *)
Fixpoint span (p : ascii → bool) (s : string) : string * string :=
  match s with
  | EmptyString => (EmptyString, EmptyString)
  | String c s' =>
      if p c then let '(run, rest) := span p s' in (String c run, rest)
      else (EmptyString, s)
  end.

(** One or more characters of a class, greedily. *)
Definition plus (p : ascii → bool) (s : string) : option (string * string) :=
  match span p s with
  | (EmptyString, _) => None
  | (run, rest) => Some (run, rest)
  end.

(** A match anchored at the head of the text: its length and its group. *)
Definition matcher (G : Type) : Type := string → option (nat * G).

(** [re.finditer]: start offset and group of each match, left to right,
    no two overlapping.  [skip] counts the characters of the last match
    still to be passed. *)
Fixpoint scan {G} (m : matcher G) (skip pos : nat) (s : string)
  : list (nat * G) :=
  match s with
  | EmptyString => []
  | String _ s' =>
      match skip with
      | S k => scan m k (S pos) s'
      | O =>
          match m s with
          | Some (len, g) => (pos, g) :: scan m (len - 1) (S pos) s'
          | None => scan m 0 (S pos) s'
          end
      end
  end.

Definition finditer {G} (m : matcher G) (text : string) : list (nat * G) :=
  scan m 0 0 text.

(** [r'Impacted Area\s+(\d+)'] with [re.IGNORECASE]; the group is the
    numeral. *)
Definition impacted_area : matcher string := λ s,
  r1 ← literal_ignorecase "Impacted Area" s;
  '(ws, r2) ← plus py.isspace r1;
  '(ds, _) ← plus py.isdigit r2;
  Some (13 + String.length ws + String.length ds, ds).

(** [r'Area\s+\d+:'] with [re.IGNORECASE]. *)
Definition area_heading : matcher unit := λ s,
  r1 ← literal_ignorecase "Area" s;
  '(ws, r2) ← plus py.isspace r1;
  '(ds, r3) ← plus py.isdigit r2;
  match r3 with
  | String ":" _ => Some (4 + String.length ws + String.length ds + 1, tt)
  | _ => None
  end.

End re.

(** ** area_parser.py *)

Module area_parser.

(** The dicts built by [extract_impacted_areas_from_text]. *)
Record area_section : Type := {
  area_number : string;
  area_name : string;
  text_chunk : string
}.

(** [unique_areas]: numeral to match position, in insertion order. *)
Abbreviation unique_areas_t := (list (string * nat)).

Fixpoint get (unique_areas : unique_areas_t) (area_num : string)
  : option nat :=
  match unique_areas with
  | [] => None
  | (k, pos) :: rest =>
      if String.eqb k area_num then Some pos else get rest area_num
  end.

(** [unique_areas[area_num]["match_position"]] *)
Definition match_position (unique_areas : unique_areas_t)
    (area_num : string) : outcome nat :=
  match get unique_areas area_num with
  | Some pos => Returns pos
  | None => Raises KeyError
  end.

(** The loop over [matches]: a numeral already present is skipped. *)
Fixpoint collect_unique (unique_areas : unique_areas_t)
    (matches : list (nat * string)) : unique_areas_t :=
  match matches with
  | [] => unique_areas
  | (pos, area_num) :: rest =>
      match get unique_areas area_num with
      | Some _ => collect_unique unique_areas rest
      | None => collect_unique (unique_areas ++ [(area_num, pos)]) rest
      end
  end.

(** [sorted(keys, key=lambda x: int(x))]: the key of every item is
    computed first, in the order of the list, so the first [int(x)] that
    raises ends the call; the sort is stable, equal keys keep their
    order. *)
Fixpoint int_keys (l : list string) : outcome (list (Z * string)) :=
  match l with
  | [] => Returns []
  | x :: l' =>
      key ← py.int x;
      keyed ← int_keys l';
      Returns ((key, x) :: keyed)
  end.

Fixpoint insert_sorted (x : Z * string) (l : list (Z * string))
  : list (Z * string) :=
  match l with
  | [] => [x]
  | y :: l' =>
      if (x.1 <=? y.1)%Z then x :: l else y :: insert_sorted x l'
  end.

Fixpoint sort_keyed (l : list (Z * string)) : list (Z * string) :=
  match l with
  | [] => []
  | x :: l' => insert_sorted x (sort_keyed l')
  end.

Definition sorted (l : list string) : outcome (list string) :=
  keyed ← int_keys l;
  Returns (snd <$> sort_keyed keyed).

Definition overflow_message (sorted_area_nums : list string)
    (max_areas : Z) : string :=
  let n := length sorted_area_nums in
  let area_list := py.join ", " (take 30 sorted_area_nums) in
  let area_list :=
    if (30 <? n)%nat
    then area_list +:+ "... (total: " +:+ py.str_of_nat n +:+ ")"
    else area_list in
  "Extraction found " +:+ py.str_of_nat n
  +:+ " unique areas, exceeding maximum " +:+ py.str_of_Z max_areas +:+ ". "
  +:+ "This indicates either: (1) PDF has duplicate content/OCR artifacts, or "
  +:+ "(2) PDF genuinely has too many areas. "
  +:+ "Area numbers found: " +:+ area_list +:+ ". "
  +:+ "Review PDF structure before proceeding.".

(** The loop over [enumerate(sorted_area_nums)]. *)
Fixpoint build_areas (unique_areas : unique_areas_t) (text : string)
    (sorted_area_nums : list string) : outcome (list area_section) :=
  match sorted_area_nums with
  | [] => Returns []
  | area_num :: rest =>
      start_pos ← match_position unique_areas area_num;
      end_pos ← match rest with
                | next_area_num :: _ => match_position unique_areas next_area_num
                | [] => Returns (String.length text)
                end;
      areas ← build_areas unique_areas text rest;
      Returns ({| area_number := area_num;
                  area_name := "Impacted Area " +:+ area_num;
                  text_chunk := py.slice start_pos end_pos text |} :: areas)
  end.

(** The function past its first statement, which computes [matches]. *)
Definition areas_of_matches (text : string) (max_areas : Z)
    (matches : list (nat * string)) : outcome (list area_section) :=
  match matches with
  | [] => Returns []
  | _ =>
      let unique_areas := collect_unique [] matches in
      sorted_area_nums ← sorted (fst <$> unique_areas);
      if (max_areas <? Z.of_nat (length sorted_area_nums))%Z
      then Raises (ValueError (overflow_message sorted_area_nums max_areas))
      else build_areas unique_areas text sorted_area_nums
  end.

Definition extract_impacted_areas_from_text (text : string) (max_areas : Z)
  : outcome (list area_section) :=
  areas_of_matches text max_areas (re.finditer re.impacted_area text).

(** What [extract_descriptions_from_area_chunk] returns. *)
Record descriptions : Type := {
  descr_area_name : option string;
  descr_negative_observations : list string;
  descr_positive_observations : list string
}.

(** The dicts of [parsed_areas]. *)
Record room_data : Type := {
  room_name : string;
  negative_observations : list string;
  positive_observations : list string
}.

Definition normalize_area (name : string) : string :=
  if py.truthy_str name then py.lower (py.strip name) else "".

(** The state of the reducing loop.  [seen_rooms] holds, for a key, the
    index in [parsed_areas] of the dict it refers to: the dict object is
    shared by the two containers, and [extend] through one is seen through
    the other. *)
Record reducer : Type := {
  parsed_areas : list room_data;
  seen_rooms : gmap string nat;
  unnamed_count : nat
}.

Definition extend_room (d : descriptions) (existing : room_data) : room_data :=
  {| room_name := room_name existing;
     negative_observations :=
       negative_observations existing ++ descr_negative_observations d;
     positive_observations :=
       positive_observations existing ++ descr_positive_observations d |}.

(** One turn of [for area in areas], given the descriptions extracted from
    the area's chunk. *)
Definition reduce_area (st : reducer) (area : area_section)
    (d : descriptions) : reducer :=
  let '(name, unnamed) :=
    match descr_area_name d with
    | Some room => if py.truthy_str room
                   then (room, unnamed_count st)
                   else (area_name area, S (unnamed_count st))
    | None => (area_name area, S (unnamed_count st))
    end in
  let normalized_key := normalize_area name in
  match seen_rooms st !! normalized_key with
  | Some i =>
      {| parsed_areas := alter (extend_room d) i (parsed_areas st);
         seen_rooms := seen_rooms st;
         unnamed_count := unnamed |}
  | None =>
      let room := {| room_name := name;
                     negative_observations := descr_negative_observations d;
                     positive_observations := descr_positive_observations d |} in
      {| parsed_areas := parsed_areas st ++ [room];
         seen_rooms := <[normalized_key := length (parsed_areas st)]> (seen_rooms st);
         unnamed_count := unnamed |}
  end.

Definition reduce_areas (described : list (area_section * descriptions))
  : reducer :=
  fold_left (λ st '(area, d), reduce_area st area d) described
    {| parsed_areas := []; seen_rooms := ∅; unnamed_count := 0 |}.

Section parse.

(** The describer works on one chunk with regular expressions of its own;
    the reducer uses only its result, so it is taken as given here.  It
    can raise: its table of room patterns is bound in the branch of the
    negative description only. *)
Variable extract_descriptions_from_area_chunk : string → outcome descriptions.

(** The descriptions of the sections, in order.  The source describes and
    reduces section by section; an exception of the describer ends the
    function either way. *)
Fixpoint describe_areas (areas : list area_section)
  : outcome (list (area_section * descriptions)) :=
  match areas with
  | [] => Returns []
  | area :: rest =>
      d ← extract_descriptions_from_area_chunk (text_chunk area);
      described ← describe_areas rest;
      Returns ((area, d) :: described)
  end.

Definition parse_inspection_deterministically (text : string)
  : outcome (list room_data) :=
  areas ← extract_impacted_areas_from_text text 20;
  described ← describe_areas areas;
  Returns (parsed_areas (reduce_areas described)).

End parse.

End area_parser.

(** ** validator.py *)

(** The values a field of an area or of a thermal reading can hold. *)
#[warning="-register-all"]
Inductive pyval : Type :=
| PyNone
| PyBool (b : bool)
| PyInt (z : Z)
| PyStr (s : string)
| PyList (l : list pyval).

(** [bool(v)] *)
Definition truthy (v : pyval) : bool :=
  match v with
  | PyNone => false
  | PyBool b => b
  | PyInt z => negb (z =? 0)%Z
  | PyStr s => py.truthy_str s
  | PyList l => match l with [] => false | _ => true end
  end.

(** [bool(d.get(k))]: an absent key reads as [None]. *)
Definition truthy_get (v : option pyval) : bool :=
  match v with
  | Some v => truthy v
  | None => false
  end.

(** [isinstance(d.get(k), list)] *)
Definition is_list_get (v : option pyval) : bool :=
  match v with
  | Some (PyList _) => true
  | _ => false
  end.

(** An area or a thermal reading: a dict from field names to values. *)
Abbreviation pydict := (gmap string pyval).

(** [inspection_data] and [thermal_data]: a dict holding a list of dicts
    under ["areas"] or ["thermal_readings"]. *)
Abbreviation pydata := (gmap string (list pydict)).

Module validator.

Definition MAX_AREAS : nat := 20.

(** The [results] dict of [validate_all]. *)
Record results : Type := {
  valid : bool;
  errors : list string;
  warnings : list string;
  area_count : nat;
  thermal_count : nat
}.

Definition add_warning (w : string) (r : results) : results :=
  {| valid := valid r; errors := errors r; warnings := warnings r ++ [w];
     area_count := area_count r; thermal_count := thermal_count r |}.

(** A check reads and extends the shared [results] and may raise; what it
    has appended before raising stays appended. *)
Definition check (A : Type) : Type := results → results * outcome A.

#[global] Instance check_ret : MRet check := λ A a r, (r, Returns a).
#[global] Instance check_bind : MBind check := λ A B f m r,
  match m r with
  | (r', Returns a) => f a r'
  | (r', Raises e) => (r', Raises e)
  end.

Definition raise {A} (e : exn) : check A := λ r, (r, Raises e).
Definition warn (w : string) : check unit := λ r, (add_warning w r, Returns tt).

(** [d.get(k, default).lower()]: only a [str] has the method. *)
Definition get_lower (d : pydict) (k : string) (default : string)
  : check string :=
  match d !! k with
  | None => mret (py.lower default)
  | Some (PyStr s) => mret (py.lower s)
  | Some _ => raise AttributeError
  end.

(** [str(d.get(k))] inside a message, at the places where the value is
    known to be a [str] or absent. *)
Definition show_get (v : option pyval) : string :=
  match v with
  | Some (PyStr s) => s
  | _ => "None"
  end.

(** [", ".join(names)]: every item has to be a [str]. *)
Fixpoint strs (names : list pyval) : option (list string) :=
  match names with
  | [] => Some []
  | PyStr s :: rest => l ← strs rest; Some (s :: l)
  | _ :: _ => None
  end.

Definition _validate_area_count (inspection_data : pydata) : check unit :=
  let areas := default [] (inspection_data !! "areas") in
  let count := length areas in
  if (MAX_AREAS <? count)%nat then
    let area_names :=
      (λ a : pydict, default (PyStr "UNKNOWN") (a !! "area_name"))
        <$> take 30 areas in
    match strs (take 10 area_names) with
    | None => raise TypeError
    | Some first_names =>
        let area_preview := py.join ", " first_names in
        let area_preview :=
          if (10 <? length area_names)%nat
          then area_preview +:+ " ... (and "
               +:+ py.str_of_nat (length area_names - 10) +:+ " more)"
          else area_preview in
        raise (ValidationError (
          "Area count " +:+ py.str_of_nat count +:+ " exceeds maximum "
          +:+ py.str_of_nat MAX_AREAS +:+ ". "
          +:+ "Likely hallucination from thermal IDs or metadata. "
          +:+ "Areas found: " +:+ area_preview))
    end
  else if (count =? 0)%nat then warn "No areas extracted from inspection report"
  else mret tt.

Definition thermal_patterns : list string :=
  [".jpg"; ".jpeg"; ".png"; "rb0"; "rb_"; "ir_"; "ir0"].

Fixpoint no_thermal_ids_loop (areas : list pydict) : check unit :=
  match areas with
  | [] => mret tt
  | area :: rest =>
      area_name ← get_lower area "area_name" "";
      if existsb (λ pattern, py.contains pattern area_name) thermal_patterns
      then raise (ValidationError (
        "Thermal image ID detected in areas: '"
        +:+ show_get (area !! "area_name") +:+ "'. "
        +:+ "Thermal IDs must NOT be treated as areas."))
      else
        (if (30 <? String.length area_name)%nat
            || py.isupper area_name && (10 <? String.length area_name)%nat
         then warn ("Suspicious area name (might be ID): '"
                    +:+ show_get (area !! "area_name") +:+ "'")
         else mret tt);;
        no_thermal_ids_loop rest
  end.

Definition _validate_no_thermal_ids_in_areas (inspection_data : pydata)
  : check unit :=
  no_thermal_ids_loop (default [] (inspection_data !! "areas")).

Definition common_areas : list string :=
  ["hall"; "bedroom"; "kitchen"; "bathroom"; "living"; "dining"].

Definition is_key (k : string) (d : pydict) : bool :=
  match d !! k with Some _ => true | None => false end.

Fixpoint thermal_structure_loop (i : nat) (readings : list pydict)
  : check unit :=
  match readings with
  | [] => mret tt
  | reading :: rest =>
      if is_key "area" reading && negb (is_key "image_id" reading)
      then raise (ValidationError (
        "Thermal reading " +:+ py.str_of_nat i
        +:+ " uses 'area' instead of 'image_id'. "
        +:+ "This causes thermal IDs to be treated as areas."))
      else
        let image_id := default (PyStr "") (reading !! "image_id") in
        (if negb (truthy image_id) then mret tt
         else match image_id with
              | PyStr s =>
                  if String.eqb s "Not Available" then mret tt
                  else if existsb (λ area, py.contains area (py.lower s))
                                  common_areas
                  then warn ("Thermal image_id looks like area name: '"
                             +:+ s +:+ "'")
                  else mret tt
              | _ => raise AttributeError
              end);;
        thermal_structure_loop (S i) rest
  end.

Definition _validate_thermal_structure (thermal_data : pydata) : check unit :=
  thermal_structure_loop 0 (default [] (thermal_data !! "thermal_readings")).

(** [[a.get("area_name", "").lower() for a in areas]] *)
Fixpoint lower_names (areas : list pydict) : check (list string) :=
  match areas with
  | [] => mret []
  | a :: rest =>
      name ← get_lower a "area_name" "";
      names ← lower_names rest;
      mret (name :: names)
  end.

Fixpoint no_areas_in_thermal_loop (area_names : list string)
    (readings : list pydict) : check unit :=
  match readings with
  | [] => mret tt
  | reading :: rest =>
      image_id ← get_lower reading "image_id" "";
      (if existsb (String.eqb image_id) area_names
       then warn ("Thermal image_id '" +:+ show_get (reading !! "image_id")
                  +:+ "' matches area name. "
                  +:+ "Verify separation is correct.")
       else mret tt);;
      no_areas_in_thermal_loop area_names rest
  end.

Definition _validate_no_areas_in_thermal (inspection_data thermal_data : pydata)
  : check unit :=
  area_names ← lower_names (default [] (inspection_data !! "areas"));
  no_areas_in_thermal_loop area_names
    (default [] (thermal_data !! "thermal_readings")).

Definition NOT_AVAILABLE : pyval := PyStr "Not Available".

Definition clean_area (area : pydict) : pydict :=
  let area :=
    if truthy_get (area !! "area_name") then area
    else <["area_name" := NOT_AVAILABLE]> area in
  let area :=
    if is_list_get (area !! "negative_observations") then area
    else <["negative_observations" := PyList []]> area in
  if is_list_get (area !! "positive_observations") then area
  else <["positive_observations" := PyList []]> area.

Definition reading_fields : list string :=
  ["image_id"; "hotspot"; "coldspot"; "temperature_difference";
   "interpretation"].

Definition clean_reading (reading : pydict) : pydict :=
  fold_left
    (λ (reading : pydict) field,
       if truthy_get (reading !! field) then reading
       else <[field := NOT_AVAILABLE]> reading)
    reading_fields reading.

(** The dicts of a collection after the call, read as values: each area
    cleaned as an area, each reading as a reading.  This is what the call
    leaves when no dict is listed both as an area and as a reading;
    [validator_store] below has the assignments into the dicts
    themselves. *)
Definition _clean_null_fields (data : pydata) : pydata :=
  let data :=
    match data !! "areas" with
    | Some areas => <["areas" := clean_area <$> areas]> data
    | None => data
    end in
  match data !! "thermal_readings" with
  | Some readings => <["thermal_readings" := clean_reading <$> readings]> data
  | None => data
  end.

(** The body of the [try] block: the four checks, then the cleaning of
    both arguments. *)
Definition checks_then_clean (inspection_data thermal_data : pydata)
  : check (pydata * pydata) :=
  _validate_area_count inspection_data;;
  _validate_no_thermal_ids_in_areas inspection_data;;
  _validate_thermal_structure thermal_data;;
  _validate_no_areas_in_thermal inspection_data thermal_data;;
  let inspection_data := _clean_null_fields inspection_data in
  let thermal_data := _clean_null_fields thermal_data in
  mret (inspection_data, thermal_data).

(** What [validate_all] returns. *)
Record validated : Type := {
  validation : results;
  inspection : pydata;
  thermal : pydata
}.

Definition count_of (key : string) (data : pydata) : nat :=
  length (default [] (data !! key)).

Definition validate_all (inspection_data thermal_data : pydata)
  : outcome validated :=
  let initial :=
    {| valid := true; errors := []; warnings := [];
       area_count := 0; thermal_count := 0 |} in
  let finish (r : results) (inspection_data thermal_data : pydata) :=
    {| validation :=
         {| valid := valid r; errors := errors r;
            warnings := warnings r;
            area_count := count_of "areas" inspection_data;
            thermal_count := count_of "thermal_readings" thermal_data |};
       inspection := inspection_data;
       thermal := thermal_data |} in
  match checks_then_clean inspection_data thermal_data initial with
  | (r, Returns (inspection_data', thermal_data')) =>
      Returns (finish r inspection_data' thermal_data')
  | (r, Raises (ValidationError e)) =>
      Returns (finish
        {| valid := false; errors := errors r ++ [e];
           warnings := warnings r;
           area_count := area_count r;
           thermal_count := thermal_count r |}
        inspection_data thermal_data)
  | (_, Raises e) => Raises e
  end.

End validator.

(** ** validator.py, the dicts rewritten in place

    [_clean_null_fields] assigns into the dicts it is given, and one dict
    can be listed more than once: twice in a collection, or as an area
    and as a thermal reading.  Here the dicts live in a store and a
    collection lists references into it.  The four checks only read:
    they are those of [validator], run on the dicts the references stand
    for at that moment. *)

Module validator_store.
Import validator.

Abbreviation store := (gmap nat pydict).

(** [inspection_data] and [thermal_data]: under each key a list of
    references. *)
Abbreviation refdata := (gmap string (list nat)).

Definition object (h : store) (ref : nat) : pydict := default ∅ (h !! ref).

(** The dicts that a top-level dict holds in a store. *)
Definition view (h : store) (data : refdata) : pydata :=
  (λ refs : list nat, object h <$> refs) <$> data.

(** [for d in refs: ...], the body assigning into [d]. *)
Definition rewrite_each (f : pydict → pydict) (refs : list nat) (h : store)
  : store :=
  fold_left (λ h ref, alter f ref h) refs h.

(** The call returns [data] itself; what it changes is the store. *)
Definition _clean_null_fields (h : store) (data : refdata) : store :=
  let h :=
    match data !! "areas" with
    | Some areas => rewrite_each clean_area areas h
    | None => h
    end in
  match data !! "thermal_readings" with
  | Some readings => rewrite_each clean_reading readings h
  | None => h
  end.

(** The body of the [try] block. *)
Definition checks_then_clean (h : store)
    (inspection_data thermal_data : refdata) : check store :=
  _validate_area_count (view h inspection_data);;
  _validate_no_thermal_ids_in_areas (view h inspection_data);;
  _validate_thermal_structure (view h thermal_data);;
  _validate_no_areas_in_thermal (view h inspection_data)
    (view h thermal_data);;
  let h := _clean_null_fields h inspection_data in
  let h := _clean_null_fields h thermal_data in
  mret h.

(** What [validate_all] returns, and the store it leaves. *)
Record validated : Type := {
  validation : results;
  inspection : refdata;
  thermal : refdata;
  objects : store
}.

Definition count_of (key : string) (data : refdata) : nat :=
  length (default [] (data !! key)).

Definition validate_all (h : store) (inspection_data thermal_data : refdata)
  : outcome validated :=
  let initial :=
    {| valid := true; errors := []; warnings := [];
       area_count := 0; thermal_count := 0 |} in
  let finish (r : results) (h : store) :=
    {| validation :=
         {| valid := valid r; errors := errors r;
            warnings := warnings r;
            area_count := count_of "areas" inspection_data;
            thermal_count := count_of "thermal_readings" thermal_data |};
       inspection := inspection_data;
       thermal := thermal_data;
       objects := h |} in
  match checks_then_clean h inspection_data thermal_data initial with
  | (r, Returns h') => Returns (finish r h')
  | (r, Raises (ValidationError e)) =>
      Returns (finish
        {| valid := false; errors := errors r ++ [e];
           warnings := warnings r;
           area_count := area_count r;
           thermal_count := thermal_count r |}
        h)
  | (_, Raises e) => Raises e
  end.

End validator_store.

(** ** schemas.py and ddr_generator.py *)

Module ddr_generator.

Record InspectionFinding : Type := {
  area : string;
  observation : string;
  severity_indicator : string;
  possible_cause : string
}.

Record ThermalFinding : Type := {
  image_id : string;
  temperature_reading : string;
  thermal_interpretation : string
}.

(** [unique_thermal]: image identifier to finding, in insertion order. *)
Abbreviation unique_thermal_t := (list (string * ThermalFinding)).

Definition has_key (unique_thermal : unique_thermal_t) (k : string) : bool :=
  existsb (λ kv, String.eqb (fst kv) k) unique_thermal.

(** The de-duplicating loop: a finding whose identifier is already a key
    is dropped. *)
Fixpoint collect_thermal (unique_thermal : unique_thermal_t)
    (thermal_findings : list ThermalFinding) : unique_thermal_t :=
  match thermal_findings with
  | [] => unique_thermal
  | item :: rest =>
      if has_key unique_thermal (image_id item)
      then collect_thermal unique_thermal rest
      else collect_thermal (unique_thermal ++ [(image_id item, item)]) rest
  end.

(** [list(unique_thermal.values())] *)
Definition deduplicate (thermal_findings : list ThermalFinding)
  : list ThermalFinding :=
  snd <$> collect_thermal [] thermal_findings.

(** [len(set(t.image_id for t in thermal_findings))] *)
Definition unique_image_ids (thermal_findings : list ThermalFinding) : nat :=
  size (list_to_set (image_id <$> thermal_findings) : gset string).

(** The first statements of [generate_ddr], up to and with the [assert]. *)
Definition deduplicate_and_assert (thermal_findings : list ThermalFinding)
  : outcome (list ThermalFinding) :=
  let thermal_findings := deduplicate thermal_findings in
  let thermal_count := length thermal_findings in
  let unique := unique_image_ids thermal_findings in
  if (thermal_count =? unique)%nat then Returns thermal_findings
  else Raises (AssertionError (
    "CRITICAL: Thermal count " +:+ py.str_of_nat thermal_count
    +:+ " does not match unique image IDs " +:+ py.str_of_nat unique +:+ ". "
    +:+ "Duplication bug detected!")).

Definition entity_lock_message (expected_count : Z) (actual_count : nat)
  : string :=
  "⚠️ ENTITY LOCK VIOLATION: "
  +:+ "Expected " +:+ py.str_of_Z expected_count +:+ " areas, found "
  +:+ py.str_of_nat actual_count +:+ " in output. "
  +:+ "Model added extra areas (hallucination detected).".

Definition _validate_entity_count (ddr_text : string) (expected_count : Z)
  : outcome unit :=
  let pattern := re.finditer re.area_heading ddr_text in
  let actual_count := length pattern in
  if (Z.of_nat actual_count =? expected_count)%Z then Returns tt
  else Raises (ValueError (entity_lock_message expected_count actual_count)).

Section generate.

(** The serialisation of the payload, the filling of the prompt template
    and the call of the hosted model are collaborators of the generator;
    the call may raise.  Here [generate_content] is the call together
    with the read of [response.text], for a response that carries text;
    [ddr_generator_response] below has the response without text. *)
Variable _prepare_structured_json :
  list InspectionFinding → list ThermalFinding → string.
Variable format_prompt : nat → nat → string → string.
Variable generate_content : string → outcome string.

Definition generate_ddr (inspection_findings : list InspectionFinding)
    (thermal_findings : list ThermalFinding) : outcome string :=
  thermal_findings ← deduplicate_and_assert thermal_findings;
  let thermal_count := length thermal_findings in
  let structured_data :=
    _prepare_structured_json inspection_findings thermal_findings in
  let area_count := length inspection_findings in
  let prompt := format_prompt area_count thermal_count structured_data in
  ddr_text ← generate_content prompt;
  _validate_entity_count ddr_text (Z.of_nat area_count);;
  Returns ddr_text.

End generate.

End ddr_generator.

(** ** ddr_generator.py, a response without text

    [response.text] is [None] when the response of the hosted model
    carries no text part.  The preview [ddr_text[:500]], printed before
    the entity count is taken, then raises: [None] has no slice. *)

Module ddr_generator_response.
Import ddr_generator.

(** [ddr_text[:500]] *)
Definition preview (ddr_text : option string) : outcome string :=
  match ddr_text with
  | Some text => Returns (py.slice 0 500 text)
  | None => Raises TypeError
  end.

Section generate.

Variable _prepare_structured_json :
  list InspectionFinding → list ThermalFinding → string.
Variable format_prompt : nat → nat → string → string.

(** The call of the hosted model and the read of [response.text]. *)
Variable generate_content : string → outcome (option string).

Definition generate_ddr (inspection_findings : list InspectionFinding)
    (thermal_findings : list ThermalFinding) : outcome string :=
  thermal_findings ← deduplicate_and_assert thermal_findings;
  let thermal_count := length thermal_findings in
  let structured_data :=
    _prepare_structured_json inspection_findings thermal_findings in
  let area_count := length inspection_findings in
  let prompt := format_prompt area_count thermal_count structured_data in
  ddr_text ← generate_content prompt;
  preview ddr_text;;
  match ddr_text with
  | Some text =>
      _validate_entity_count text (Z.of_nat area_count);;
      Returns text
  | None => Raises TypeError
  end.

End generate.

End ddr_generator_response.

(** ** The languages of the two patterns

    What [re] is asked to find, said without an algorithm: a literal up
    to case, one or more blanks, one or more digits (and a colon).  For
    the marker pattern, whose last item is the greedy [\d+], the match
    takes every digit that follows. *)

Module re_spec.

Fixpoint all_chars (p : ascii → bool) (s : string) : bool :=
  match s with
  | EmptyString => true
  | String c s' => p c && all_chars p s'
  end.

(** One or more characters of a class. *)
Definition class_plus (p : ascii → bool) (s : string) : Prop :=
  s ≠ EmptyString ∧ all_chars p s = true.

(** A text that does not go on with a character of the class. *)
Definition stops (p : ascii → bool) (s : string) : Prop :=
  match s with
  | EmptyString => True
  | String c _ => p c = false
  end.

(** The strings matched by [Area\s+\d+:] under [re.IGNORECASE]. *)
Definition area_heading_language (m : string) : Prop :=
  ∃ a ws ds,
    m = a +:+ ws +:+ ds +:+ ":"
    ∧ py.lower a = py.lower "Area"
    ∧ class_plus py.isspace ws
    ∧ class_plus py.isdigit ds.

(** The match of [Impacted Area\s+(\d+)] under [re.IGNORECASE] at the
    head of a text, with its group. *)
Definition impacted_area_match (s m group : string) : Prop :=
  ∃ a ws rest,
    m = a +:+ ws +:+ group
    ∧ s = m +:+ rest
    ∧ py.lower a = py.lower "Impacted Area"
    ∧ class_plus py.isspace ws
    ∧ class_plus py.isdigit group
    ∧ stops py.isdigit rest.

(** Every position of a text at which a match starts, with the group of
    the match: each position is tried, whatever was matched before. *)
Fixpoint occurrences {G} (m : re.matcher G) (pos : nat) (s : string)
  : list (nat * G) :=
  match s with
  | EmptyString => []
  | String _ s' =>
      match m s with
      | Some (_, g) => (pos, g) :: occurrences m (S pos) s'
      | None => occurrences m (S pos) s'
      end
  end.

(** No match starts at the next [k] positions. *)
Fixpoint quiet {G} (m : re.matcher G) (k : nat) (s : string) : Prop :=
  match k, s with
  | S k', String _ s' => m s = None ∧ quiet m k' s'
  | _, _ => True
  end.

(** A matcher whose matches begin, up to case, with the character [x]. *)
Definition begins_with {G} (m : re.matcher G) (x : ascii) : Prop :=
  ∀ c z, Ascii.eqb (py.lower_char c) x = false → m (String c z) = None.

(** A character that is not [x], up to case. *)
Definition other_than (x : ascii) (c : ascii) : bool :=
  negb (Ascii.eqb (py.lower_char c) x).

End re_spec.

(** ** First occurrences

    The three de-duplicating loops of the pipeline (numerals of the
    segmenter, room labels of the reducer, image identifiers of the
    generator) keep the first element of each key.  [firsts] is that
    policy on a list, written once; each loop is related to it below. *)

Definition keep_first {A} (key : A → string) (acc : list A) (x : A) : list A :=
  if bool_decide (key x ∈ key <$> acc) then acc else acc ++ [x].

Definition firsts {A} (key : A → string) (l : list A) : list A :=
  fold_left (keep_first key) l [].

(** The elements of a list that carry a given key, in order. *)
Definition with_key {A} (key : A → string) (k : string) (l : list A) : list A :=
  filter (λ x, key x = k) l.

(** ** The reducer of [parse_inspection_deterministically], as the
    specification words it

    The name a section goes by, its normalised label, and the area that
    the sections of one label add up to: the name of the first of them
    and the observations of all of them, concatenated in the order met. *)

Module merge_spec.
Import area_parser.

Definition chosen_name (x : area_section * descriptions) : string :=
  match descr_area_name x.2 with
  | Some room => if py.truthy_str room then room else area_name x.1
  | None => area_name x.1
  end.

Definition label (x : area_section * descriptions) : string :=
  normalize_area (chosen_name x).

Definition merged_room (described : list (area_section * descriptions))
    (x : area_section * descriptions) : room_data :=
  let same := with_key label (label x) described in
  {| room_name := chosen_name x;
     negative_observations :=
       concat ((λ y, descr_negative_observations y.2) <$> same);
     positive_observations :=
       concat ((λ y, descr_positive_observations y.2) <$> same) |}.

Definition merged (described : list (area_section * descriptions))
  : list room_data :=
  merged_room described <$> firsts label described.

(** What the loop has built after the sections [l]: the merge of [l],
    and in [seen_rooms] the position of each label met. *)
Definition reducer_inv (l : list (area_section * descriptions)) (st : reducer)
  : Prop :=
  parsed_areas st = merged l
  ∧ ∀ k i, seen_rooms st !! k = Some i ↔ (label <$> firsts label l) !! i = Some k.

End merge_spec.

(** ** The segmenter, as the specification words it *)

Module segment_spec.
Import area_parser.

(** A match as an item of [unique_areas]. *)
Definition swap (m : nat * string) : string * nat := (m.2, m.1).

(** The ordinal of a marker: the number its numeral denotes. *)
Definition ordinal (num : string) : Z := py.int_value num.

(** A numeral written without leading zeros: printing its ordinal gives
    it back. *)
Definition canonical (num : string) : Prop :=
  py.str_of_Z (ordinal num) = num.

(** A numeral within the interpreter's bound on digits. *)
Definition short (num : string) : Prop :=
  (Z.of_nat (String.length num) ≤ py.max_str_digits)%Z.

(** The order of the sort key. *)
Definition int_le (x y : string) : Prop := (py.int_value x ≤ py.int_value y)%Z.

(** The stable sort by value, on the numerals themselves. *)
Fixpoint insert_by_value (x : string) (l : list string) : list string :=
  match l with
  | [] => [x]
  | y :: l' =>
      if (py.int_value x <=? py.int_value y)%Z
      then x :: l else y :: insert_by_value x l'
  end.

Fixpoint sort_by_value (l : list string) : list string :=
  match l with
  | [] => []
  | x :: l' => insert_by_value x (sort_by_value l')
  end.

(** The ordinals of the markers found, in the order of the text. *)
Definition ordinals (matches : list (nat * string)) : list Z :=
  (λ m, ordinal m.2) <$> matches.

(** The markers found with a given ordinal. *)
Definition with_ordinal (n : Z) (matches : list (nat * string))
  : list (nat * string) :=
  filter (λ m, ordinal m.2 = n) matches.

(** The numbers of the sections of a result. *)
Definition area_numbers (r : outcome (list area_section))
  : outcome (list string) :=
  match r with
  | Returns areas => Returns (area_number <$> areas)
  | Raises e => Raises e
  end.

(** The numerals of the markers found, each once, in the order of their
    first occurrence. *)
Definition numerals (matches : list (nat * string)) : list string :=
  snd <$> firsts snd matches.

(** Where the first marker with a given numeral starts. *)
Definition first_position (matches : list (nat * string)) (num : string)
  : option nat :=
  fst <$> head (with_key snd num matches).

(** One section per numeral of [nums]: from the first marker with that
    numeral to the first marker with the next numeral of [nums], or to the
    end of the text. *)
Fixpoint sections (matches : list (nat * string)) (text : string)
    (nums : list string) : list area_section :=
  match nums with
  | [] => []
  | num :: rest =>
      let start_pos := default 0 (first_position matches num) in
      let end_pos :=
        match rest with
        | next :: _ => default 0 (first_position matches next)
        | [] => String.length text
        end in
      {| area_number := num;
         area_name := "Impacted Area " +:+ num;
         text_chunk := py.slice start_pos end_pos text |}
      :: sections matches text rest
  end.

(** The text without the later markers of a numeral already met.  No
    marker starts inside another one, so a marker that is kept needs no
    special pass. *)
Fixpoint remove_later_duplicates (seen : list string) (skip : nat)
    (s : string) : string :=
  match s with
  | EmptyString => EmptyString
  | String c s' =>
      match skip with
      | S k => remove_later_duplicates seen k s'
      | O =>
          match re.impacted_area s with
          | Some (len, num) =>
              if bool_decide (num ∈ seen)
              then remove_later_duplicates seen (len - 1) s'
              else String c (remove_later_duplicates (num :: seen) 0 s')
          | None => String c (remove_later_duplicates seen 0 s')
          end
      end
  end.

(** A text with the markers 1 to [n], in this order. *)
Definition numbered_markers (n : nat) : string :=
  py.join " " ((λ k, "Impacted Area " +:+ py.str_of_nat k +:+ " observed")
               <$> seq 1 n).

End segment_spec.

(** ** The inputs and the hard conditions of the validator *)

Module validator_spec.
Import validator.

Definition areas_of (inspection_data : pydata) : list pydict :=
  default [] (inspection_data !! "areas").

Definition readings_of (thermal_data : pydata) : list pydict :=
  default [] (thermal_data !! "thermal_readings").

(** A field that holds a string when it is there, as in the data model. *)
Definition str_or_absent (v : option pyval) : Prop :=
  match v with
  | None | Some (PyStr _) => True
  | Some _ => False
  end.

(** The same, or a null. *)
Definition str_or_null (v : option pyval) : Prop :=
  match v with
  | None | Some PyNone | Some (PyStr _) => True
  | Some _ => False
  end.

Definition names_typed (inspection_data : pydata) : Prop :=
  Forall (λ area : pydict, str_or_absent (area !! "area_name"))
         (areas_of inspection_data).

Definition ids_typed (thermal_data : pydata) : Prop :=
  Forall (λ reading : pydict, str_or_absent (reading !! "image_id"))
         (readings_of thermal_data).

Definition ids_typed_or_null (thermal_data : pydata) : Prop :=
  Forall (λ reading : pydict, str_or_null (reading !! "image_id"))
         (readings_of thermal_data).

(** More areas than the ceiling. *)
Definition overflow (inspection_data : pydata) : bool :=
  (MAX_AREAS <? length (areas_of inspection_data))%nat.

(** An area name that holds an image extension or a device code,
    whatever the case of its letters. *)
Definition names_thermal_id (area : pydict) : bool :=
  match area !! "area_name" with
  | Some (PyStr s) =>
      existsb (λ pattern, py.contains pattern (py.lower s)) thermal_patterns
  | _ => false
  end.

(** A thermal reading with an "area" key and no "image_id" key. *)
Definition uses_area_for_image_id (reading : pydict) : bool :=
  is_key "area" reading && negb (is_key "image_id" reading).

(** One of the three conditions that raise [ValidationError]. *)
Definition hard_error (inspection_data thermal_data : pydata) : bool :=
  overflow inspection_data
  || existsb names_thermal_id (areas_of inspection_data)
  || existsb uses_area_for_image_id (readings_of thermal_data).

(** A check that leaves the verdict so far as it was. *)
Definition same_verdict (r r' : results) : Prop :=
  valid r' = valid r ∧ errors r' = errors r.

(** How the outcome of a check tells whether its hard condition holds:
    it returns only without the condition and raises [ValidationError]
    only with it; another exception can leave it either way. *)
Definition classifies {A} (condition : bool) (o : outcome A) : Prop :=
  match o with
  | Returns _ => condition = false
  | Raises (ValidationError _) => condition = true
  | Raises _ => True
  end.

(** The [try] block from its fourth check on, and from its third. *)
Definition from_check_4 (inspection_data thermal_data : pydata)
  : check (pydata * pydata) :=
  _validate_no_areas_in_thermal inspection_data thermal_data;;
  mret (_clean_null_fields inspection_data, _clean_null_fields thermal_data).

Definition from_check_3 (inspection_data thermal_data : pydata)
  : check (pydata * pydata) :=
  _validate_thermal_structure thermal_data;;
  from_check_4 inspection_data thermal_data.

(** The first values of [results]. *)
Definition initial : results :=
  {| valid := true; errors := []; warnings := [];
     area_count := 0; thermal_count := 0 |}.

(** A validation that failed with the one error [e]: both collections
    come back as they were received. *)
Definition rejected (inspection_data thermal_data : pydata) (e : string)
    (res : validated) : Prop :=
  valid (validation res) = false
  ∧ errors (validation res) = [e]
  ∧ inspection res = inspection_data
  ∧ thermal res = thermal_data.

(** A validation that passed: both collections come back normalised. *)
Definition accepted (inspection_data thermal_data : pydata)
    (res : validated) : Prop :=
  valid (validation res) = true
  ∧ errors (validation res) = []
  ∧ inspection res = _clean_null_fields inspection_data
  ∧ thermal res = _clean_null_fields thermal_data.

(** What normalisation makes of a field that has to be truthy, and of one
    that has to be a list. *)
Definition truthy_or_sentinel (v : option pyval) : option pyval :=
  if truthy_get v then v else Some NOT_AVAILABLE.

Definition list_or_empty (v : option pyval) : option pyval :=
  if is_list_get v then v else Some (PyList []).

(** An area named after a thermal image beside a thermal reading keyed by
    "area", and an area whose name is null. *)
Definition leaked_inspection : pydata :=
  {[ "areas" := [ ({[ "area_name" := PyStr "IR_0042.jpg" ]} : pydict) ] ]}.

Definition confused_thermal : pydata :=
  {[ "thermal_readings" := [ ({[ "area" := PyStr "Hall" ]} : pydict) ] ]}.

Definition null_name_inspection : pydata :=
  {[ "areas" := [ ({[ "area_name" := PyNone ]} : pydict) ] ]}.

(** The references a top-level dict lists under a key. *)
Definition listed (key : string) (data : validator_store.refdata) : list nat :=
  default [] (data !! key).

(** What one call of [_clean_null_fields] on [data] makes of the dict
    behind a reference: cleaned as an area when [data] lists it under
    "areas", then as a reading when [data] lists it under
    "thermal_readings". *)
Definition cleaned_by (data : validator_store.refdata) (ref : nat)
    (d : pydict) : pydict :=
  let d := if bool_decide (ref ∈ listed "areas" data) then clean_area d
           else d in
  if bool_decide (ref ∈ listed "thermal_readings" data) then clean_reading d
  else d.

(** Every reference of a top-level dict has its dict in the store. *)
Definition closed (h : validator_store.store)
    (data : validator_store.refdata) : Prop :=
  ∀ key refs ref, data !! key = Some refs → ref ∈ refs → is_Some (h !! ref).

(** The area named after a thermal image and the reading keyed by
    "area", as dicts of a store. *)
Definition leaked_store : validator_store.store :=
  {[ 0 := ({[ "area_name" := PyStr "IR_0042.jpg" ]} : pydict);
     1 := ({[ "area" := PyStr "Hall" ]} : pydict) ]}.

Definition leaked_refs : validator_store.refdata := {[ "areas" := [0] ]}.

Definition confused_refs : validator_store.refdata :=
  {[ "thermal_readings" := [1] ]}.

(** A store in which the dict 0 is listed both as an area and as a
    thermal reading: a finding of the hall that carries its image. *)
Definition shared_store : validator_store.store :=
  {[ 0 := ({[ "area_name" := PyStr "Hall";
              "negative_observations" := PyNone;
              "image_id" := PyStr "IR_0042.jpg" ]} : pydict);
     1 := ({[ "image_id" := PyStr "IR_0043.jpg";
              "hotspot" := PyStr "31.2";
              "coldspot" := PyStr "" ]} : pydict) ]}.

Definition shared_inspection : validator_store.refdata :=
  {[ "areas" := [0] ]}.

Definition shared_thermal : validator_store.refdata :=
  {[ "thermal_readings" := [0; 1] ]}.

End validator_spec.

(** ** More of Python's strings *)

Module pystr.

(** [s.replace(old, new)] for a non-empty [old]: the occurrences of [old]
    are taken from the left, no two overlapping.  [skip] counts the
    characters of the last occurrence still to be passed. *)
Fixpoint replace_go (old new : string) (skip : nat) (s : string) : string :=
  match s with
  | EmptyString => EmptyString
  | String c s' =>
      match skip with
      | S k => replace_go old new k s'
      | O =>
          if String.prefix old s
          then new +:+ replace_go old new (String.length old - 1) s'
          else String c (replace_go old new 0 s')
      end
  end.

Definition replace (old new s : string) : string := replace_go old new 0 s.

(** [s.split(sep)] for a separator of one character. *)
Fixpoint split (sep : ascii) (s : string) : list string :=
  match s with
  | EmptyString => [EmptyString]
  | String c s' =>
      if Ascii.eqb c sep then EmptyString :: split sep s'
      else match split sep s' with
           | piece :: rest => String c piece :: rest
           | [] => [String c EmptyString]
           end
  end.

(** [l[i]] *)
Definition item (l : list string) (i : nat) : outcome string :=
  match l !! i with
  | Some x => Returns x
  | None => Raises IndexError
  end.

(** [c.isdigit()] for one character: the decimal digits and the
    superscripts one, two and three. *)
Definition char_isdigit (c : ascii) : bool :=
  let n := py.ord c in
  ((48 <=? n) && (n <=? 57) || (n =? 178) || (n =? 179) || (n =? 185))%N.

(** [s.isdigit()] *)
Definition isdigit (s : string) : bool :=
  py.truthy_str s && re_spec.all_chars char_isdigit s.

End pystr.

(** ** validator.py: the severity rules *)

Module severity.
Import ddr_generator.

Definition high_keywords : list string :=
  ["structural"; "crack"; "seepage"; "leakage"; "collapse";
   "severe"; "major"; "critical"; "dangerous"; "unstable"].

Definition medium_keywords : list string :=
  ["dampness"; "stain"; "minor crack"; "peeling"; "discoloration";
   "moderate"; "wear"].

Definition apply_rule_based_severity (observation : string) : string :=
  let obs_lower := py.lower observation in
  if existsb (λ kw, py.contains kw obs_lower) high_keywords then "High"
  else if existsb (λ kw, py.contains kw obs_lower) medium_keywords then "Medium"
  else "Low".

Definition with_severity (f : InspectionFinding) (s : string)
  : InspectionFinding :=
  {| area := area f; observation := observation f;
     severity_indicator := s; possible_cause := possible_cause f |}.

(** The findings are rewritten in place and the list is returned. *)
Definition enrich_findings_with_severity (findings : list InspectionFinding)
  : list InspectionFinding :=
  (λ finding,
     if String.eqb (severity_indicator finding) "Not Available"
     then with_severity finding (apply_rule_based_severity (observation finding))
     else finding) <$> findings.

(** The order of the three labels. *)
Definition rank (label : string) : nat :=
  if String.eqb label "High" then 2
  else if String.eqb label "Medium" then 1 else 0.

End severity.

(** ** More words for the segmenter and the reducer *)

Module pipeline_spec.
Import area_parser merge_spec segment_spec.

(** Where the section of a result starts: at the first marker that
    carries its numeral. *)
Definition start_of (matches : list (nat * string)) (a : area_section) : nat :=
  default 0 (first_position matches (area_number a)).

(** The chunks of a result, one after the other. *)
Definition chunk_text (areas : list area_section) : string :=
  foldr (λ a rest, text_chunk a +:+ rest) "" areas.

(** The area a section makes when no other section shares its label. *)
Definition room_of (x : area_section * descriptions) : room_data :=
  {| room_name := chosen_name x;
     negative_observations := descr_negative_observations x.2;
     positive_observations := descr_positive_observations x.2 |}.

End pipeline_spec.

(** ** ddr_generator.py: the payload sent to the model *)

Module payload.
Import ddr_generator.

(** The characters the source writes as [\n] and [\r], and its ["°C"]. *)
Definition LF : string := String (ascii_of_N 10) "".
Definition CR : string := String (ascii_of_N 13) "".
Definition degree_C : string := String (ascii_of_N 176) "C".

Definition prefixes : list string :=
  ["Hot:"; "Cold:"; "Diff:"; "hot:"; "cold:"; "diff:"].

(** One turn of [for prefix in prefixes]. *)
Definition remove_prefix (value prefix : string) : string :=
  if py.contains prefix value
  then py.strip (pystr.replace prefix "" value)
  else value.

Definition _clean_thermal_value (value : string) : string :=
  if String.eqb value "N/A" then value
  else
    let value := fold_left remove_prefix prefixes value in
    if negb (py.contains degree_C value) && negb (String.eqb value "N/A")
    then
      let value := py.strip value in
      if py.truthy_str value
         && (pystr.isdigit (pystr.replace "-" "" (pystr.replace "." "" value))
             || py.existsb_char pystr.char_isdigit value)
      then value +:+ " " +:+ degree_C
      else value
    else value.

(** The dicts of the payload. *)
Record area_entry : Type := {
  entry_area_name : string;
  entry_negative_observations : list string
}.

Record thermal_entry : Type := {
  entry_image_id : string;
  hotspot : string;
  coldspot : string;
  temperature_difference : string;
  interpretation : string
}.

Record structured : Type := {
  areas : list area_entry;
  thermal_readings : list thermal_entry
}.

Definition clean_observation (observation : string) : string :=
  py.strip (pystr.replace "damness" "dampness"
              (pystr.replace CR " " (pystr.replace LF " " observation))).

Definition area_entry_of (f : InspectionFinding) : area_entry :=
  {| entry_area_name := area f;
     entry_negative_observations := [clean_observation (observation f)] |}.

Definition thermal_entry_of (f : ThermalFinding) : outcome thermal_entry :=
  let reading := temperature_reading f in
  hot ← (if py.contains "," reading
         then pystr.item (pystr.split "," reading) 0 else Returns "N/A");
  cold ← (if py.contains "," reading
          then pystr.item (pystr.split "," reading) 1 else Returns "N/A");
  diff ← (if py.contains "," reading
             && (2 <? length (pystr.split "," reading))%nat
          then pystr.item (pystr.split "," reading) 2 else Returns "N/A");
  Returns {| entry_image_id := image_id f;
             hotspot := _clean_thermal_value hot;
             coldspot := _clean_thermal_value cold;
             temperature_difference := _clean_thermal_value diff;
             interpretation := thermal_interpretation f |}.

Fixpoint thermal_entries (thermal_findings : list ThermalFinding)
  : outcome (list thermal_entry) :=
  match thermal_findings with
  | [] => Returns []
  | f :: rest =>
      entry ← thermal_entry_of f;
      entries ← thermal_entries rest;
      Returns (entry :: entries)
  end.

(** [data] of [_prepare_structured_json], the dict that [json.dumps]
    then writes out. *)
Definition structured_data (inspection_findings : list InspectionFinding)
    (thermal_findings : list ThermalFinding) : outcome structured :=
  entries ← thermal_entries thermal_findings;
  Returns {| areas := area_entry_of <$> inspection_findings;
             thermal_readings := entries |}.

(** What the cleaning makes of a value that carries no prefix: the unit
    is added to a value that has a digit and no unit yet. *)
Definition with_unit (value : string) : string :=
  if py.contains degree_C value then value
  else if py.existsb_char pystr.char_isdigit value
       then value +:+ " " +:+ degree_C
       else value.

(** A value with no comma and no colon in it. *)
Definition plain (value : string) : Prop :=
  re_spec.all_chars (λ c, negb (Ascii.eqb c ",")) value = true
  ∧ re_spec.all_chars (λ c, negb (Ascii.eqb c ":")) value = true.

(** The statements of [_clean_thermal_value] after its loop. *)
Definition ensure_unit (value : string) : string :=
  if negb (py.contains degree_C value) && negb (String.eqb value "N/A")
  then
    let value := py.strip value in
    if py.truthy_str value
       && (pystr.isdigit (pystr.replace "-" "" (pystr.replace "." "" value))
           || py.existsb_char pystr.char_isdigit value)
    then value +:+ " " +:+ degree_C
    else value
  else value.

End payload.

(** ** extraction.py: from the parsed data to the findings *)

Module extraction.
Import ddr_generator.

(** [v or "Not Available"] *)
Definition or_not_available (v : string) : string :=
  if py.truthy_str v then v else "Not Available".

(** One turn of the loop over [response_data["areas"]], for an area as
    [parse_inspection_deterministically] builds it. *)
Definition inspection_finding_of (area_data : area_parser.room_data)
  : InspectionFinding :=
  let area_name := or_not_available (area_parser.room_name area_data) in
  let neg_obs := area_parser.negative_observations area_data in
  let observation :=
    match neg_obs with
    | [] => "Not Available"
    | _ => py.join "; " (filter (λ o, py.truthy_str o = true) neg_obs)
    end in
  {| area := area_name;
     observation := or_not_available observation;
     severity_indicator := "Not Available";
     possible_cause := "Not Available" |}.

Definition text_findings (parsed_areas : list area_parser.room_data)
  : list InspectionFinding :=
  inspection_finding_of <$> parsed_areas.

(** [f"Hot: {hotspot}, Cold: {coldspot}, Diff: {temp_diff}"] *)
Definition temp_reading (hotspot coldspot temp_diff : string) : string :=
  "Hot: " +:+ hotspot +:+ ", Cold: " +:+ coldspot
  +:+ ", Diff: " +:+ temp_diff.

End extraction.

(** ** app.py: the data handed to the validator *)

Module app.
Import ddr_generator.

Definition area_dict (f : InspectionFinding) : pydict :=
  {[ "area_name" := PyStr (area f);
     "negative_observations" := PyList [PyStr (observation f)];
     "positive_observations" := PyList [] ]}.

Definition reading_dict (f : ThermalFinding) : pydict :=
  {[ "image_id" := PyStr (image_id f);
     "hotspot" := PyStr "N/A";
     "coldspot" := PyStr "N/A";
     "temperature_difference" := PyStr "N/A";
     "interpretation" := PyStr (thermal_interpretation f) ]}.

Definition inspection_data (findings : list InspectionFinding) : pydata :=
  {[ "areas" := area_dict <$> findings ]}.

Definition thermal_data (findings : list ThermalFinding) : pydata :=
  {[ "thermal_readings" := reading_dict <$> findings ]}.

(** An area name in which the validator sees a thermal image. *)
Definition looks_thermal (f : InspectionFinding) : bool :=
  existsb (λ pattern, py.contains pattern (py.lower (area f)))
          validator.thermal_patterns.

End app.

(** ** area_parser.py: the describer of one chunk

    [extract_descriptions_from_area_chunk] works with [re.search] and
    [re.sub].  Its patterns are read as follows.

    [Negative side Description\s*(.+?)(?=A|B|C|$)] under [IGNORECASE] and
    [DOTALL]: the match starts at the first occurrence of the literal.
    The greedy [\s*] takes all the blanks that follow; the lazy group then
    takes one character, whatever it is, and goes on up to the first
    position where one of the literals of the look-ahead starts or where
    [$] holds (the end of the text, or its last character when that is a
    line feed).  When only blanks follow the literal, [\s*] gives the last
    of them back to the group.  When nothing follows it, there is no
    match. *)

Module describer.
Import area_parser.

(** The text after the first occurrence of a literal, up to case. *)
Fixpoint after_literal (lit s : string) : option string :=
  match re.literal_ignorecase lit s with
  | Some rest => Some rest
  | None =>
      match s with
      | EmptyString => None
      | String _ s' => after_literal lit s'
      end
  end.

(** [$] without [MULTILINE]. *)
Definition at_end (s : string) : bool :=
  match s with
  | EmptyString => true
  | String c EmptyString => (py.ord c =? 10)%N
  | _ => false
  end.

(** The look-ahead [(?=lit1|...|$)]. *)
Definition lookahead (lits : list string) (s : string) : bool :=
  existsb (λ lit, bool_decide (is_Some (re.literal_ignorecase lit s))) lits
  || at_end s.

(** The lazy [.+?] once it has its first character: up to the first
    position where the look-ahead holds. *)
Fixpoint lazy_until (lits : list string) (s : string) : string :=
  match s with
  | EmptyString => EmptyString
  | String c s' =>
      if lookahead lits s then EmptyString
      else String c (lazy_until lits s')
  end.

Fixpoint last_char (s : string) : string :=
  match s with
  | EmptyString => EmptyString
  | String c EmptyString => s
  | String _ s' => last_char s'
  end.

(** [re.search(pattern, area_chunk).group(1)] for the pattern of a
    description, [None] when there is no match. *)
Definition description_group (lit : string) (lits : list string)
    (area_chunk : string) : option string :=
  match after_literal lit area_chunk with
  | None | Some EmptyString => None
  | Some rest =>
      match (re.span py.isspace rest).2 with
      | EmptyString => Some (last_char rest)
      | String c r => Some (String c (lazy_until lits r))
      end
  end.

(** [r'Photo\s+\d+'] with [re.IGNORECASE]. *)
Definition photo : re.matcher unit := λ s,
  r1 ← re.literal_ignorecase "Photo" s;
  '(ws, r2) ← re.plus py.isspace r1;
  '(ds, _) ← re.plus py.isdigit r2;
  Some (5 + String.length ws + String.length ds, tt).

(** [re.sub(pattern, '', s)]: the matches are taken from the left, no two
    overlapping, and left out. *)
Fixpoint sub_go {G} (m : re.matcher G) (skip : nat) (s : string) : string :=
  match s with
  | EmptyString => EmptyString
  | String c s' =>
      match skip with
      | S k => sub_go m k s'
      | O =>
          match m s with
          | Some (len, _) => sub_go m (len - 1) s'
          | None => String c (sub_go m 0 s')
          end
      end
  end.

Definition sub {G} (m : re.matcher G) (s : string) : string := sub_go m 0 s.

(** The group, stripped, without its photo references, stripped again. *)
Definition cleaned (group : string) : string :=
  py.strip (sub photo (py.strip group)).

(** [if text and len(text) > 3] *)
Definition kept (text : string) : bool :=
  py.truthy_str text && (3 <? String.length text)%nat.

(** The class [\w] of [re] for [str] patterns, below U+0100: letters,
    digits and other numeric characters, and the underscore. *)
Definition word_char (c : ascii) : bool :=
  let n := py.ord c in
  ((48 <=? n) && (n <=? 57) || (65 <=? n) && (n <=? 90) || (n =? 95)
   || (97 <=? n) && (n <=? 122) || (n =? 170) || (n =? 178) || (n =? 179)
   || (n =? 181) || (n =? 185) || (n =? 186) || (188 <=? n) && (n <=? 190)
   || (192 <=? n) && (n <=? 214) || (216 <=? n) && (n <=? 246)
   || (248 <=? n) && (n <=? 255))%N.

(** [re.search(r'^(name)\b', text, re.IGNORECASE)] for a name that ends
    with a letter: the group, when the text starts with the name and
    goes on with no word character. *)
Definition anchored (name text : string) : option string :=
  match re.literal_ignorecase name text with
  | Some (String c _) =>
      if word_char c then None
      else Some (String.substring 0 (String.length name) text)
  | Some EmptyString => Some (String.substring 0 (String.length name) text)
  | None => None
  end.

(** [r'(Flat No\.\s*\d+)'] with [re.IGNORECASE], at the head of a text. *)
Definition flat_no : re.matcher unit := λ s,
  r1 ← re.literal_ignorecase "Flat No." s;
  let '(ws, r2) := re.span py.isspace r1 in
  '(ds, _) ← re.plus py.isdigit r2;
  Some (8 + String.length ws + String.length ds, tt).

(** [re.search] for a pattern with one group around all of it. *)
Fixpoint search {G} (m : re.matcher G) (s : string) : option string :=
  match m s with
  | Some (len, _) => Some (String.substring 0 len s)
  | None =>
      match s with
      | EmptyString => None
      | String _ s' => search m s'
      end
  end.

Definition room_names : list string :=
  ["Hall"; "Bedroom"; "Master Bedroom"; "Common Bedroom"; "Kitchen";
   "Bathroom"; "Common Bathroom"; "MB Bathroom"; "Living Room";
   "Dining Room"; "Balcony"; "Parking"; "Entrance"].

(** [room_patterns], as the functions that search for them. *)
Definition room_patterns : list (string → option string) :=
  (anchored <$> room_names) ++ [search flat_no].

(** The loop over [room_patterns]: the group of the first pattern that
    matches. *)
Fixpoint first_room (patterns : list (string → option string))
    (text : string) : option string :=
  match patterns with
  | [] => None
  | pattern :: rest =>
      match pattern text with
      | Some group => Some group
      | None => first_room rest text
      end
  end.

Definition neg_text (area_chunk : string) : option string :=
  cleaned <$> description_group "Negative side Description"
    ["Negative side photographs"; "Positive side"; "Impacted Area"]
    area_chunk.

Definition pos_text (area_chunk : string) : option string :=
  cleaned <$> description_group "Positive side Description"
    ["Positive side photographs"; "Impacted Area"] area_chunk.

(** Whether the description found in a chunk, if any, is kept. *)
Definition keeps (text : option string) : bool :=
  match text with
  | Some text => kept text
  | None => false
  end.

(** [room_patterns] is bound in the branch that keeps the negative
    description; the branch of the positive description reads it when no
    name has been found. *)
Definition extract_descriptions_from_area_chunk (area_chunk : string)
  : outcome descriptions :=
  let '(negative_obs, area_name, bound) :=
    match neg_text area_chunk with
    | Some text =>
        if kept text then ([text], first_room room_patterns text, true)
        else ([], None, false)
    | None => ([], None, false)
    end in
  match pos_text area_chunk with
  | Some text =>
      if kept text then
        match area_name with
        | Some _ =>
            Returns {| descr_area_name := area_name;
                       descr_negative_observations := negative_obs;
                       descr_positive_observations := [text] |}
        | None =>
            if bound then
              Returns {| descr_area_name := first_room room_patterns text;
                         descr_negative_observations := negative_obs;
                         descr_positive_observations := [text] |}
            else Raises UnboundLocalError
        end
      else Returns {| descr_area_name := area_name;
                      descr_negative_observations := negative_obs;
                      descr_positive_observations := [] |}
  | None => Returns {| descr_area_name := area_name;
                       descr_negative_observations := negative_obs;
                       descr_positive_observations := [] |}
  end.

(** The parser with its describer. *)
Definition parse_inspection (text : string) : outcome (list room_data) :=
  parse_inspection_deterministically extract_descriptions_from_area_chunk text.

End describer.

(** ** extraction.py: merging the observations read from images

    The findings are objects shared by [text_findings] and
    [findings_map]: the map holds, for a key, the position of its finding
    in the list, and an assignment to [observation] through the map is
    seen in the list. *)

Module merging.
Import ddr_generator.

(** [findings_map]: normalised area to finding, in insertion order. *)
Abbreviation findings_map_t := (list (string * nat)).

(** [findings_map[key] = f]: a key already there keeps its place. *)
Fixpoint map_set (findings_map : findings_map_t) (key : string) (i : nat)
  : findings_map_t :=
  match findings_map with
  | [] => [(key, i)]
  | (k, j) :: rest =>
      if String.eqb k key then (k, i) :: rest
      else (k, j) :: map_set rest key i
  end.

Fixpoint map_get (findings_map : findings_map_t) (key : string)
  : option nat :=
  match findings_map with
  | [] => None
  | (k, j) :: rest =>
      if String.eqb k key then Some j else map_get rest key
  end.

(** The loop [for f in text_findings], from the finding at position [i]
    on. *)
Fixpoint index_findings (i : nat) (findings : list InspectionFinding)
    (findings_map : findings_map_t) : findings_map_t :=
  match findings with
  | [] => findings_map
  | f :: rest =>
      index_findings (S i) rest
        (map_set findings_map (area_parser.normalize_area (area f)) i)
  end.

(** [item.get(key, "").strip()]: only a [str] has the method. *)
Definition get_strip (item : pydict) (key : string) : outcome string :=
  match item !! key with
  | None => Returns (py.strip "")
  | Some (PyStr s) => Returns (py.strip s)
  | Some _ => Raises AttributeError
  end.

Definition with_observation (f : InspectionFinding) (o : string)
  : InspectionFinding :=
  {| area := area f; observation := o;
     severity_indicator := severity_indicator f;
     possible_cause := possible_cause f |}.

(** The assignment to [findings_map[area_key].observation]. *)
Definition add_observation (new : string) (f : InspectionFinding)
  : InspectionFinding :=
  let existing_obs := observation f in
  if py.truthy_str existing_obs
     && negb (String.eqb existing_obs "Not Available")
  then with_observation f (existing_obs +:+ "; " +:+ new)
  else with_observation f new.

(** One turn of [for item in image_findings_data], on the findings as
    they are now. *)
Definition enhance (findings_map : findings_map_t)
    (findings : list InspectionFinding) (item : pydict)
  : outcome (list InspectionFinding) :=
  area ← get_strip item "area";
  observation ← get_strip item "observation";
  if negb (py.truthy_str area) || negb (py.truthy_str observation)
  then Returns findings
  else
    match map_get findings_map (area_parser.normalize_area area) with
    | Some i => Returns (alter (add_observation observation) i findings)
    | None => Returns findings
    end.

Fixpoint enhance_all (findings_map : findings_map_t)
    (findings : list InspectionFinding) (items : list pydict)
  : outcome (list InspectionFinding) :=
  match items with
  | [] => Returns findings
  | item :: rest =>
      findings ← enhance findings_map findings item;
      enhance_all findings_map findings rest
  end.

Definition area_count_message (text_count final_count : nat) : string :=
  "CRITICAL: Area count changed during merge! "
  +:+ "Text had " +:+ py.str_of_nat text_count
  +:+ " areas, but final has " +:+ py.str_of_nat final_count +:+ ". "
  +:+ "This should NEVER happen.".

Definition _merge_text_and_image_findings
    (text_findings : list InspectionFinding)
    (image_findings_data : list pydict) : outcome (list InspectionFinding) :=
  match text_findings, image_findings_data with
  | [], _ => Returns []
  | _, [] => Returns text_findings
  | _, _ =>
      let findings_map := index_findings 0 text_findings [] in
      findings ← enhance_all findings_map text_findings image_findings_data;
      (* [list(findings_map.values())] *)
      let final_findings := omap (λ entry, findings !! entry.2) findings_map in
      if (length final_findings =? length text_findings)%nat
      then Returns final_findings
      else Raises (AssertionError
             (area_count_message (length text_findings)
                                 (length final_findings)))
  end.

(** The key of a finding, and image data whose fields are strings. *)
Definition key_of (f : InspectionFinding) : string :=
  area_parser.normalize_area (area f).

Definition item_typed (item : pydict) : Prop :=
  validator_spec.str_or_absent (item !! "area")
  ∧ validator_spec.str_or_absent (item !! "observation").

(** The fields other than the observation. *)
Definition others (f : InspectionFinding) : string * string * string :=
  (area f, severity_indicator f, possible_cause f).

End merging.

(** ** image_batcher.py

    [pdf_to_images] renders the pages with a library; the batching works
    on the list it returns, whatever an image is. *)

Module image_batcher.

(** [range(0, stop, step)] as the list of its items. *)
Definition range_from_zero (stop : nat) (step : Z) : outcome (list nat) :=
  if (step =? 0)%Z then Raises (ValueError "range() arg 3 must not be zero")
  else if (step <? 0)%Z then Returns []
  else
    let s := Z.to_nat step in
    Returns ((λ k, k * s) <$> seq 0 ((stop + s - 1) / s)).

Section batches.
Context {Image : Type}.

Record batch : Type := {
  images : list Image;
  page_range : string;
  start_page : nat;
  end_page : nat;
  image_count : nat
}.

(** The body of the loop, for [i] and a positive batch size. *)
Definition batch_at (images : list Image) (images_per_batch : nat) (i : nat)
  : batch :=
  let batch_images := take images_per_batch (drop i images) in
  {| images := batch_images;
     page_range := py.str_of_nat (i + 1) +:+ "-"
                   +:+ py.str_of_nat (i + length batch_images);
     start_page := i + 1;
     end_page := i + length batch_images;
     image_count := length batch_images |}.

(** [create_image_batches], from the images on. *)
Definition create_image_batches (images : list Image)
    (images_per_batch : Z) : outcome (list batch) :=
  match range_from_zero (length images) images_per_batch with
  | Returns starts =>
      Returns (batch_at images (Z.to_nat images_per_batch) <$> starts)
  | Raises e => Raises e
  end.

End batches.

(** [//] raises on a zero divisor; [Z.div] rounds as [//] does. *)
Definition estimate_batch_count (total_pages images_per_batch : Z)
  : outcome Z :=
  if (images_per_batch =? 0)%Z then Raises ZeroDivisionError
  else Returns ((total_pages + images_per_batch - 1) / images_per_batch)%Z.

End image_batcher.

(** ** rate_limiter.py

    The limiter reads the date and the clock.  The readings are given to
    a call as an argument, and what the call computes from the clock (the
    time to sleep before the next request) is left to [wait_time_of]: it
    is float arithmetic, and the daily quota does not depend on it. *)

Module rate_limiter.

Section limiter.
Context {Time : Type}.

(** [wait_time], from [rpm], [last_call_time] and the clock. *)
Variable wait_time_of : Z → option Time → Time → Time.

Record GeminiRateLimiter : Type := {
  rpm : Z;
  rpd : Z;
  last_call_time : option Time;
  daily_calls : Z;
  last_reset_date : Z;
  call_history : list (Time * Z * Time)
}.

(** What a call reads: [datetime.now().date()] as a day number,
    [time.time()] before and after the sleep, and [datetime.now()]. *)
Record reading : Type := {
  today : Z;
  clock : Time;
  clock_after : Time;
  timestamp : Time
}.

(** The dict that [wait_if_needed] returns. *)
Record status : Type := {
  call_number : Z;
  daily_limit : Z;
  waited_seconds : Time;
  remaining_today : Z
}.

(** [60 / rpm] raises on a zero [rpm]. *)
Definition __init__ (rpm rpd : Z) (today : Z) : outcome GeminiRateLimiter :=
  if (rpm =? 0)%Z then Raises ZeroDivisionError
  else Returns {| rpm := rpm; rpd := rpd; last_call_time := None;
                  daily_calls := 0; last_reset_date := today;
                  call_history := [] |}.

Definition limit_message (rpd daily_calls : Z) : string :=
  "Daily limit of " +:+ py.str_of_Z rpd +:+ " requests exceeded. "
  +:+ "Reset at midnight. Current count: " +:+ py.str_of_Z daily_calls.

(** The limiter after the call, and what the call returns or raises: the
    reset of a new day stays done when the call raises. *)
Definition wait_if_needed (self : GeminiRateLimiter) (r : reading)
  : GeminiRateLimiter * outcome status :=
  let self :=
    if (last_reset_date self <? today r)%Z
    then {| rpm := rpm self; rpd := rpd self;
            last_call_time := last_call_time self;
            daily_calls := 0; last_reset_date := today r;
            call_history := [] |}
    else self in
  if (rpd self <=? daily_calls self)%Z
  then (self, Raises (Exception (limit_message (rpd self) (daily_calls self))))
  else
    let wait_time := wait_time_of (rpm self) (last_call_time self) (clock r) in
    let calls := (daily_calls self + 1)%Z in
    ({| rpm := rpm self; rpd := rpd self;
        last_call_time := Some (clock_after r);
        daily_calls := calls;
        last_reset_date := last_reset_date self;
        call_history := call_history self ++ [(timestamp r, calls, wait_time)] |},
     Returns {| call_number := calls; daily_limit := rpd self;
                waited_seconds := wait_time;
                remaining_today := (rpd self - calls)%Z |}).

(** One call after the other. *)
Fixpoint calls (self : GeminiRateLimiter) (readings : list reading)
  : list (outcome status) :=
  match readings with
  | [] => []
  | r :: rest =>
      let '(self, o) := wait_if_needed self r in
      o :: calls self rest
  end.

(** The calls counted today, once a reading of the date is known. *)
Definition counted (self : GeminiRateLimiter) (day : Z) : Z :=
  if (last_reset_date self <? day)%Z then 0%Z else daily_calls self.

End limiter.

End rate_limiter.

(** * Properties *)

(** ** The matchers find the language of their pattern *)

Section matchers.
Import re re_spec.

Lemma append_nil_l (b : string) : "" +:+ b = b.
Proof. reflexivity. Qed.

Lemma append_cons (c : ascii) (a b : string) :
  String c a +:+ b = String c (a +:+ b).
Proof. reflexivity. Qed.

Ltac simpl_append :=
  rewrite ?append_cons, ?append_nil_l; simpl.

Tactic Notation "simpl_append" "in" hyp(H) :=
  rewrite ?append_cons, ?append_nil_l in H; simpl in H.

Lemma append_length (a b : string) :
  String.length (a +:+ b) = String.length a + String.length b.
Proof. induction a as [|c a IH]; simpl_append; [done|by f_equal]. Qed.

Lemma append_assoc (a b c : string) : (a +:+ b) +:+ c = a +:+ b +:+ c.
Proof. induction a as [|x a IH]; simpl_append; [done|by f_equal]. Qed.

Lemma lower_length (a : string) : String.length (py.lower a) = String.length a.
Proof. induction a as [|c a IH]; simpl; [done|by f_equal]. Qed.

Lemma literal_ignorecase_Some (lit s rest : string) :
  literal_ignorecase lit s = Some rest
  ↔ ∃ a, s = a +:+ rest ∧ py.lower a = py.lower lit.
Proof.
  revert s. induction lit as [|p lit IH]; intros s; simpl.
  - split.
    + intros [= ->]. by exists "".
    + intros (a & -> & Ha). by destruct a.
  - destruct s as [|t s].
    + split; [done|]. intros (a & Hs & Ha). by destruct a.
    + destruct (Ascii.eqb_spec (py.lower_char t) (py.lower_char p)) as [Htp|Htp].
      * rewrite IH. split.
        -- intros (a & -> & Ha). exists (String t a). simpl. by rewrite Htp, Ha.
        -- intros (a & Hs & Ha). destruct a as [|t' a]; [done|].
           simpl_append in Hs. simpl in Ha.
           injection Hs as -> ->. injection Ha as _ Ha.
           by exists a.
      * split; [done|]. intros (a & Hs & Ha). destruct a as [|t' a]; [done|].
        simpl_append in Hs. simpl in Ha.
        injection Hs as -> ->. by injection Ha as Ha _.
Qed.

Lemma span_sound (p : ascii → bool) (s run rest : string) :
  span p s = (run, rest) →
  s = run +:+ rest ∧ all_chars p run = true ∧ stops p rest.
Proof.
  revert run rest. induction s as [|c s IH]; intros run rest; simpl.
  - by intros [= <- <-].
  - destruct (p c) eqn:Hc.
    + destruct (span p s) as [run' rest'].
      destruct (IH _ _ eq_refl) as (-> & Hall & Hstop).
      intros [= <- <-]. simpl. by rewrite Hc, Hall.
    + by intros [= <- <-].
Qed.

Lemma span_complete (p : ascii → bool) (run rest : string) :
  all_chars p run = true → stops p rest →
  span p (run +:+ rest) = (run, rest).
Proof.
  intros Hall Hstop. induction run as [|c run IH]; simpl_append.
  - destruct rest as [|c rest]; [done|]. simpl in *. by rewrite Hstop.
  - simpl in Hall. apply andb_prop in Hall as [-> Hall]. by rewrite IH.
Qed.

Lemma span_spec (p : ascii → bool) (s run rest : string) :
  span p s = (run, rest)
  ↔ s = run +:+ rest ∧ all_chars p run = true ∧ stops p rest.
Proof.
  split; [apply span_sound|]. intros (-> & ? & ?). by apply span_complete.
Qed.

Lemma plus_spec (p : ascii → bool) (s run rest : string) :
  plus p s = Some (run, rest)
  ↔ s = run +:+ rest ∧ class_plus p run ∧ stops p rest.
Proof.
  unfold plus, class_plus.
  destruct (span p s) as [run' rest'] eqn:Hspan.
  split.
  - destruct run'; [done|]. intros [= <- <-].
    apply span_spec in Hspan as (? & ? & ?). done.
  - intros (Hs & [Hne Hall] & Hstop).
    assert (span p s = (run, rest)) as Hr by (by apply span_spec).
    rewrite Hspan in Hr. injection Hr as -> ->. by destruct run.
Qed.

Lemma class_plus_stops (p q : ascii → bool) (s rest : string) :
  (∀ c, p c = true → q c = false) →
  class_plus p s → stops q (s +:+ rest).
Proof.
  intros Hpq [Hne Hall]. destruct s as [|c s]; [done|].
  simpl_append. simpl in Hall. apply andb_prop in Hall as [Hc _]. by apply Hpq.
Qed.

Lemma isdigit_not_isspace (c : ascii) :
  py.isdigit c = true → py.isspace c = false.
Proof.
  by destruct c as [[] [] [] [] [] [] [] []].
Qed.

Lemma colon_not_isdigit : py.isdigit ":" = false.
Proof. done. Qed.

(** The marker matcher returns the match of the pattern at the head of
    the text, and there is no other. *)
Lemma impacted_area_spec (s : string) (n : nat) (group : string) :
  impacted_area s = Some (n, group)
  ↔ ∃ m, impacted_area_match s m group ∧ n = String.length m.
Proof.
  unfold impacted_area, impacted_area_match. split.
  - destruct (literal_ignorecase _ s) as [r1|] eqn:H1; [|done]. simpl.
    destruct (plus py.isspace r1) as [[ws r2]|] eqn:H2; [|done]. simpl.
    destruct (plus py.isdigit r2) as [[ds r3]|] eqn:H3; [|done]. simpl.
    intros [= <- <-].
    apply literal_ignorecase_Some in H1 as (a & -> & Ha).
    apply plus_spec in H2 as (-> & Hws & _).
    apply plus_spec in H3 as (-> & Hds & Hstop).
    exists (a +:+ ws +:+ ds). split.
    + exists a, ws, r3. by rewrite !append_assoc.
    + rewrite !append_length. rewrite <- (lower_length a), Ha. simpl. lia.
  - intros (m & (a & ws & rest & -> & -> & Ha & Hws & Hds & Hstop) & ->).
    rewrite !append_assoc.
    assert (literal_ignorecase "Impacted Area"
              (a +:+ ws +:+ group +:+ rest)
            = Some (ws +:+ group +:+ rest)) as ->
      by (apply literal_ignorecase_Some; by exists a).
    simpl.
    assert (plus py.isspace (ws +:+ group +:+ rest)
            = Some (ws, group +:+ rest)) as ->.
    { apply plus_spec. split_and!; [done..|].
      by apply (class_plus_stops py.isdigit), Hds; apply isdigit_not_isspace. }
    simpl.
    assert (plus py.isdigit (group +:+ rest) = Some (group, rest)) as ->
      by (by apply plus_spec).
    simpl. do 2 f_equal.
    rewrite !append_length. rewrite <- (lower_length a), Ha. simpl. lia.
Qed.

(** The heading matcher succeeds exactly on the texts that begin with a
    string of the heading language, and returns its length; the colon
    leaves one such string at most. *)
Lemma area_heading_spec (s : string) (n : nat) :
  area_heading s = Some (n, tt)
  ↔ ∃ m rest, s = m +:+ rest ∧ area_heading_language m
              ∧ n = String.length m.
Proof.
  unfold area_heading, area_heading_language. split.
  - destruct (literal_ignorecase _ s) as [r1|] eqn:H1; [|done]. simpl.
    destruct (plus py.isspace r1) as [[ws r2]|] eqn:H2; [|done]. simpl.
    destruct (plus py.isdigit r2) as [[ds r3]|] eqn:H3; [|done]. simpl.
    destruct r3 as [|c r3]; [done|].
    destruct (Ascii.eqb_spec c ":") as [->|Hc];
      [|by destruct c as [[] [] [] [] [] [] [] []]].
    intros [= <-].
    apply literal_ignorecase_Some in H1 as (a & -> & Ha).
    apply plus_spec in H2 as (-> & Hws & _).
    apply plus_spec in H3 as (-> & Hds & _).
    exists (a +:+ ws +:+ ds +:+ ":"), r3. split_and!.
    + by rewrite !append_assoc.
    + by exists a, ws, ds.
    + rewrite !append_length. rewrite <- (lower_length a), Ha. simpl. lia.
  - intros (m & rest & -> & (a & ws & ds & -> & Ha & Hws & Hds) & ->).
    rewrite !append_assoc.
    assert (literal_ignorecase "Area" (a +:+ ws +:+ ds +:+ ":" +:+ rest)
            = Some (ws +:+ ds +:+ ":" +:+ rest)) as ->
      by (apply literal_ignorecase_Some; by exists a).
    simpl.
    assert (plus py.isspace (ws +:+ ds +:+ ":" +:+ rest)
            = Some (ws, ds +:+ ":" +:+ rest)) as ->.
    { apply plus_spec. split_and!; [done..|].
      by apply (class_plus_stops py.isdigit), Hds; apply isdigit_not_isspace. }
    simpl.
    assert (plus py.isdigit (ds +:+ ":" +:+ rest)
            = Some (ds, ":" +:+ rest)) as ->
      by (by apply plus_spec).
    simpl. do 2 f_equal.
    rewrite !append_length. rewrite <- (lower_length a), Ha. simpl. lia.
Qed.


(** A matcher that finds no match inside a match is not affected by the
    resumption of [finditer] at the end of each match: it finds every
    position at which a match starts. *)
Lemma scan_occurrences {G} (m : matcher G) (s : string) (k pos : nat) :
  (∀ c z len g, m (String c z) = Some (len, g) → quiet m (len - 1) z) →
  quiet m k s → scan m k pos s = occurrences m pos s.
Proof.
  intros Hm. revert k pos. induction s as [|c s IH]; intros k pos Hq; [done|].
  destruct k as [|k]; simpl.
  - destruct (m (String c s)) as [[len g]|] eqn:Hmatch.
    + f_equal. apply IH. by eapply Hm.
    + apply IH. by destruct s.
  - destruct Hq as [-> Hq]. by apply IH.
Qed.

Lemma quiet_other_than {G} (m : matcher G) (x : ascii) (a rest : string)
    (k : nat) :
  begins_with m x → all_chars (other_than x) a = true →
  quiet m k rest → quiet m (String.length a + k) (a +:+ rest).
Proof.
  intros Hm Ha Hq. induction a as [|c a IH]; simpl_append; [done|].
  simpl in Ha. apply andb_prop in Ha as [Hc Ha].
  split; [|by apply IH]. apply Hm. by apply negb_true_iff.
Qed.

Lemma all_chars_lower (f : ascii → bool) (a : string) :
  all_chars (λ c, f (py.lower_char c)) a = all_chars f (py.lower a).
Proof. induction a as [|c a IH]; simpl; [done|by rewrite IH]. Qed.

Lemma all_chars_impl (p q : ascii → bool) (a : string) :
  (∀ c, p c = true → q c = true) →
  all_chars p a = true → all_chars q a = true.
Proof.
  intros Hpq. induction a as [|c a IH]; simpl; [done|].
  intros [Hc Ha]%andb_prop. by rewrite (Hpq _ Hc), IH.
Qed.

Lemma isspace_other_than (x : ascii) :
  py.isspace x = false → ∀ c, py.isspace c = true → other_than x c = true.
Proof.
  intros Hx c Hc. unfold other_than. apply negb_true_iff, Ascii.eqb_neq.
  intros <-. revert Hx Hc. by destruct c as [[] [] [] [] [] [] [] []].
Qed.

Lemma isdigit_other_than (x : ascii) :
  py.isdigit x = false → ∀ c, py.isdigit c = true → other_than x c = true.
Proof.
  intros Hx c Hc. unfold other_than. apply negb_true_iff, Ascii.eqb_neq.
  intros <-. revert Hx Hc. by destruct c as [[] [] [] [] [] [] [] []].
Qed.

Lemma impacted_area_begins : begins_with impacted_area "i".
Proof.
  intros c z Hc. unfold impacted_area. cbn [literal_ignorecase].
  change (py.lower_char "I") with "i"%char. by rewrite Hc.
Qed.

Lemma area_heading_begins : begins_with area_heading "a".
Proof.
  intros c z Hc. unfold area_heading. cbn [literal_ignorecase].
  change (py.lower_char "A") with "a"%char. by rewrite Hc.
Qed.

Lemma impacted_area_quiet (c : ascii) (z : string) (len : nat) (g : string) :
  impacted_area (String c z) = Some (len, g) → quiet impacted_area (len - 1) z.
Proof.
  intros (m & (a & ws & rest & -> & Hs & Ha & [_ Hws] & [_ Hds] & _) & ->)
    %impacted_area_spec.
  destruct a as [|c' a]; [done|]. simpl_append in Hs. injection Hs as <- ->.
  simpl in Ha. injection Ha as _ Ha.
  rewrite !append_cons. simpl. rewrite Nat.sub_0_r.
  rewrite !append_assoc, !append_length.
  replace (String.length a + (String.length ws + String.length g))
    with (String.length a + (String.length ws + (String.length g + 0))) by lia.
  apply (quiet_other_than _ "i"); [apply impacted_area_begins| |].
  { unfold other_than.
    rewrite (all_chars_lower (λ c, negb (Ascii.eqb c "i"))), Ha. done. }
  apply (quiet_other_than _ "i"); [apply impacted_area_begins| |].
  { eapply all_chars_impl; [|exact Hws]. by apply isspace_other_than. }
  apply (quiet_other_than _ "i"); [apply impacted_area_begins| |].
  { eapply all_chars_impl; [|exact Hds]. by apply isdigit_other_than. }
  by destruct rest.
Qed.

Lemma area_heading_quiet (c : ascii) (z : string) (len : nat) (g : unit) :
  area_heading (String c z) = Some (len, g) → quiet area_heading (len - 1) z.
Proof.
  destruct g.
  intros (m & rest & Hs & (a & ws & ds & -> & Ha & [Hne Hws] & [_ Hds]) & ->)
    %area_heading_spec.
  destruct a as [|t1 [|t2 [|t3 [|t4 [|t5 a]]]]]; try done.
  simpl in Ha. injection Ha as H1 H2 H3 H4.
  simpl_append in Hs. injection Hs as <- ->.
  rewrite !append_cons, !append_nil_l. simpl.
  destruct ws as [|w ws]; [done|]. simpl in Hws.
  apply andb_prop in Hws as [Hw Hws].
  split_and!.
  - apply area_heading_begins. by rewrite H2.
  - apply area_heading_begins. by rewrite H3.
  - unfold area_heading. rewrite !append_assoc, !append_cons.
    cbn [literal_ignorecase]. rewrite H4.
    change (Ascii.eqb (py.lower_char "a") (py.lower_char "A")) with true.
    cbv iota.
    assert (Ascii.eqb (py.lower_char w) (py.lower_char "r") = false) as ->;
      [|done].
    revert Hw. by destruct w as [[] [] [] [] [] [] [] []].
  - rewrite !append_assoc, !append_length.
    replace (String.length (String w ws) + (String.length ds + 1))
      with (String.length (String w ws)
            + (String.length ds + (String.length ":" + 0))) by (simpl; lia).
    apply (quiet_other_than _ "a"); [apply area_heading_begins| |].
    { simpl. rewrite (isspace_other_than "a" eq_refl w) by done.
      eapply all_chars_impl; [|exact Hws]. by apply isspace_other_than. }
    apply (quiet_other_than _ "a"); [apply area_heading_begins| |].
    { eapply all_chars_impl; [|exact Hds]. by apply isdigit_other_than. }
    apply (quiet_other_than _ "a" ":" rest 0);
      [apply area_heading_begins|done|].
    by destruct rest.
Qed.

(** [finditer] finds a marker, and a heading, wherever one starts. *)
Lemma finditer_impacted_area (text : string) :
  finditer impacted_area text = occurrences impacted_area 0 text.
Proof.
  apply scan_occurrences; [apply impacted_area_quiet|by destruct text].
Qed.

Lemma finditer_area_heading (text : string) :
  finditer area_heading text = occurrences area_heading 0 text.
Proof.
  apply scan_occurrences; [apply area_heading_quiet|by destruct text].
Qed.

End matchers.

(** ** First occurrences *)

Section firsts.
Context {A : Type} (key : A → string).

Lemma firsts_snoc (l : list A) (x : A) :
  firsts key (l ++ [x]) = keep_first key (firsts key l) x.
Proof. unfold firsts. by rewrite fold_left_app. Qed.

Lemma firsts_keys (l : list A) (k : string) :
  k ∈ key <$> firsts key l ↔ k ∈ key <$> l.
Proof.
  induction l as [|x l IH] using rev_ind; [done|].
  rewrite firsts_snoc, fmap_app, elem_of_app. unfold keep_first.
  case_bool_decide as Hin.
  - rewrite IH. simpl. rewrite list_elem_of_singleton.
    split; [tauto|]. intros [?| ->]; [done|]. by apply IH.
  - rewrite fmap_app, elem_of_app, IH. done.
Qed.

Lemma firsts_NoDup (l : list A) : NoDup (key <$> firsts key l).
Proof.
  induction l as [|x l IH] using rev_ind; [constructor|].
  rewrite firsts_snoc. unfold keep_first. case_bool_decide as Hin; [done|].
  rewrite fmap_app. apply NoDup_app. split_and!; [done| |apply NoDup_singleton].
  intros k Hk. simpl. rewrite list_elem_of_singleton. by intros ->.
Qed.

Lemma firsts_sublist (l : list A) : firsts key l `sublist_of` l.
Proof.
  induction l as [|x l IH] using rev_ind; [done|].
  rewrite firsts_snoc. unfold keep_first. case_bool_decide.
  - by apply sublist_inserts_r.
  - by apply sublist_app.
Qed.

Lemma firsts_length (l : list A) :
  length (firsts key l) = size (list_to_set (key <$> l) : gset string).
Proof.
  rewrite <- (length_fmap key).
  rewrite <- (size_list_to_set (C := gset string)) by apply firsts_NoDup.
  f_equal. apply set_eq. intros k.
  rewrite !elem_of_list_to_set. apply firsts_keys.
Qed.

(** The element kept for a key is the first of the list with that key. *)
Lemma firsts_with_key (l : list A) (k : string) :
  with_key key k (firsts key l) = take 1 (with_key key k l).
Proof.
  unfold with_key.
  induction l as [|x l IH] using rev_ind; [done|].
  rewrite firsts_snoc, filter_app. unfold keep_first.
  case_bool_decide as Hin.
  - rewrite IH. rewrite filter_cons, filter_nil. case_decide as Hk.
    + subst k. apply (proj1 (firsts_keys _ _)) in Hin.
      apply list_elem_of_fmap in Hin as (y & Hy & Hin).
      assert (y ∈ filter (λ x0 : A, key x0 = key x) l) as Hf
        by (apply list_elem_of_filter; split; [congruence|done]).
      destruct (filter (λ x0 : A, key x0 = key x) l); [by apply elem_of_nil in Hf|done].
    + by rewrite app_nil_r.
  - rewrite filter_app, IH. rewrite filter_cons, filter_nil. case_decide as Hk.
    + subst k.
      assert (filter (λ x0 : A, key x0 = key x) l = []) as ->; [|done].
      destruct (filter (λ x0 : A, key x0 = key x) l) as [|y f] eqn:Hf; [done|].
      exfalso. apply Hin. apply firsts_keys.
      assert (y ∈ filter (λ x0 : A, key x0 = key x) l) as Hy by (rewrite Hf; left).
      apply list_elem_of_filter in Hy as [Hy1 Hy2].
      rewrite <- Hy1. apply list_elem_of_fmap_2. exact Hy2.
    + by rewrite !app_nil_r.
Qed.
End firsts.

Lemma firsts_fmap {A B} (key : B → string) (g : A → B) (l : list A) :
  firsts key (g <$> l) = g <$> firsts (key ∘ g) l.
Proof.
  induction l as [|x l IH] using rev_ind; [done|].
  rewrite fmap_app. simpl. rewrite !firsts_snoc, IH. unfold keep_first.
  rewrite <- list_fmap_compose. unfold compose.
  destruct (bool_decide _); [done|]. by rewrite fmap_app.
Qed.

(** ** Thermal de-duplication in the generator *)

Section thermal.
Import ddr_generator.

Lemma has_key_spec (unique_thermal : unique_thermal_t) (k : string) :
  has_key unique_thermal k = bool_decide (k ∈ fst <$> unique_thermal).
Proof.
  unfold has_key. induction unique_thermal as [|[k' v] u IH]; [done|].
  simpl. rewrite IH. destruct (String.eqb_spec k' k) as [->|Hne].
  - symmetry. apply bool_decide_eq_true. left.
  - simpl. apply bool_decide_ext. rewrite elem_of_cons.
    split; [tauto|]. intros [?|?]; [congruence|done].
Qed.

Lemma collect_thermal_fold (unique_thermal : unique_thermal_t)
    (l : list ThermalFinding) :
  collect_thermal unique_thermal l
  = fold_left (keep_first fst) ((λ t, (image_id t, t)) <$> l) unique_thermal.
Proof.
  revert unique_thermal. induction l as [|t l IH]; intros u; [done|].
  simpl. rewrite has_key_spec. unfold keep_first at 2. simpl.
  case_bool_decide; apply IH.
Qed.

Lemma deduplicate_firsts (l : list ThermalFinding) :
  deduplicate l = firsts image_id l.
Proof.
  unfold deduplicate. rewrite collect_thermal_fold.
  change (fold_left (keep_first fst) ?l []) with (firsts fst l).
  rewrite firsts_fmap, <- list_fmap_compose. apply list_fmap_id.
Qed.

Lemma deduplicate_count (l : list ThermalFinding) :
  length (deduplicate l) = unique_image_ids (deduplicate l).
Proof.
  unfold unique_image_ids.
  rewrite size_list_to_set, length_fmap; [done|].
  rewrite deduplicate_firsts. apply firsts_NoDup.
Qed.

Lemma deduplicate_and_assert_returns (l : list ThermalFinding) :
  deduplicate_and_assert l = Returns (deduplicate l).
Proof.
  unfold deduplicate_and_assert.
  rewrite <- deduplicate_count, Nat.eqb_refl. done.
Qed.

(** C9.  Thermal findings that share an [image_id] collapse to the first
    of them: for every identifier the de-duplicated list holds exactly the
    first finding of the input that carries it, in the order of the input;
    its length is the number of distinct identifiers of the input; and the
    [assert] that compares this length with the number of distinct
    identifiers never fails. *)
Theorem thermal_deduplication_first_wins (thermal_findings : list ThermalFinding) :
  let deduped := deduplicate thermal_findings in
  (∀ k, with_key image_id k deduped
        = take 1 (with_key image_id k thermal_findings))
  ∧ deduped `sublist_of` thermal_findings
  ∧ length deduped
    = size (list_to_set (image_id <$> thermal_findings) : gset string)
  ∧ length deduped = unique_image_ids deduped
  ∧ deduplicate_and_assert thermal_findings = Returns deduped.
Proof.
  intros deduped. subst deduped. split_and!.
  - intros k. rewrite deduplicate_firsts. apply firsts_with_key.
  - rewrite deduplicate_firsts. apply firsts_sublist.
  - rewrite deduplicate_firsts. apply firsts_length.
  - apply deduplicate_count.
  - apply deduplicate_and_assert_returns.
Qed.

(** Two readings of the image A.JPG come down to the first one, and the
    assertion holds. *)
Example same_image_twice :
  let reading note :=
    {| image_id := "A.JPG"; temperature_reading := "Hot: 28.8, Cold: 23.4";
       thermal_interpretation := note |} in
  deduplicate_and_assert [reading "first"; reading "second"]
  = Returns [reading "first"].
Proof. by vm_compute. Qed.

End thermal.

(** ** The entity lock on generated text *)

Section entity_lock.
Import ddr_generator.

Lemma _validate_entity_count_spec (ddr_text : string) (K : Z) :
  _validate_entity_count ddr_text K
  = if bool_decide (Z.of_nat (length (re.finditer re.area_heading ddr_text)) = K)
    then Returns tt
    else Raises (ValueError (entity_lock_message K
                   (length (re.finditer re.area_heading ddr_text)))).
Proof.
  unfold _validate_entity_count.
  destruct (Z.eqb_spec (Z.of_nat (length (re.finditer re.area_heading ddr_text))) K);
    by case_bool_decide.
Qed.

(** C1.  Verification of a generated text against the expected count [K]
    passes exactly when the number of [Area <integer>:] headings found in
    the text, which is the number of positions at which one starts, is
    [K].  Otherwise it raises the entity-lock violation, whose message
    spells out both [K] and the number found.  [generate_ddr] hands back
    the text of the model, unchanged, exactly when the model answered and
    the count of its text is the number of areas; on a different count it
    raises the violation instead. *)
Theorem entity_lock_verification (ddr_text : string) (K : Z) :
  let actual := length (re.finditer re.area_heading ddr_text) in
  actual = length (re_spec.occurrences re.area_heading 0 ddr_text)
  ∧ (_validate_entity_count ddr_text K = Returns tt ↔ Z.of_nat actual = K)
  ∧ (Z.of_nat actual ≠ K →
     _validate_entity_count ddr_text K
     = Raises (ValueError (entity_lock_message K actual)))
  ∧ (∃ pre post,
       entity_lock_message K actual
       = pre +:+ "Expected " +:+ py.str_of_Z K +:+ " areas, found "
         +:+ py.str_of_nat actual +:+ " in output." +:+ post)
  ∧ (∀ prepare format model inspection_findings thermal_findings,
       let prompt :=
         format (length inspection_findings)
           (length (deduplicate thermal_findings))
           (prepare inspection_findings (deduplicate thermal_findings)) in
       let expected := Z.of_nat (length inspection_findings) in
       (model prompt = Returns ddr_text →
        generate_ddr prepare format model inspection_findings thermal_findings
        = if bool_decide (Z.of_nat actual = expected) then Returns ddr_text
          else Raises (ValueError (entity_lock_message expected actual)))
       ∧ (∀ out,
            generate_ddr prepare format model inspection_findings thermal_findings
            = Returns out →
            model prompt = Returns out
            ∧ Z.of_nat (length (re.finditer re.area_heading out)) = expected)).
Proof.
  intros actual. subst actual. split_and!.
  - by rewrite finditer_area_heading.
  - rewrite _validate_entity_count_spec. case_bool_decide; naive_solver.
  - intros Hne. rewrite _validate_entity_count_spec. by case_bool_decide.
  - exists "⚠️ ENTITY LOCK VIOLATION: ",
      " Model added extra areas (hallucination detected).".
    unfold entity_lock_message. simpl. repeat f_equal.
  - intros prepare format model insp therm prompt expected.
    assert (∀ text, model prompt = Returns text →
            generate_ddr prepare format model insp therm
            = (_validate_entity_count text expected;; Returns text)) as Hgen.
    { intros text Hm. unfold generate_ddr.
      rewrite deduplicate_and_assert_returns. simpl.
      fold prompt. rewrite Hm. done. }
    split.
    + intros Hm. rewrite (Hgen _ Hm), _validate_entity_count_spec.
      by case_bool_decide.
    + intros out Hout. unfold generate_ddr in Hout.
      rewrite deduplicate_and_assert_returns in Hout. simpl in Hout.
      fold prompt in Hout. destruct (model prompt) as [text|e] eqn:Hm; [|done].
      simpl in Hout. fold expected in Hout.
      rewrite _validate_entity_count_spec in Hout.
      case_bool_decide; [|done]. simpl in Hout.
      injection Hout as <-. done.
Qed.

Lemma entity_lock_verification_witness :
  Z.of_nat (length (re.finditer re.area_heading "**Area 1: Hall** **Area 2: Kitchen**")) ≠ 3%Z
  ∧ ddr_generator._validate_entity_count "**Area 1: Hall** **Area 2: Kitchen**" 3
    = Raises (ValueError (entity_lock_message 3 2)).
Proof.
  split; [by vm_compute|].
  apply (proj1 (proj2 (proj2 (entity_lock_verification
    "**Area 1: Hall** **Area 2: Kitchen**" 3)))).
  by vm_compute.
Defined.
(** Two headings against an expected count of three. *)
Example two_headings_of_three :
  _validate_entity_count "## 2. Findings **Area 1: Hall** **Area 2: Kitchen**" 3
  = Raises (ValueError
      ("⚠️ ENTITY LOCK VIOLATION: Expected 3 areas, found 2 in output. "
       +:+ "Model added extra areas (hallucination detected).")).
Proof. by vm_compute. Qed.

End entity_lock.

(** ** The reducer merges by normalised label *)

Section reducer.
Import area_parser merge_spec.

Lemma with_key_snoc {A} (key : A → string) (k : string) (l : list A) (x : A) :
  with_key key k (l ++ [x])
  = with_key key k l ++ (if decide (key x = k) then [x] else []).
Proof.
  unfold with_key. rewrite filter_app, filter_cons, filter_nil. done.
Qed.

Lemma with_key_nil {A} (key : A → string) (k : string) (l : list A) :
  k ∉ key <$> l → with_key key k l = [].
Proof.
  intros Hk. unfold with_key.
  destruct (filter (λ x, key x = k) l) as [|y f] eqn:Hf; [done|].
  exfalso. apply Hk.
  assert (y ∈ filter (λ x, key x = k) l) as Hy by (rewrite Hf; left).
  apply list_elem_of_filter in Hy as [<- Hy]. by apply list_elem_of_fmap_2.
Qed.

Lemma merged_room_snoc_same l x y :
  label y = label x →
  merged_room (l ++ [x]) y = extend_room x.2 (merged_room l y).
Proof.
  intros Hxy. unfold merged_room, extend_room. simpl.
  rewrite with_key_snoc, decide_True by done.
  rewrite !fmap_app, !concat_app. simpl. by rewrite !app_nil_r.
Qed.

Lemma merged_room_snoc_other l x y :
  label y ≠ label x → merged_room (l ++ [x]) y = merged_room l y.
Proof.
  intros Hxy. unfold merged_room.
  rewrite with_key_snoc, decide_False by done. by rewrite app_nil_r.
Qed.

Lemma reduce_area_inv l st x :
  reducer_inv l st → reducer_inv (l ++ [x]) (reduce_area st x.1 x.2).
Proof.
  intros [Hparsed Hseen]. unfold reduce_area.
  set (nu := match descr_area_name x.2 with
             | Some room => if py.truthy_str room
                            then (room, unnamed_count st)
                            else (area_name x.1, S (unnamed_count st))
             | None => (area_name x.1, S (unnamed_count st))
             end).
  assert (nu.1 = chosen_name x) as Hname.
  { unfold nu, chosen_name. destruct (descr_area_name x.2) as [room|]; [|done].
    by destruct (py.truthy_str room). }
  destruct nu as [name unnamed]. simpl in Hname. subst name.
  fold (label x).
  pose proof (firsts_NoDup label l) as Hnd.
  destruct (seen_rooms st !! label x) as [i|] eqn:Hlook.
  - (* the label has been met: the shared dict is extended in place *)
    apply Hseen in Hlook.
    assert (label x ∈ label <$> firsts label l) as Hin
      by (eapply list_elem_of_lookup_2; done).
    split; simpl.
    + unfold merged. rewrite firsts_snoc. unfold keep_first.
      rewrite bool_decide_eq_true_2 by done.
      rewrite Hparsed. unfold merged.
      apply list_eq. intros j.
      rewrite list_lookup_alter, !list_lookup_fmap.
      destruct (firsts label l !! j) as [y|] eqn:Hy; simpl.
      * case_decide as Hij.
        -- subst j. rewrite Hy. simpl. f_equal.
           rewrite list_lookup_fmap, Hy in Hlook. simpl in Hlook.
           symmetry. apply merged_room_snoc_same. congruence.
        -- f_equal. symmetry. apply merged_room_snoc_other.
           intros Heq. apply Hij.
           eapply NoDup_lookup; [exact Hnd|exact Hlook|].
           rewrite list_lookup_fmap, Hy. simpl. congruence.
      * case_decide; [subst j; by rewrite Hy|done].
    + rewrite firsts_snoc. unfold keep_first.
      rewrite bool_decide_eq_true_2 by done. done.
  - (* a new label: a new dict, entered in both containers *)
    assert (label x ∉ label <$> firsts label l) as Hnin.
    { intros Hin. apply list_elem_of_lookup_1 in Hin as [i Hi].
      apply Hseen in Hi. congruence. }
    split; simpl.
    + unfold merged. rewrite firsts_snoc. unfold keep_first.
      rewrite bool_decide_eq_false_2 by done.
      rewrite fmap_app, Hparsed. unfold merged. f_equal.
      * apply list_fmap_ext. intros j y Hy.
        symmetry. apply merged_room_snoc_other. intros Heq. apply Hnin.
        rewrite <- Heq. apply list_elem_of_fmap_2.
        eapply list_elem_of_lookup_2; done.
      * simpl. f_equal. unfold merged_room.
        rewrite with_key_snoc, decide_True by done.
        rewrite with_key_nil by (by rewrite <- firsts_keys).
        simpl. by rewrite !app_nil_r.
    + intros k i. rewrite firsts_snoc. unfold keep_first.
      rewrite bool_decide_eq_false_2 by done.
      rewrite fmap_app. simpl.
      assert (length (parsed_areas st) = length (label <$> firsts label l)) as Hlen
        by (rewrite Hparsed; unfold merged; by rewrite !length_fmap).
      rewrite Hlen.
      destruct (decide (k = label x)) as [->|Hk].
      * rewrite lookup_insert_eq. split.
        -- intros [= <-]. by rewrite list_lookup_middle.
        -- intros Hi. f_equal.
           apply lookup_app_Some in Hi as [Hi|[Hge Hi]].
           ++ exfalso. apply Hnin. eapply list_elem_of_lookup_2; done.
           ++ apply list_lookup_singleton_Some in Hi as [Hi _]. lia.
      * rewrite lookup_insert_ne by done. rewrite Hseen. split.
        -- intros Hi. by apply lookup_app_l_Some.
        -- intros Hi. apply lookup_app_Some in Hi as [Hi|[Hge Hi]]; [done|].
           apply list_lookup_singleton_Some in Hi as [_ Hi]. congruence.
Qed.

Lemma reduce_areas_snoc l x :
  reduce_areas (l ++ [x]) = reduce_area (reduce_areas l) x.1 x.2.
Proof. unfold reduce_areas. rewrite fold_left_app. by destruct x. Qed.

Lemma reduce_areas_inv l : reducer_inv l (reduce_areas l).
Proof.
  induction l as [|x l IH] using rev_ind.
  - split; [done|]. intros k i. simpl. rewrite lookup_empty. done.
  - rewrite reduce_areas_snoc. by apply reduce_area_inv.
Qed.

(** The loop computes the merge of the specification. *)
Lemma reduce_areas_merged l : parsed_areas (reduce_areas l) = merged l.
Proof. apply reduce_areas_inv. Qed.


Lemma merged_room_label l y :
  normalize_area (room_name (merged_room l y)) = label y.
Proof. done. Qed.

Lemma firsts_head {A} (key : A → string) (l : list A) (y : A) :
  y ∈ firsts key l → head (with_key key (key y) l) = Some y.
Proof.
  intros Hy.
  assert (y ∈ with_key key (key y) (firsts key l)) as Hin
    by (by apply list_elem_of_filter).
  rewrite firsts_with_key in Hin.
  destruct (with_key key (key y) l) as [|z f]; simpl in Hin.
  - by apply elem_of_nil in Hin.
  - apply list_elem_of_singleton in Hin. by subst.
Qed.

(** The label is the name without its surrounding white space, in lower
    case; the empty name is its own label. *)
Lemma label_lower_strip (x : area_section * descriptions) :
  label x = py.lower (py.strip (chosen_name x)).
Proof.
  unfold label, normalize_area. by destruct (chosen_name x).
Qed.

(** C2.  The areas built from a list of described sections are merged by
    normalised label, the label of a section being its name stripped of
    the white space around it and put in lower case: there are as many
    areas as distinct labels, no two areas share a label, every section's
    label has its area, and each area carries the name of the first
    section of its label and, as negative and positive observations, the
    concatenation of those of all sections of that label in the order
    they were met. *)
Theorem areas_merged_by_normalized_label
    (described : list (area_section * descriptions)) :
  let result := parsed_areas (reduce_areas described) in
  (∀ x, label x = py.lower (py.strip (chosen_name x)))
  ∧ (∀ name, normalize_area name = py.lower (py.strip name))
  ∧ length result = size (list_to_set (label <$> described) : gset string)
  ∧ NoDup ((λ r, py.lower (py.strip (room_name r))) <$> result)
  ∧ (∀ x, x ∈ described →
       ∃ r, r ∈ result
            ∧ py.lower (py.strip (room_name r))
              = py.lower (py.strip (chosen_name x)))
  ∧ (∀ r, r ∈ result →
       let same :=
         filter (λ x, py.lower (py.strip (chosen_name x))
                      = py.lower (py.strip (room_name r))) described in
       (∃ x, head same = Some x ∧ room_name r = chosen_name x)
       ∧ negative_observations r
         = concat ((λ y, descr_negative_observations y.2) <$> same)
       ∧ positive_observations r
         = concat ((λ y, descr_positive_observations y.2) <$> same)).
Proof.
  intros result. subst result. rewrite reduce_areas_merged. unfold merged.
  assert (∀ name, normalize_area name = py.lower (py.strip name)) as Hnorm
    by (intros name; unfold normalize_area; by destruct name).
  split_and!.
  - apply label_lower_strip.
  - exact Hnorm.
  - rewrite length_fmap. apply firsts_length.
  - rewrite (list_fmap_ext _ (λ r, normalize_area (room_name r))
               _ (λ _ r _, eq_sym (Hnorm (room_name r)))).
    rewrite <- list_fmap_compose.
    apply (firsts_NoDup label).
  - intros x Hx.
    assert (label x ∈ label <$> firsts label described) as Hin
      by (apply firsts_keys; by apply list_elem_of_fmap_2).
    apply list_elem_of_fmap in Hin as (y & Hxy & Hy).
    exists (merged_room described y). split.
    + by apply list_elem_of_fmap_2.
    + by rewrite <- !Hnorm, merged_room_label.
  - intros r Hr. apply list_elem_of_fmap in Hr as (y & -> & Hy).
    rewrite <- (Hnorm (room_name _)), merged_room_label.
    assert (filter (λ x, py.lower (py.strip (chosen_name x)) = label y)
              described = with_key label (label y) described) as ->.
    { unfold with_key. apply list_filter_iff. intros x.
      by rewrite <- label_lower_strip. }
    split_and!; [|done..].
    exists y. split; [|done]. by apply firsts_head.
Qed.

(** "Hall", "Kitchen" and " HALL " give two areas; the one named "Hall"
    holds the observations of both halls. *)
Lemma areas_merged_by_normalized_label_witness :
  let section n := {| area_number := n; area_name := "Impacted Area " +:+ n;
                      text_chunk := "" |} in
  let hall := (section "1", {| descr_area_name := Some "Hall";
                               descr_negative_observations := ["Hall Skirting level Dampness"];
                               descr_positive_observations := [] |}) in
  let kitchen := (section "2", {| descr_area_name := Some "Kitchen";
                                  descr_negative_observations := ["Kitchen tile hollowness"];
                                  descr_positive_observations := [] |}) in
  let hall' := (section "3", {| descr_area_name := Some " HALL ";
                                descr_negative_observations := ["Hall ceiling seepage"];
                                descr_positive_observations := [] |}) in
  let result := parsed_areas (reduce_areas [hall; kitchen; hall']) in
  length result = 2
  ∧ ∃ r, r ∈ result
         ∧ room_name r = "Hall"
         ∧ negative_observations r
           = ["Hall Skirting level Dampness"; "Hall ceiling seepage"].
Proof.
  intros section hall kitchen hall' result.
  destruct (areas_merged_by_normalized_label [hall; kitchen; hall'])
    as (_ & _ & Hlen & _ & Hcover & Hareas).
  fold result in Hlen, Hcover, Hareas. split.
  - rewrite Hlen. by vm_compute.
  - destruct (Hcover hall') as (r & Hr & Hlabel).
    { apply list_elem_of_In. simpl. tauto. }
    exists r. split; [done|].
    destruct (Hareas r Hr) as ((x & Hx & Hname) & Hneg & _).
    rewrite Hlabel in Hx, Hneg. vm_compute in Hx. injection Hx as <-.
    split; [exact Hname|]. rewrite Hneg. by vm_compute.
Defined.

(** The three sections "Hall", "Kitchen", "HALL" give two areas, the first
    holding the observations of both halls. *)
Example hall_kitchen_hall :
  let section n := {| area_number := n; area_name := "Impacted Area " +:+ n;
                      text_chunk := "" |} in
  let described name obs :=
    {| descr_area_name := Some name; descr_negative_observations := [obs];
       descr_positive_observations := [] |} in
  parsed_areas (reduce_areas
    [(section "1", described "Hall" "Hall Skirting level Dampness");
     (section "2", described "Kitchen" "Kitchen tile hollowness");
     (section "3", described "HALL" "Hall ceiling seepage")])
  = [{| room_name := "Hall";
        negative_observations :=
          ["Hall Skirting level Dampness"; "Hall ceiling seepage"];
        positive_observations := [] |};
     {| room_name := "Kitchen";
        negative_observations := ["Kitchen tile hollowness"];
        positive_observations := [] |}].
Proof. by vm_compute. Qed.

Lemma parse_inspection_deterministically_reduces
    (describe : string → outcome descriptions) (text : string)
    (areas : list area_section)
    (described : list (area_section * descriptions)) :
  extract_impacted_areas_from_text text 20 = Returns areas →
  describe_areas describe areas = Returns described →
  parse_inspection_deterministically describe text
  = Returns (parsed_areas (reduce_areas described)).
Proof.
  intros Ha Hd. unfold parse_inspection_deterministically.
  rewrite Ha. simpl. by rewrite Hd.
Qed.

End reducer.

(** ** Decimal numerals *)

Lemma int_of_digits_acc (d : Decimal.uint) (acc : positive) :
  py.int_of_digits (Z.pos acc) (NilEmpty.string_of_uint d)
  = Z.pos (Pos.of_uint_acc d acc).
Proof.
  revert acc. induction d; intros acc; simpl;
    [done | rewrite <- IHd; f_equal; unfold py.digit_value; simpl; lia ..].
Qed.

Lemma int_of_digits_uint (d : Decimal.uint) :
  py.int_of_digits 0 (NilEmpty.string_of_uint d) = Z.of_N (Pos.of_uint d).
Proof.
  induction d; simpl; [done | exact IHd | apply int_of_digits_acc ..].
Qed.

Lemma int_str_of_Z (z : Z) : (0 ≤ z)%Z → py.int_value (py.str_of_Z z) = z.
Proof.
  intros Hz. unfold py.int_value, py.str_of_Z.
  destruct z as [|p|p]; [done| |lia]. simpl.
  pose proof (DecimalPos.Unsigned.of_to p) as Hp.
  destruct (Pos.to_uint p) eqn:Hd; [done| ..];
    unfold NilZero.string_of_uint; rewrite int_of_digits_uint, Hp; done.
Qed.

Lemma int_str_of_nat (n : nat) : py.int_value (py.str_of_nat n) = Z.of_nat n.
Proof. apply int_str_of_Z. lia. Qed.

(** ** The segmenter *)

Section segmenter.
Import area_parser segment_spec.

Lemma get_None (unique_areas : unique_areas_t) (k : string) :
  get unique_areas k = None ↔ k ∉ fst <$> unique_areas.
Proof.
  induction unique_areas as [|[k' pos] u IH]; simpl.
  - split; [intros _; apply not_elem_of_nil|done].
  - destruct (String.eqb_spec k' k) as [->|Hne].
    + split; [done|]. intros Hk. exfalso. apply Hk. left.
    + rewrite IH, not_elem_of_cons. simpl. split; [by intros ?|by intros [_ ?]].
Qed.

Lemma get_swap (l : list (nat * string)) (k : string) :
  get (swap <$> l) k = fst <$> head (with_key snd k l).
Proof.
  unfold with_key. induction l as [|[pos k'] l IH]; [done|].
  simpl. rewrite filter_cons. simpl.
  destruct (String.eqb_spec k' k) as [->|Hne].
  - by rewrite decide_True.
  - by rewrite decide_False.
Qed.

Lemma collect_unique_fold (unique_areas : unique_areas_t)
    (matches : list (nat * string)) :
  collect_unique unique_areas matches
  = fold_left (keep_first fst) (swap <$> matches) unique_areas.
Proof.
  revert unique_areas. induction matches as [|[pos num] l IH]; intros u; [done|].
  simpl. unfold keep_first at 2. simpl.
  destruct (get u num) as [p|] eqn:Hget.
  - rewrite bool_decide_eq_true_2; [apply IH|].
    destruct (decide (num ∈ fst <$> u)) as [|Hn]; [done|].
    apply get_None in Hn. congruence.
  - rewrite bool_decide_eq_false_2; [apply IH|]. by apply get_None.
Qed.

Lemma firsts_ext {A} (key key' : A → string) (l : list A) :
  (∀ x, key x = key' x) → firsts key l = firsts key' l.
Proof.
  intros Hk. induction l as [|x l IH] using rev_ind; [done|].
  rewrite !firsts_snoc, IH. unfold keep_first.
  rewrite Hk, (list_fmap_ext key key' (firsts key' l)) by done. done.
Qed.

Lemma collect_unique_firsts (matches : list (nat * string)) :
  collect_unique [] matches = swap <$> firsts snd matches.
Proof.
  rewrite collect_unique_fold.
  change (fold_left (keep_first fst) ?l []) with (firsts fst l).
  by rewrite firsts_fmap.
Qed.

Lemma unique_keys (matches : list (nat * string)) :
  fst <$> collect_unique [] matches = numerals matches.
Proof.
  rewrite collect_unique_firsts, <- list_fmap_compose. done.
Qed.

Lemma unique_position (matches : list (nat * string)) (num : string) :
  get (collect_unique [] matches) num = first_position matches num.
Proof.
  rewrite collect_unique_firsts, get_swap. unfold first_position.
  rewrite firsts_with_key. by destruct (with_key snd num matches).
Qed.

Lemma first_position_Some (matches : list (nat * string)) (num : string) :
  num ∈ snd <$> matches → is_Some (first_position matches num).
Proof.
  intros Hin. unfold first_position.
  apply list_elem_of_fmap in Hin as (m & -> & Hm).
  assert (m ∈ with_key snd m.2 matches) as Hw by (by apply list_elem_of_filter).
  destruct (with_key snd m.2 matches); [by apply elem_of_nil in Hw|by eexists].
Qed.

Lemma numerals_elem (matches : list (nat * string)) (num : string) :
  num ∈ numerals matches ↔ num ∈ snd <$> matches.
Proof. apply firsts_keys. Qed.

Lemma numerals_NoDup (matches : list (nat * string)) : NoDup (numerals matches).
Proof. apply firsts_NoDup. Qed.

Lemma numerals_length (matches : list (nat * string)) :
  length (numerals matches)
  = size (list_to_set (snd <$> matches) : gset string).
Proof. unfold numerals. rewrite length_fmap. apply firsts_length. Qed.

(** The sort is a permutation, ordered by the value of the numerals. *)
Lemma insert_by_value_Permutation (x : string) (l : list string) :
  insert_by_value x l ≡ₚ x :: l.
Proof.
  induction l as [|y l IH]; simpl; [done|].
  destruct (py.int_value x <=? py.int_value y)%Z; [done|].
  rewrite IH. apply Permutation_swap.
Qed.

Lemma sort_by_value_Permutation (l : list string) : sort_by_value l ≡ₚ l.
Proof.
  induction l as [|x l IH]; simpl; [done|].
  by rewrite insert_by_value_Permutation, IH.
Qed.

Lemma insert_by_value_Sorted (x : string) (l : list string) :
  Sorted int_le l → Sorted int_le (insert_by_value x l).
Proof.
  induction 1 as [|y l Hl IH Hhd]; simpl.
  - by repeat constructor.
  - destruct (Z.leb_spec (py.int_value x) (py.int_value y)) as [Hle|Hgt].
    + constructor; [by constructor|]. by constructor.
    + constructor; [done|].
      destruct Hhd as [|z l' Hyz]; simpl.
      * constructor. unfold int_le. lia.
      * destruct (Z.leb_spec (py.int_value x) (py.int_value z)); constructor;
          unfold int_le in *; lia.
Qed.

Lemma sort_by_value_Sorted (l : list string) : Sorted int_le (sort_by_value l).
Proof.
  induction l as [|x l IH]; simpl; [constructor|].
  by apply insert_by_value_Sorted.
Qed.

Lemma sort_by_value_length (l : list string) : length (sort_by_value l) = length l.
Proof. by rewrite sort_by_value_Permutation. Qed.

(** The sort is stable: numerals of one value keep the order they had. *)
Lemma insert_by_value_stable (v : Z) (x : string) (l : list string) :
  filter (λ y, py.int_value y = v) (insert_by_value x l)
  = filter (λ y, py.int_value y = v) (x :: l).
Proof.
  induction l as [|y l IH]; simpl; [done|].
  destruct (Z.leb_spec (py.int_value x) (py.int_value y)) as [Hle|Hgt]; [done|].
  rewrite (filter_cons _ y (insert_by_value x l)), IH, !filter_cons.
  repeat case_decide; try done; lia.
Qed.

Lemma sort_by_value_stable (v : Z) (l : list string) :
  filter (λ y, py.int_value y = v) (sort_by_value l) = filter (λ y, py.int_value y = v) l.
Proof.
  induction l as [|x l IH]; simpl; [done|].
  by rewrite insert_by_value_stable, !filter_cons, IH.
Qed.

(** The sort of the code takes the keys first: it raises when a numeral
    is beyond the bound on digits, and otherwise sorts by value. *)
Lemma int_short (s : string) : short s → py.int s = Returns (py.int_value s).
Proof.
  unfold short, py.int. intros Hs.
  destruct (Z.ltb_spec py.max_str_digits (Z.of_nat (String.length s)));
    [lia|done].
Qed.

Lemma int_long (s : string) :
  ¬ short s →
  py.int s = Raises (ValueError (py.int_limit_message (String.length s))).
Proof.
  unfold short, py.int. intros Hs.
  destruct (Z.ltb_spec py.max_str_digits (Z.of_nat (String.length s)));
    [done|lia].
Qed.

Lemma int_keys_short (l : list string) :
  Forall short l →
  int_keys l = Returns ((λ x, (py.int_value x, x)) <$> l).
Proof.
  induction 1 as [|x l Hx Hl IH]; [done|].
  cbn [int_keys]. rewrite (int_short _ Hx), IH. done.
Qed.

Lemma int_keys_long (l : list string) :
  ¬ Forall short l →
  ∃ x, x ∈ l ∧ ¬ short x
       ∧ int_keys l
         = Raises (ValueError (py.int_limit_message (String.length x))).
Proof.
  induction l as [|x l IH]; intros Hl.
  - destruct Hl. constructor.
  - destruct (decide (short x)) as [Hx|Hx].
    + destruct IH as (y & Hy & Hlong & Hkeys).
      { intros Hall. apply Hl. by constructor. }
      exists y. split_and!; [by right|done|].
      cbn [int_keys]. rewrite (int_short _ Hx), Hkeys. done.
    + exists x. split_and!; [by left|done|].
      cbn [int_keys]. rewrite (int_long _ Hx). done.
Qed.

Lemma insert_sorted_keyed (x : string) (l : list string) :
  insert_sorted (py.int_value x, x) ((λ x, (py.int_value x, x)) <$> l)
  = (λ x, (py.int_value x, x)) <$> insert_by_value x l.
Proof.
  induction l as [|y l IH]; [done|].
  cbn [insert_by_value]. rewrite fmap_cons. cbn [insert_sorted fst].
  destruct (py.int_value x <=? py.int_value y)%Z; [done|].
  by rewrite IH.
Qed.

Lemma sort_keyed_keyed (l : list string) :
  sort_keyed ((λ x, (py.int_value x, x)) <$> l)
  = (λ x, (py.int_value x, x)) <$> sort_by_value l.
Proof.
  induction l as [|x l IH]; [done|].
  rewrite fmap_cons. cbn [sort_keyed sort_by_value].
  by rewrite IH, insert_sorted_keyed.
Qed.

Lemma sorted_short (l : list string) :
  Forall short l → sorted l = Returns (sort_by_value l).
Proof.
  intros Hl. unfold sorted. rewrite (int_keys_short _ Hl).
  cbn [mbind outcome_bind]. rewrite sort_keyed_keyed, <- list_fmap_compose.
  f_equal. apply list_fmap_id.
Qed.

Lemma sorted_long (l : list string) :
  ¬ Forall short l →
  ∃ x, x ∈ l ∧ ¬ short x
       ∧ sorted l
         = Raises (ValueError (py.int_limit_message (String.length x))).
Proof.
  intros Hl. destruct (int_keys_long _ Hl) as (x & Hx & Hlong & Hkeys).
  exists x. split_and!; [done..|]. unfold sorted. by rewrite Hkeys.
Qed.

Lemma sorted_Returns (l nums : list string) :
  sorted l = Returns nums → Forall short l ∧ nums = sort_by_value l.
Proof.
  intros Hs. destruct (decide (Forall short l)) as [Hl|Hl].
  - rewrite (sorted_short _ Hl) in Hs. by injection Hs as <-.
  - destruct (sorted_long _ Hl) as (x & _ & _ & Hx). congruence.
Qed.

(** With every numeral a key of [unique_areas], the second loop raises
    nothing and cuts the sections of the specification. *)
Lemma build_areas_sections (matches : list (nat * string)) (text : string)
    (nums : list string) :
  Forall (λ num, num ∈ snd <$> matches) nums →
  build_areas (collect_unique [] matches) text nums
  = Returns (sections matches text nums).
Proof.
  induction 1 as [|num rest Hnum Hrest IH]; [done|].
  simpl. unfold match_position. rewrite !unique_position.
  destruct (first_position_Some _ _ Hnum) as [pos ->]. simpl.
  destruct Hrest as [|next rest' Hnext Hrest'].
  - done.
  - rewrite unique_position.
    destruct (first_position_Some _ _ Hnext) as [pos' Hpos'].
    rewrite Hpos'. simpl. simpl in IH. rewrite IH. simpl.
    by rewrite Hpos'.
Qed.

Lemma sections_numbers matches text nums :
  area_number <$> sections matches text nums = nums.
Proof. induction nums as [|num rest IH]; [done|]. simpl. f_equal. exact IH. Qed.

(** The segmenter, in one equation. *)
Lemma areas_of_matches_spec (text : string) (max_areas : Z)
    (matches : list (nat * string)) :
  areas_of_matches text max_areas matches
  = match matches with
    | [] => Returns []
    | _ =>
        nums ← sorted (numerals matches);
        if bool_decide (max_areas < Z.of_nat (length (numerals matches)))%Z
        then Raises (ValueError (overflow_message nums max_areas))
        else Returns (sections matches text nums)
    end.
Proof.
  unfold areas_of_matches. destruct matches as [|m ms]; [done|].
  rewrite unique_keys.
  destruct (decide (Forall short (numerals (m :: ms)))) as [Hs|Hl].
  - rewrite (sorted_short _ Hs). cbn [mbind outcome_bind].
    rewrite sort_by_value_length.
    destruct (Z.ltb_spec max_areas
                (Z.of_nat (length (numerals (m :: ms))))) as [Hlt|Hge].
    + by rewrite bool_decide_eq_true_2.
    + rewrite bool_decide_eq_false_2 by lia.
      apply build_areas_sections.
      apply Forall_forall. intros num Hnum.
      rewrite sort_by_value_Permutation in Hnum. by apply numerals_elem.
  - destruct (sorted_long _ Hl) as (x & _ & _ & ->). done.
Qed.

(** With every numeral within the bound on digits, the sort is the sort
    by value. *)
Lemma areas_of_matches_short (text : string) (max_areas : Z)
    (matches : list (nat * string)) :
  Forall short (numerals matches) →
  areas_of_matches text max_areas matches
  = match matches with
    | [] => Returns []
    | _ =>
        if bool_decide (max_areas < Z.of_nat (length (numerals matches)))%Z
        then Raises (ValueError
               (overflow_message (sort_by_value (numerals matches)) max_areas))
        else Returns (sections matches text (sort_by_value (numerals matches)))
    end.
Proof.
  intros Hs. rewrite areas_of_matches_spec, (sorted_short _ Hs). done.
Qed.

(** A numeral beyond the bound ends the call in the sort, whatever the
    ceiling is. *)
Lemma areas_of_matches_long (text : string) (max_areas : Z)
    (matches : list (nat * string)) :
  ¬ Forall short (numerals matches) →
  ∃ num, num ∈ numerals matches ∧ ¬ short num
    ∧ areas_of_matches text max_areas matches
      = Raises (ValueError (py.int_limit_message (String.length num))).
Proof.
  intros Hl. destruct (sorted_long _ Hl) as (x & Hx & Hlong & Hsort).
  exists x. split_and!; [done..|].
  rewrite areas_of_matches_spec, Hsort.
  destruct matches; [|done]. by apply elem_of_nil in Hx.
Qed.


#[local] Instance int_le_trans : Transitive int_le.
Proof. unfold int_le. intros x y z. lia. Qed.

Lemma numerals_short (matches : list (nat * string)) :
  Forall short (snd <$> matches) → Forall short (numerals matches).
Proof.
  rewrite !Forall_forall. intros Hs num Hnum. by apply Hs, numerals_elem.
Qed.

Lemma str_of_nat_inj : Inj eq eq py.str_of_nat.
Proof.
  intros j k Hjk. apply (f_equal py.int_value) in Hjk.
  rewrite !int_str_of_nat in Hjk. lia.
Qed.

Lemma str_of_nat_seq_Sorted (j n : nat) :
  Sorted int_le (py.str_of_nat <$> seq j n).
Proof.
  revert j. induction n as [|n IH]; intros j; simpl; [constructor|].
  constructor; [apply IH|].
  destruct n; simpl; constructor.
  unfold int_le. rewrite !int_str_of_nat. lia.
Qed.

(** Markers numbered 1 to [N], in whatever order and however often, sort
    to the numerals 1 to [N]. *)
Lemma sorted_numerals_1_to_N (matches : list (nat * string)) (N : nat) :
  (∀ num, num ∈ snd <$> matches ↔ ∃ k : nat, (1 ≤ k ≤ N)%nat ∧ num = py.str_of_nat k) →
  sort_by_value (numerals matches) = py.str_of_nat <$> seq 1 N.
Proof.
  intros Hnums.
  assert (∀ num, num ∈ numerals matches ↔ num ∈ py.str_of_nat <$> seq 1 N)
    as Hsame.
  { intros num. rewrite numerals_elem, Hnums, list_elem_of_fmap.
    split; intros (k & H1 & H2); exists k.
    - split; [done|]. apply elem_of_seq. lia.
    - apply elem_of_seq in H2. split; [lia|done]. }
  apply (Sorted_unique_strong int_le).
  - intros x1 x2 Hx1 Hx2 H12 H21.
    rewrite sort_by_value_Permutation in Hx1. apply Hsame in Hx1.
    apply list_elem_of_fmap in Hx1 as (k1 & -> & _).
    apply list_elem_of_fmap in Hx2 as (k2 & -> & _).
    unfold int_le in *. rewrite !int_str_of_nat in *. f_equal. lia.
  - apply sort_by_value_Sorted.
  - apply str_of_nat_seq_Sorted.
  - rewrite sort_by_value_Permutation. apply NoDup_Permutation; [| |done].
    + apply numerals_NoDup.
    + apply (NoDup_fmap_2 _ (Inj0 := str_of_nat_inj)), NoDup_seq.
Qed.

(** X28.  Markers written as the decimal numerals of 1 to [N], each any
    number of times and in any order, every numeral within the
    interpreter's bound on digits and [N] within [max_areas]: the
    segmenter returns exactly [N] sections, numbered 1 to [N] in this
    order; the section of a numeral starts at the first marker that
    carries it.  When the text has no marker the segmenter returns the
    empty list, whatever [max_areas] is. *)
Theorem plain_numerals_numeric_order (text : string) (max_areas : Z) (N : nat) :
  let matches := re.finditer re.impacted_area text in
  ((∀ num, num ∈ snd <$> matches ↔ ∃ k : nat, (1 ≤ k ≤ N)%nat ∧ num = py.str_of_nat k) →
   Forall short (snd <$> matches) →
   (Z.of_nat N ≤ max_areas)%Z →
   ∃ areas,
     extract_impacted_areas_from_text text max_areas = Returns areas
     ∧ length areas = N
     ∧ area_number <$> areas = py.str_of_nat <$> seq 1 N
     ∧ areas = sections matches text (py.str_of_nat <$> seq 1 N))
  ∧ (matches = [] →
     extract_impacted_areas_from_text text max_areas = Returns []).
Proof.
  intros matches. split.
  - intros Hnums Hshort Hmax.
    pose proof (sorted_numerals_1_to_N matches N Hnums) as Hsorted.
    assert (length (numerals matches) = N) as Hlen.
    { rewrite <- sort_by_value_length, Hsorted, length_fmap. apply length_seq. }
    unfold extract_impacted_areas_from_text. fold matches.
    rewrite areas_of_matches_short, Hsorted, Hlen
      by (by apply numerals_short).
    destruct matches as [|m ms] eqn:Hm.
    + simpl in Hlen. subst N. by exists [].
    + rewrite bool_decide_eq_false_2 by lia. eexists. split; [done|].
      split_and!; [|apply sections_numbers|done].
      rewrite <- (length_fmap area_number), sections_numbers, length_fmap.
      apply length_seq.
  - intros Hm. unfold extract_impacted_areas_from_text. fold matches.
    by rewrite Hm.
Qed.

Lemma plain_numerals_numeric_order_witness :
  ∃ areas,
    extract_impacted_areas_from_text
      "Impacted Area 2 kitchen Impacted Area 1 hall Impacted Area 2 again" 20
    = Returns areas
    ∧ length areas = 2
    ∧ area_number <$> areas = py.str_of_nat <$> seq 1 2
    ∧ areas = sections
        (re.finditer re.impacted_area
           "Impacted Area 2 kitchen Impacted Area 1 hall Impacted Area 2 again")
        "Impacted Area 2 kitchen Impacted Area 1 hall Impacted Area 2 again"
        (py.str_of_nat <$> seq 1 2).
Proof.
  apply (proj1 (plain_numerals_numeric_order
    "Impacted Area 2 kitchen Impacted Area 1 hall Impacted Area 2 again" 20 2)).
  - intros num. vm_compute (snd <$> _). split.
    + intros Hnum. apply list_elem_of_In in Hnum. simpl in Hnum.
      destruct Hnum as [<-|[<-|[<-|[]]]];
        [exists 2|exists 1|exists 2]; (split; [lia|done]).
    + intros (k & Hk & ->). apply list_elem_of_In. simpl.
      assert (k = 1 ∨ k = 2) as [-> | ->] by lia; [right; left|left]; done.
  - vm_compute (snd <$> _). repeat constructor; by vm_compute.
  - lia.
Defined.

(** C6.  The specification counts the markers by ordinal; the segmenter
    keys them by the numeral as written and only sorts by its value.  In
    the text below the markers carry the ordinals 1, 2 and 1 again, so
    the distinct ordinals are 1 to 2, within the ceiling of 20; the
    segmenter returns three sections and not two, the spellings 01 and 1
    of the ordinal 1 each getting a section of its own. *)
Theorem leading_zero_splits_an_ordinal :
  let text := "Impacted Area 01 a Impacted Area 2 b Impacted Area 1 c" in
  ordinals (re.finditer re.impacted_area text) = [1; 2; 1]%Z
  ∧ extract_impacted_areas_from_text text 20
    = Returns [ {| area_number := "01"; area_name := "Impacted Area 01";
                   text_chunk := "Impacted Area 01 a Impacted Area 2 b " |};
                {| area_number := "1"; area_name := "Impacted Area 1";
                   text_chunk := "" |};
                {| area_number := "2"; area_name := "Impacted Area 2";
                   text_chunk := "Impacted Area 2 b Impacted Area 1 c" |} ].
Proof. by vm_compute. Qed.

(** Numerals written without leading zeros are told apart by their
    ordinals. *)
Lemma canonical_inj (x y : string) :
  canonical x → canonical y → ordinal x = ordinal y → x = y.
Proof. unfold canonical. intros Hx Hy Hxy. congruence. Qed.

Lemma canonical_str_of_nat (k : nat) : canonical (py.str_of_nat k).
Proof. unfold canonical, ordinal. by rewrite int_str_of_nat. Qed.

Lemma numerals_canonical (matches : list (nat * string)) :
  Forall canonical (snd <$> matches) → Forall canonical (numerals matches).
Proof.
  rewrite !Forall_forall. intros Hc num Hnum. by apply Hc, numerals_elem.
Qed.

Lemma ordinals_NoDup (matches : list (nat * string)) :
  Forall canonical (snd <$> matches) →
  NoDup (ordinal <$> numerals matches).
Proof.
  intros Hc. apply NoDup_fmap_2_strong; [|apply numerals_NoDup].
  pose proof (numerals_canonical _ Hc) as Hn.
  rewrite Forall_forall in Hn.
  intros x y Hx Hy. apply canonical_inj; by apply Hn.
Qed.

Lemma ordinals_elem (matches : list (nat * string)) (n : Z) :
  n ∈ ordinal <$> numerals matches ↔ n ∈ ordinals matches.
Proof.
  unfold ordinals. rewrite !list_elem_of_fmap. split.
  - intros (num & -> & Hnum). apply (proj1 (numerals_elem _ _)) in Hnum.
    apply list_elem_of_fmap in Hnum as (m & -> & Hm). exists m. by split.
  - intros (m & -> & Hm). exists m.2. split; [done|].
    apply numerals_elem. by apply list_elem_of_fmap_2.
Qed.

(** Without leading zeros there are as many numerals as ordinals. *)
Lemma ordinals_size (matches : list (nat * string)) :
  Forall canonical (snd <$> matches) →
  size (list_to_set (ordinals matches) : gset Z) = length (numerals matches).
Proof.
  intros Hc.
  rewrite <- (length_fmap ordinal (numerals matches)).
  rewrite <- (size_list_to_set (C := gset Z)) by (by apply ordinals_NoDup).
  f_equal. apply set_eq. intros n.
  by rewrite !elem_of_list_to_set, ordinals_elem.
Qed.

(** C7, as the code has it.  When a text has at least one marker, its
    numerals are written without leading zeros and stay within the
    interpreter's bound on digits, and the distinct ordinals are more
    than [max_areas], the segmenter raises the overflow error instead of
    returning any section, and the number the message reports is the
    number of distinct ordinals of the text. *)
Theorem segmenter_overflow (text : string) (max_areas : Z) :
  let matches := re.finditer re.impacted_area text in
  let n := size (list_to_set (ordinals matches) : gset Z) in
  matches ≠ [] →
  Forall canonical (snd <$> matches) →
  Forall short (snd <$> matches) →
  (max_areas < Z.of_nat n)%Z →
  ∃ area_nums rest,
    extract_impacted_areas_from_text text max_areas
    = Raises (ValueError (overflow_message area_nums max_areas))
    ∧ length area_nums = n
    ∧ overflow_message area_nums max_areas
      = "Extraction found " +:+ py.str_of_nat n
        +:+ " unique areas, exceeding maximum " +:+ py.str_of_Z max_areas
        +:+ rest.
Proof.
  intros matches n Hm Hc Hs Hn.
  exists (sort_by_value (numerals matches)).
  assert (length (numerals matches) = n) as Hnum
    by (symmetry; by apply ordinals_size).
  assert (length (sort_by_value (numerals matches)) = n) as Hlen
    by (by rewrite sort_by_value_length).
  eexists. split_and!; [|done|].
  - unfold extract_impacted_areas_from_text. fold matches.
    rewrite areas_of_matches_short, Hnum by (by apply numerals_short).
    rewrite bool_decide_eq_true_2 by done.
    clearbody n matches. by destruct matches.
  - unfold overflow_message. rewrite Hlen. reflexivity.
Qed.

Lemma segmenter_overflow_witness :
  ∃ area_nums rest,
    extract_impacted_areas_from_text
      "Impacted Area 1 a Impacted Area 2 b Impacted Area 3 c" 2
    = Raises (ValueError (overflow_message area_nums 2))
    ∧ length area_nums = 3
    ∧ overflow_message area_nums 2
      = "Extraction found " +:+ py.str_of_nat 3
        +:+ " unique areas, exceeding maximum " +:+ py.str_of_Z 2 +:+ rest.
Proof.
  apply (segmenter_overflow
    "Impacted Area 1 a Impacted Area 2 b Impacted Area 3 c" 2).
  - by vm_compute.
  - vm_compute (snd <$> _). repeat constructor.
  - vm_compute (snd <$> _). repeat constructor; by vm_compute.
  - by vm_compute.
Defined.

(** C7, as the specification words it, fails.  A text without markers
    has no ordinal, which is more than a ceiling of -1, and the segmenter
    returns the empty list: the first statement after the search returns
    before any count is taken. *)
Lemma no_marker_no_overflow :
  let text := "The flat shows no dampness." in
  let matches := re.finditer re.impacted_area text in
  (-1 < Z.of_nat (size (list_to_set (ordinals matches) : gset Z)))%Z
  ∧ extract_impacted_areas_from_text text (-1) = Returns [].
Proof. split; [lia|by vm_compute]. Qed.

(** With a ceiling that is negative any marker is one too many. *)
Example negative_ceiling_one_marker :
  ∃ rest,
    extract_impacted_areas_from_text "Impacted Area 1 hall" (-1)
    = Raises (ValueError
        ("Extraction found 1 unique areas, exceeding maximum -1. " +:+ rest)).
Proof. eexists. by vm_compute. Qed.

(** The message counts spellings: here the ordinals are 1, 2 and 3, and
    the message reports four areas. *)
Example overflow_counts_spellings :
  let text :=
    "Impacted Area 1 a Impacted Area 2 b Impacted Area 3 c Impacted Area 03 d" in
  ordinals (re.finditer re.impacted_area text) = [1; 2; 3; 3]%Z
  ∧ ∃ rest,
      extract_impacted_areas_from_text text 2
      = Raises (ValueError
          ("Extraction found 4 unique areas, exceeding maximum 2. " +:+ rest)).
Proof. split; [by vm_compute|]. eexists. by vm_compute. Qed.

(** A numeral of 4301 digits ends the call in the sort, before the
    ceiling is looked at. *)
Example numeral_beyond_the_bound :
  extract_impacted_areas_from_text
    ("Impacted Area " +:+ py.join "" (replicate 4301 "7")) 0
  = Raises (ValueError
      "Exceeds the limit (4300 digits) for integer string conversion: value has 4301 digits; use sys.set_int_max_str_digits() to increase the limit").
Proof. by vm_compute. Qed.

Lemma firsts_id {A} (key : A → string) (l : list A) :
  NoDup (key <$> l) → firsts key l = l.
Proof.
  induction l as [|x l IH] using rev_ind; [done|].
  rewrite fmap_app, NoDup_app. intros (Hl & Hx & _).
  rewrite firsts_snoc, IH by done. unfold keep_first.
  rewrite bool_decide_eq_false_2; [done|].
  intros Hin. apply (Hx _ Hin). left.
Qed.

Lemma firsts_idemp {A} (key : A → string) (l : list A) :
  firsts key (firsts key l) = firsts key l.
Proof. apply firsts_id, firsts_NoDup. Qed.

Lemma first_position_firsts (matches : list (nat * string)) (num : string) :
  first_position (firsts snd matches) num = first_position matches num.
Proof.
  unfold first_position. rewrite firsts_with_key.
  by destruct (with_key snd num matches).
Qed.

Lemma numerals_firsts (matches : list (nat * string)) :
  numerals (firsts snd matches) = numerals matches.
Proof. unfold numerals. by rewrite firsts_idemp. Qed.

Lemma sections_firsts matches text nums :
  sections (firsts snd matches) text nums = sections matches text nums.
Proof.
  induction nums as [|num rest IH]; [done|].
  simpl. rewrite IH, first_position_firsts.
  destruct rest; [done|]. by rewrite first_position_firsts.
Qed.

Lemma sections_chunks matches text nums a :
  a ∈ sections matches text nums →
  ∃ stop, text_chunk a
          = py.slice (default 0 (first_position matches (area_number a)))
                     stop text.
Proof.
  induction nums as [|num rest IH]; simpl.
  - intros H. by apply elem_of_nil in H.
  - rewrite elem_of_cons. intros [->|Hin]; [|by apply IH].
    simpl. eauto.
Qed.

Lemma with_ordinal_canonical (matches : list (nat * string)) (num : string) :
  Forall canonical (snd <$> matches) → num ∈ snd <$> matches →
  with_ordinal (ordinal num) matches = with_key snd num matches.
Proof.
  intros Hc Hnum. unfold with_ordinal, with_key.
  assert (canonical num) as Hn
    by (rewrite Forall_forall in Hc; by apply Hc).
  clear Hnum. induction matches as [|m ms IH]; [done|].
  rewrite fmap_cons in Hc. apply Forall_cons in Hc as [Hm Hms].
  rewrite !filter_cons, IH by done.
  destruct (decide (ordinal m.2 = ordinal num)) as [Ho|Ho],
    (decide (m.2 = num)) as [Hk|Hk]; try done.
  - destruct Hk. by apply canonical_inj.
  - destruct Ho. by rewrite Hk.
Qed.

(** C8, as the code has it, for markers written without leading zeros.
    Of the markers that repeat an ordinal only the first counts: the
    segmenter gives the same result as when the later ones are dropped
    from the list of markers found; a result has exactly one section for
    each ordinal of the text, and that section starts at the first marker
    with the ordinal.  The text itself is cut as it stands, so a chunk
    still holds the later markers it spans. *)
Theorem segmenter_first_occurrence_wins (text : string) (max_areas : Z) :
  let matches := re.finditer re.impacted_area text in
  Forall canonical (snd <$> matches) →
  (∀ m m', m ∈ matches → m' ∈ matches →
     ordinal m.2 = ordinal m'.2 ↔ m.2 = m'.2)
  ∧ extract_impacted_areas_from_text text max_areas
    = areas_of_matches text max_areas (firsts snd matches)
  ∧ ∀ areas,
      extract_impacted_areas_from_text text max_areas = Returns areas →
      NoDup (ordinal <$> (area_number <$> areas))
      ∧ (∀ n, n ∈ ordinal <$> (area_number <$> areas) ↔ n ∈ ordinals matches)
      ∧ (∀ a, a ∈ areas →
           ∃ pos stop,
             head (with_ordinal (ordinal (area_number a)) matches)
             = Some (pos, area_number a)
             ∧ text_chunk a = py.slice pos stop text).
Proof.
  intros matches Hc. unfold extract_impacted_areas_from_text. fold matches.
  clearbody matches. rewrite !areas_of_matches_spec. split_and!.
  - intros m m' Hm Hm'. split; [|by intros ->].
    rewrite Forall_forall in Hc.
    apply canonical_inj; apply Hc; by apply list_elem_of_fmap_2.
  - rewrite numerals_firsts.
    destruct matches as [|m ms]; [done|].
    destruct (firsts snd (m :: ms)) eqn:Hf.
    { exfalso. assert (m.2 ∈ snd <$> firsts snd (m :: ms)) as Hin
        by (apply firsts_keys; left).
      rewrite Hf in Hin. by apply elem_of_nil in Hin. }
    rewrite <- Hf.
    destruct (sorted (numerals (m :: ms))); [|done].
    cbn [mbind outcome_bind]. by rewrite sections_firsts.
  - intros areas Hareas.
    assert (areas = sections matches text (sort_by_value (numerals matches)))
      as ->.
    { destruct matches; [by injection Hareas|].
      destruct (sorted (numerals (p :: matches))) as [nums|] eqn:Hs; [|done].
      apply sorted_Returns in Hs as [_ ->]. cbn [mbind outcome_bind] in Hareas.
      case_bool_decide; [done|]. by injection Hareas. }
    rewrite sections_numbers. split_and!.
    + rewrite sort_by_value_Permutation. by apply ordinals_NoDup.
    + intros n. rewrite sort_by_value_Permutation. apply ordinals_elem.
    + intros a Ha.
      assert (area_number a ∈ snd <$> matches) as Hnum.
      { apply numerals_elem. rewrite <- sort_by_value_Permutation.
        rewrite <- (sections_numbers matches text
                      (sort_by_value (numerals matches))).
        by apply list_elem_of_fmap_2. }
      rewrite with_ordinal_canonical by done.
      destruct (sections_chunks _ _ _ _ Ha) as [stop Hchunk].
      unfold first_position in Hchunk.
      destruct (with_key snd (area_number a) matches) as [|[pos num] w] eqn:Hw.
      { apply list_elem_of_fmap in Hnum as (m & Hm1 & Hm2).
        assert (m ∈ with_key snd (area_number a) matches) as Hin
          by (by apply list_elem_of_filter).
        rewrite Hw in Hin. by apply elem_of_nil in Hin. }
      assert ((pos, num) ∈ with_key snd (area_number a) matches) as Hin
        by (rewrite Hw; left).
      apply list_elem_of_filter in Hin as [Hkey _]. simpl in Hkey. subst num.
      exists pos, stop. done.
Qed.

Lemma segmenter_first_occurrence_wins_witness :
  NoDup (ordinal <$> (area_number <$>
    [{| area_number := "1"; area_name := "Impacted Area 1";
        text_chunk := "Impacted Area 1 a Impacted Area 1 b" |}])).
Proof.
  refine (proj1 (proj2 (proj2 (segmenter_first_occurrence_wins
                  "Impacted Area 1 a Impacted Area 1 b" 20 _)) _ _)).
  - vm_compute (snd <$> _). repeat constructor.
  - by vm_compute.
Defined.

(** C8, as the specification words it, fails: taking the later duplicate
    marker out of the text changes the chunk that spanned it. *)
Lemma duplicate_removal_changes_chunk :
  extract_impacted_areas_from_text "Impacted Area 1 a Impacted Area 1 b" 20
  ≠ extract_impacted_areas_from_text
      (remove_later_duplicates [] 0 "Impacted Area 1 a Impacted Area 1 b") 20.
Proof. by vm_compute. Qed.

(** Taking a duplicate out of the text can even bring a new marker about:
    here the text around the duplicate closes up to "Impacted Area 7". *)
Example duplicate_removal_makes_marker :
  area_numbers (extract_impacted_areas_from_text
    "Impacted Area 1 Impacted Impacted Area 1Area 7" 20) = Returns ["1"]
  ∧ area_numbers (extract_impacted_areas_from_text
      (remove_later_duplicates [] 0
         "Impacted Area 1 Impacted Impacted Area 1Area 7") 20)
    = Returns ["1"; "7"].
Proof. by vm_compute. Qed.

(** Twenty-five markers against a ceiling of twenty. *)
Example twenty_five_markers :
  ∃ rest,
    extract_impacted_areas_from_text (numbered_markers 25) 20
    = Raises (ValueError
        ("Extraction found 25 unique areas, exceeding maximum 20. " +:+ rest)).
Proof. eexists. by vm_compute. Qed.

End segmenter.

(** ** The structural validator *)

Section validator_checks.
Import validator validator_spec.

#[local] Instance same_verdict_refl : Reflexive same_verdict.
Proof. by split. Qed.

#[local] Instance same_verdict_trans : Transitive same_verdict.
Proof. intros r1 r2 r3 [? ?] [? ?]. split; congruence. Qed.

Lemma same_verdict_warn (w : string) (r : results) :
  same_verdict r (add_warning w r).
Proof. by split. Qed.

Lemma strs_is_Some (names : list pyval) :
  Forall (λ v, ∃ s, v = PyStr s) names → is_Some (strs names).
Proof.
  induction 1 as [|v names [s ->] _ [l IH]]; simpl; [by eexists|].
  rewrite IH. by eexists.
Qed.

Lemma str_or_absent_default (v : option pyval) (d : string) :
  str_or_absent v → ∃ s, default (PyStr d) v = PyStr s.
Proof. destruct v as [[]|]; simpl; intros H; try done; by eexists. Qed.

(** Check 1 *)
Lemma _validate_area_count_overflow (i : pydata) (r : results) :
  names_typed i → overflow i = true →
  ∃ rest,
    _validate_area_count i r
    = (r, Raises (ValidationError
        ("Area count " +:+ py.str_of_nat (length (areas_of i)) +:+ rest))).
Proof.
  intros Hty Hov. unfold _validate_area_count.
  fold (areas_of i). unfold overflow in Hov. rewrite Hov.
  match goal with |- context [strs ?l] => destruct (strs_is_Some l) as [l' ->] end.
  - apply Forall_take, Forall_fmap.
    eapply Forall_impl; [apply Forall_take, Hty|].
    intros a Ha. by apply str_or_absent_default.
  - eexists. unfold raise. reflexivity.
Qed.

Lemma _validate_area_count_pass (i : pydata) (r : results) :
  overflow i = false →
  ∃ r', _validate_area_count i r = (r', Returns tt) ∧ same_verdict r r'.
Proof.
  intros Hov. unfold _validate_area_count.
  fold (areas_of i). unfold overflow in Hov. rewrite Hov.
  destruct (length (areas_of i) =? 0)%nat; eexists; split; try reflexivity.
  apply same_verdict_warn.
Qed.

(** Check 2 *)
Lemma no_thermal_ids_loop_str (area : pydict) (areas : list pydict)
    (s : string) (r : results) :
  area !! "area_name" = Some (PyStr s) →
  no_thermal_ids_loop (area :: areas) r
  = if existsb (λ pattern, py.contains pattern (py.lower s)) thermal_patterns
    then (r, Raises (ValidationError (
           "Thermal image ID detected in areas: '" +:+ s +:+ "'. "
           +:+ "Thermal IDs must NOT be treated as areas.")))
    else no_thermal_ids_loop areas
           (if (30 <? String.length (py.lower s))%nat
               || py.isupper (py.lower s)
                  && (10 <? String.length (py.lower s))%nat
            then add_warning
                   ("Suspicious area name (might be ID): '" +:+ s +:+ "'") r
            else r).
Proof.
  intros Hname. cbn [no_thermal_ids_loop].
  unfold mbind at 1, check_bind, get_lower. rewrite Hname.
  unfold mret at 1, check_ret.
  destruct (existsb _ thermal_patterns); [done|].
  unfold mbind, check_bind.
  by destruct (_ || _).
Qed.

Lemma no_thermal_ids_loop_absent (area : pydict) (areas : list pydict)
    (r : results) :
  area !! "area_name" = None →
  no_thermal_ids_loop (area :: areas) r = no_thermal_ids_loop areas r.
Proof.
  intros Hname. cbn [no_thermal_ids_loop].
  unfold mbind at 1, check_bind, get_lower. by rewrite Hname.
Qed.

Lemma no_thermal_ids_loop_spec (areas : list pydict) (r : results) :
  Forall (λ area : pydict, str_or_absent (area !! "area_name")) areas →
  ∃ r', same_verdict r r'
    ∧ (existsb names_thermal_id areas = true
       ∧ (∃ rest, no_thermal_ids_loop areas r
            = (r', Raises (ValidationError
                 ("Thermal image ID detected in areas: '" +:+ rest))))
       ∨ existsb names_thermal_id areas = false
         ∧ no_thermal_ids_loop areas r = (r', Returns tt)).
Proof.
  intros Hty. revert r. induction Hty as [|area areas Ha _ IH]; intros r.
  - exists r. split; [done|]. by right.
  - change (existsb names_thermal_id (area :: areas))
      with (names_thermal_id area || existsb names_thermal_id areas).
    unfold names_thermal_id at 1 3.
    destruct (area !! "area_name") as [[| | |s|]|] eqn:Hname; try done.
    + rewrite (no_thermal_ids_loop_str _ _ _ _ Hname).
      destruct (existsb _ thermal_patterns).
      * exists r. split; [done|]. left. split; [done|]. by eexists.
      * match goal with |- context [no_thermal_ids_loop areas ?r0] =>
          destruct (IH r0) as (r' & Hv & Hloop) end.
        exists r'. split; [|exact Hloop].
        destruct (_ || _); [|done].
        by etrans; [apply same_verdict_warn|].
    + rewrite (no_thermal_ids_loop_absent _ _ _ Hname). apply IH.
Qed.

(** Check 3 *)
Lemma thermal_structure_loop_confused (i : nat) (reading : pydict)
    (readings : list pydict) (r : results) :
  uses_area_for_image_id reading = true →
  thermal_structure_loop i (reading :: readings) r
  = (r, Raises (ValidationError (
      "Thermal reading " +:+ py.str_of_nat i
      +:+ " uses 'area' instead of 'image_id'. "
      +:+ "This causes thermal IDs to be treated as areas."))).
Proof.
  intros Hc. cbn [thermal_structure_loop].
  unfold uses_area_for_image_id in Hc. by rewrite Hc.
Qed.

Lemma thermal_structure_loop_pass (i : nat) (reading : pydict)
    (readings : list pydict) (r : results) :
  uses_area_for_image_id reading = false →
  str_or_null (reading !! "image_id") →
  ∃ r', same_verdict r r'
    ∧ thermal_structure_loop i (reading :: readings) r
      = thermal_structure_loop (S i) readings r'.
Proof.
  intros Hc Hty. cbn [thermal_structure_loop].
  unfold uses_area_for_image_id in Hc. rewrite Hc.
  unfold mbind, check_bind.
  destruct (reading !! "image_id") as [[| | |s|]|]; try done;
    cbv [default from_option id].
  - exists r. split; reflexivity.
  - destruct (negb (truthy (PyStr s))); [exists r; split; reflexivity|].
    destruct (String.eqb s "Not Available"); [exists r; split; reflexivity|].
    destruct (existsb _ common_areas); [|exists r; split; reflexivity].
    eexists. split; [apply same_verdict_warn|reflexivity].
  - exists r. split; reflexivity.
Qed.

Lemma thermal_structure_loop_spec (i : nat) (readings : list pydict)
    (r : results) :
  Forall (λ reading : pydict, str_or_null (reading !! "image_id")) readings →
  ∃ r', same_verdict r r'
    ∧ (existsb uses_area_for_image_id readings = true
       ∧ (∃ rest, thermal_structure_loop i readings r
            = (r', Raises (ValidationError ("Thermal reading " +:+ rest))))
       ∨ existsb uses_area_for_image_id readings = false
         ∧ thermal_structure_loop i readings r = (r', Returns tt)).
Proof.
  intros Hty. revert i r.
  induction Hty as [|reading readings Hr _ IH]; intros i r.
  - exists r. split; [done|]. by right.
  - change (existsb uses_area_for_image_id (reading :: readings))
      with (uses_area_for_image_id reading
            || existsb uses_area_for_image_id readings).
    destruct (uses_area_for_image_id reading) eqn:Hc.
    + rewrite (thermal_structure_loop_confused _ _ _ _ Hc).
      exists r. split; [done|]. left. split; [done|]. by eexists.
    + destruct (thermal_structure_loop_pass i _ readings r Hc Hr)
        as (r1 & Hv1 & ->).
      destruct (IH (S i) r1) as (r' & Hv & Hloop).
      exists r'. split; [by etrans|exact Hloop].
Qed.

(** Check 4 *)
Lemma lower_names_returns (areas : list pydict) (r : results) :
  Forall (λ area : pydict, str_or_absent (area !! "area_name")) areas →
  ∃ names, lower_names areas r = (r, Returns names).
Proof.
  induction 1 as [|area areas Ha _ [names IH]]; [by eexists|].
  cbn [lower_names]. unfold mbind at 1, check_bind, get_lower.
  destruct (area !! "area_name") as [[| | |s|]|]; try done;
    unfold mret at 1, check_ret; unfold mbind, check_bind; rewrite IH;
    by eexists.
Qed.

Lemma no_areas_in_thermal_loop_returns (names : list string)
    (readings : list pydict) (r : results) :
  Forall (λ reading : pydict, str_or_absent (reading !! "image_id")) readings →
  ∃ r', same_verdict r r'
    ∧ no_areas_in_thermal_loop names readings r = (r', Returns tt).
Proof.
  intros Hty. revert r. induction Hty as [|reading readings Hr _ IH]; intros r.
  - by exists r.
  - cbn [no_areas_in_thermal_loop].
    unfold mbind at 1, check_bind, get_lower.
    destruct (reading !! "image_id") as [[| | |s|]|]; try done;
      unfold mret at 1, check_ret; unfold mbind at 1, check_bind;
      (destruct (existsb _ names);
       [ match goal with |- context [warn ?w r] =>
           destruct (IH (add_warning w r)) as (r' & Hv & Hloop) end;
         exists r'; split; [by etrans; [apply same_verdict_warn|]|exact Hloop]
       | apply IH ]).
Qed.

Lemma _validate_no_areas_in_thermal_returns (i t : pydata) (r : results) :
  names_typed i → ids_typed t →
  ∃ r', same_verdict r r'
    ∧ _validate_no_areas_in_thermal i t r = (r', Returns tt).
Proof.
  intros Hi Ht. unfold _validate_no_areas_in_thermal.
  unfold mbind, check_bind. fold (areas_of i) (readings_of t).
  destruct (lower_names_returns _ r Hi) as [names ->].
  by apply no_areas_in_thermal_loop_returns.
Qed.


Lemma check_bind_returns {A B} (m : check A) (f : A → check B)
    (r r' : results) (a : A) :
  m r = (r', Returns a) → (m ≫= f) r = f a r'.
Proof. intros H. unfold mbind, check_bind. by rewrite H. Qed.

Lemma check_bind_raises {A B} (m : check A) (f : A → check B)
    (r r' : results) (e : exn) :
  m r = (r', Raises e) → (m ≫= f) r = (r', Raises e).
Proof. intros H. unfold mbind, check_bind. by rewrite H. Qed.

(** The [try] block, check by check. *)
Lemma checks_then_clean_first_two (i t : pydata) (r : results) :
  names_typed i →
  ∃ r', same_verdict r r'
    ∧ (overflow i = true
       ∧ (∃ rest, checks_then_clean i t r
            = (r', Raises (ValidationError
                 ("Area count " +:+ py.str_of_nat (length (areas_of i))
                  +:+ rest))))
       ∨ overflow i = false
         ∧ existsb names_thermal_id (areas_of i) = true
         ∧ (∃ rest, checks_then_clean i t r
              = (r', Raises (ValidationError
                   ("Thermal image ID detected in areas: '" +:+ rest))))
       ∨ overflow i = false
         ∧ existsb names_thermal_id (areas_of i) = false
         ∧ checks_then_clean i t r = from_check_3 i t r').
Proof.
  intros Hi. destruct (overflow i) eqn:Hov.
  - destruct (_validate_area_count_overflow i r Hi Hov) as [rest Hc].
    exists r. split; [done|]. left. split; [done|]. exists rest.
    unfold checks_then_clean. by apply check_bind_raises.
  - destruct (_validate_area_count_pass i r Hov) as (r1 & Hc1 & Hv1).
    destruct (no_thermal_ids_loop_spec (areas_of i) r1 Hi)
      as (r2 & Hv2 & [[Hleak [rest Hc2]]|[Hleak Hc2]]);
      exists r2; (split; [by etrans|]); right; [left|right];
      (split_and!; [done..|]).
    + exists rest. unfold checks_then_clean.
      rewrite (check_bind_returns _ _ _ _ _ Hc1).
      by apply check_bind_raises.
    + unfold checks_then_clean.
      rewrite (check_bind_returns _ _ _ _ _ Hc1).
      exact (check_bind_returns (_validate_no_thermal_ids_in_areas i)
               (λ _, from_check_3 i t) r1 r2 tt Hc2).
Qed.

Lemma from_check_3_spec (i t : pydata) (r : results) :
  ids_typed_or_null t →
  ∃ r', same_verdict r r'
    ∧ (existsb uses_area_for_image_id (readings_of t) = true
       ∧ (∃ rest, from_check_3 i t r
            = (r', Raises (ValidationError ("Thermal reading " +:+ rest))))
       ∨ existsb uses_area_for_image_id (readings_of t) = false
         ∧ from_check_3 i t r = from_check_4 i t r').
Proof.
  intros Ht.
  destruct (thermal_structure_loop_spec 0 (readings_of t) r Ht)
    as (r' & Hv & [[Hc [rest Hl]]|[Hc Hl]]); exists r'; (split; [done|]).
  - left. split; [done|]. exists rest. by apply check_bind_raises.
  - right. split; [done|].
    exact (check_bind_returns (_validate_thermal_structure t)
             (λ _, from_check_4 i t) r r' tt Hl).
Qed.

Lemma from_check_4_spec (i t : pydata) (r : results) :
  names_typed i → ids_typed t →
  ∃ r', same_verdict r r'
    ∧ from_check_4 i t r
      = (r', Returns (_clean_null_fields i, _clean_null_fields t)).
Proof.
  intros Hi Ht.
  destruct (_validate_no_areas_in_thermal_returns i t r Hi Ht) as (r' & Hv & Hc).
  exists r'. split; [done|].
  exact (check_bind_returns (_validate_no_areas_in_thermal i t)
           (λ _, mret (_clean_null_fields i, _clean_null_fields t))
           r r' tt Hc).
Qed.

Lemma ids_typed_weaken (t : pydata) : ids_typed t → ids_typed_or_null t.
Proof.
  intros Ht. eapply Forall_impl; [exact Ht|]. intros reading. simpl.
  by destruct (reading !! "image_id") as [[]|].
Qed.

(** [validate_all] after a [ValidationError], and after none. *)
Lemma validate_all_raised (i t : pydata) (r : results) (e : string) :
  checks_then_clean i t initial = (r, Raises (ValidationError e)) →
  validate_all i t
  = Returns {| validation :=
                 {| valid := false; errors := errors r ++ [e];
                    warnings := warnings r;
                    area_count := count_of "areas" i;
                    thermal_count := count_of "thermal_readings" t |};
               inspection := i; thermal := t |}.
Proof. intros H. unfold validate_all. fold initial. by rewrite H. Qed.

Lemma validate_all_returned (i t i' t' : pydata) (r : results) :
  checks_then_clean i t initial = (r, Returns (i', t')) →
  validate_all i t
  = Returns {| validation :=
                 {| valid := valid r; errors := errors r;
                    warnings := warnings r;
                    area_count := count_of "areas" i';
                    thermal_count := count_of "thermal_readings" t' |};
               inspection := i'; thermal := t' |}.
Proof. intros H. unfold validate_all. fold initial. by rewrite H. Qed.


(** Normalisation, key by key *)
Lemma _clean_null_fields_areas (data : pydata) :
  _clean_null_fields data !! "areas"
  = (λ areas, clean_area <$> areas) <$> data !! "areas".
Proof.
  unfold _clean_null_fields.
  destruct (data !! "areas") as [areas|] eqn:Ha.
  - rewrite lookup_insert_ne by done.
    destruct (data !! "thermal_readings");
      [rewrite lookup_insert_ne by done|]; by rewrite lookup_insert_eq.
  - destruct (data !! "thermal_readings");
      [rewrite lookup_insert_ne by done|]; by rewrite Ha.
Qed.

Lemma _clean_null_fields_readings (data : pydata) :
  _clean_null_fields data !! "thermal_readings"
  = (λ readings, clean_reading <$> readings) <$> data !! "thermal_readings".
Proof.
  unfold _clean_null_fields.
  destruct (data !! "areas") as [areas|] eqn:Ha.
  - rewrite lookup_insert_ne by done.
    destruct (data !! "thermal_readings") as [readings|] eqn:Hr.
    + by rewrite lookup_insert_eq.
    + by rewrite lookup_insert_ne, Hr.
  - destruct (data !! "thermal_readings") as [readings|] eqn:Hr.
    + by rewrite lookup_insert_eq.
    + by rewrite Hr.
Qed.

Lemma _clean_null_fields_other (data : pydata) (key : string) :
  key ≠ "areas" → key ≠ "thermal_readings" →
  _clean_null_fields data !! key = data !! key.
Proof.
  intros H1 H2. unfold _clean_null_fields.
  destruct (data !! "areas") as [areas|].
  - rewrite lookup_insert_ne by done.
    destruct (data !! "thermal_readings");
      by rewrite ?lookup_insert_ne by done.
  - destruct (data !! "thermal_readings");
      by rewrite ?lookup_insert_ne by done.
Qed.

Lemma _clean_null_fields_length (data : pydata) (key : string) :
  length (default [] (_clean_null_fields data !! key))
  = length (default [] (data !! key)).
Proof.
  destruct (decide (key = "areas")) as [->|H1];
    [|destruct (decide (key = "thermal_readings")) as [->|H2]].
  - rewrite _clean_null_fields_areas.
    destruct (data !! "areas"); simpl; [apply length_fmap|done].
  - rewrite _clean_null_fields_readings.
    destruct (data !! "thermal_readings"); simpl; [apply length_fmap|done].
  - by rewrite _clean_null_fields_other.
Qed.

Lemma clean_area_lookup (area : pydict) (k : string) :
  clean_area area !! k
  = if bool_decide (k = "area_name") then truthy_or_sentinel (area !! k)
    else if bool_decide (k ∈ ["negative_observations"; "positive_observations"])
    then list_or_empty (area !! k)
    else area !! k.
Proof.
  unfold clean_area, truthy_or_sentinel, list_or_empty.
  set (a1 := if truthy_get (area !! "area_name") then area
             else <["area_name":=NOT_AVAILABLE]> area).
  assert (∀ k, a1 !! k = if bool_decide (k = "area_name")
                          then truthy_or_sentinel (area !! k)
                          else area !! k) as H1.
  { intros k'. unfold a1, truthy_or_sentinel. case_bool_decide as Hk.
    - subst k'. destruct (truthy_get _); [done|]. by rewrite lookup_insert_eq.
    - destruct (truthy_get _); [done|]. by rewrite lookup_insert_ne. }
  clearbody a1.
  set (a2 := if is_list_get (a1 !! "negative_observations") then a1
             else <["negative_observations":=PyList []]> a1).
  assert (∀ k, a2 !! k = if bool_decide (k = "negative_observations")
                          then list_or_empty (a1 !! k)
                          else a1 !! k) as H2.
  { intros k'. unfold a2, list_or_empty. case_bool_decide as Hk.
    - subst k'. destruct (is_list_get _); [done|]. by rewrite lookup_insert_eq.
    - destruct (is_list_get _); [done|]. by rewrite lookup_insert_ne. }
  clearbody a2.
  assert ((if is_list_get (a2 !! "positive_observations") then a2
           else <["positive_observations":=PyList []]> a2) !! k
          = if bool_decide (k = "positive_observations")
            then list_or_empty (a2 !! k) else a2 !! k) as ->.
  { unfold list_or_empty. case_bool_decide as Hk.
    - subst k. destruct (is_list_get _); [done|]. by rewrite lookup_insert_eq.
    - destruct (is_list_get _); [done|]. by rewrite lookup_insert_ne. }
  rewrite H2, H1.
  destruct (decide (k = "area_name")) as [->|Hn1]; [done|].
  destruct (decide (k = "negative_observations")) as [->|Hn2]; [done|].
  destruct (decide (k = "positive_observations")) as [->|Hn3]; [done|].
  rewrite !bool_decide_eq_false_2; [done|..]; try done.
  rewrite !elem_of_cons, elem_of_nil. tauto.
Qed.

Lemma clean_fields_lookup (fields : list string) (reading : pydict)
    (k : string) :
  fold_left
    (λ (reading : pydict) field,
       if truthy_get (reading !! field) then reading
       else <[field := NOT_AVAILABLE]> reading)
    fields reading !! k
  = if bool_decide (k ∈ fields) then truthy_or_sentinel (reading !! k)
    else reading !! k.
Proof.
  revert reading. induction fields as [|f fields IH]; intros reading.
  - cbn [fold_left]. by rewrite bool_decide_eq_false_2 by apply not_elem_of_nil.
  - cbn [fold_left]. rewrite IH. unfold truthy_or_sentinel.
    destruct (decide (k = f)) as [->|Hkf].
    + rewrite (bool_decide_eq_true_2 (f ∈ f :: fields)) by left.
      destruct (truthy_get (reading !! f)) eqn:Hf.
      * rewrite Hf. by case_bool_decide.
      * rewrite lookup_insert_eq. simpl. by case_bool_decide.
    + assert ((if truthy_get (reading !! f) then reading
               else <[f:=NOT_AVAILABLE]> reading) !! k = reading !! k) as ->.
      { destruct (truthy_get _); [done|]. by rewrite lookup_insert_ne. }
      apply (f_equal (λ b : bool, if b then _ else _)).
      apply bool_decide_ext. rewrite elem_of_cons. tauto.
Qed.

Lemma clean_reading_lookup (reading : pydict) (k : string) :
  clean_reading reading !! k
  = if bool_decide (k ∈ reading_fields) then truthy_or_sentinel (reading !! k)
    else reading !! k.
Proof. apply clean_fields_lookup. Qed.


(** [validate_all], case by case *)
Lemma validate_all_overflow (i t : pydata) :
  names_typed i → overflow i = true →
  ∃ res rest,
    validate_all i t = Returns res
    ∧ rejected i t ("Area count " +:+ py.str_of_nat (length (areas_of i))
                    +:+ rest) res.
Proof.
  intros Hi Hov.
  destruct (checks_then_clean_first_two i t initial Hi)
    as (r & [_ He] & [[_ [rest Hc]]|[[? _]|[? _]]]); [|congruence..].
  eexists _, rest. split; [by apply validate_all_raised|].
  split_and!; try done. simpl. by rewrite He.
Qed.

Lemma validate_all_thermal_id (i t : pydata) :
  names_typed i → overflow i = false →
  existsb names_thermal_id (areas_of i) = true →
  ∃ res rest,
    validate_all i t = Returns res
    ∧ rejected i t ("Thermal image ID detected in areas: '" +:+ rest) res.
Proof.
  intros Hi Hov Hleak.
  destruct (checks_then_clean_first_two i t initial Hi)
    as (r & [_ He] & [[? _]|[(_ & _ & [rest Hc])|(_ & ? & _)]]);
    [congruence| |congruence].
  eexists _, rest. split; [by apply validate_all_raised|].
  split_and!; try done. simpl. by rewrite He.
Qed.

Lemma validate_all_thermal_structure (i t : pydata) :
  names_typed i → ids_typed_or_null t →
  overflow i = false → existsb names_thermal_id (areas_of i) = false →
  existsb uses_area_for_image_id (readings_of t) = true →
  ∃ res rest,
    validate_all i t = Returns res
    ∧ rejected i t ("Thermal reading " +:+ rest) res.
Proof.
  intros Hi Ht Hov Hleak Hconf.
  destruct (checks_then_clean_first_two i t initial Hi)
    as (r1 & Hv1 & [[? _]|[(_ & ? & _)|(_ & _ & Hc1)]]); [congruence..|].
  destruct (from_check_3_spec i t r1 Ht)
    as (r2 & Hv2 & [[_ [rest Hc2]]|[? _]]); [|congruence].
  rewrite Hc2 in Hc1.
  eexists _, rest. split; [by apply validate_all_raised|].
  split_and!; try done. simpl.
  destruct Hv1 as [_ He1], Hv2 as [_ He2]. by rewrite He2, He1.
Qed.

Lemma validate_all_accepted (i t : pydata) :
  names_typed i → ids_typed t → hard_error i t = false →
  ∃ res, validate_all i t = Returns res ∧ accepted i t res.
Proof.
  intros Hi Ht Hhard. unfold hard_error in Hhard.
  apply orb_false_elim in Hhard as [Hhard Hconf].
  apply orb_false_elim in Hhard as [Hov Hleak].
  destruct (checks_then_clean_first_two i t initial Hi)
    as (r1 & Hv1 & [[? _]|[(_ & ? & _)|(_ & _ & Hc1)]]); [congruence..|].
  destruct (from_check_3_spec i t r1 (ids_typed_weaken t Ht))
    as (r2 & Hv2 & [[? _]|[_ Hc2]]); [congruence|].
  destruct (from_check_4_spec i t r2 Hi Ht) as (r3 & Hv3 & Hc3).
  rewrite Hc2, Hc3 in Hc1.
  eexists. split; [by apply validate_all_returned|].
  destruct Hv1 as [Hb1 He1], Hv2 as [Hb2 He2], Hv3 as [Hb3 He3].
  split_and!; simpl; [by rewrite Hb3, Hb2, Hb1|by rewrite He3, He2, He1|done..].
Qed.

Lemma hard_error_cases (i t : pydata) :
  hard_error i t = true →
  overflow i = true
  ∨ overflow i = false ∧ existsb names_thermal_id (areas_of i) = true
  ∨ overflow i = false ∧ existsb names_thermal_id (areas_of i) = false
    ∧ existsb uses_area_for_image_id (readings_of t) = true.
Proof.
  unfold hard_error.
  destruct (overflow i), (existsb names_thermal_id _),
    (existsb uses_area_for_image_id _); simpl; intros; try done; eauto.
Qed.

Lemma validate_all_rejected (i t : pydata) :
  names_typed i → ids_typed_or_null t → hard_error i t = true →
  ∃ res e, validate_all i t = Returns res ∧ rejected i t e res.
Proof.
  intros Hi Ht Hhard.
  destruct (hard_error_cases i t Hhard) as [Hov|[[Hov Hl]|(Hov & Hl & Hc)]].
  - destruct (validate_all_overflow i t Hi Hov) as (res & rest & ? & ?); eauto.
  - destruct (validate_all_thermal_id i t Hi Hov Hl) as (res & rest & ? & ?);
      eauto.
  - destruct (validate_all_thermal_structure i t Hi Ht Hov Hl Hc)
      as (res & rest & ? & ?); eauto.
Qed.

(** Whatever the verdict, nothing but the cleaned arguments is returned
    by the [try] block. *)
Lemma checks_then_clean_returned (i t i' t' : pydata) (r r' : results) :
  checks_then_clean i t r = (r', Returns (i', t')) →
  i' = _clean_null_fields i ∧ t' = _clean_null_fields t.
Proof.
  unfold checks_then_clean, mbind, check_bind.
  destruct (_validate_area_count i r) as [r1 [[]|e]]; [|done].
  destruct (_validate_no_thermal_ids_in_areas i r1) as [r2 [[]|e]]; [|done].
  destruct (_validate_thermal_structure t r2) as [r3 [[]|e]]; [|done].
  destruct (_validate_no_areas_in_thermal i t r3) as [r4 [[]|e]]; [|done].
  unfold mret, check_ret. by intros [= _ <- <-].
Qed.

Lemma validate_all_counts (i t : pydata) (res : validated) :
  validate_all i t = Returns res →
  area_count (validation res) = length (areas_of i)
  ∧ thermal_count (validation res) = length (readings_of t).
Proof.
  unfold validate_all.
  destruct (checks_then_clean i t _) as [r [[i' t']|e]] eqn:Hc.
  - apply checks_then_clean_returned in Hc as [-> ->].
    intros [= <-]. simpl. unfold count_of, areas_of, readings_of.
    by rewrite !_clean_null_fields_length.
  - destruct e; try done. by intros [= <-].
Qed.


(** The checks on any input, typed or not: each keeps the verdict made so
    far, returns only without its hard condition and raises
    [ValidationError] only with it. *)
Lemma _validate_area_count_classifies (i : pydata) (r r' : results)
    (o : outcome unit) :
  _validate_area_count i r = (r', o) →
  same_verdict r r' ∧ classifies (overflow i) o.
Proof.
  unfold _validate_area_count, overflow. fold (areas_of i).
  destruct (MAX_AREAS <? length (areas_of i))%nat.
  - destruct (strs _); intros [= <- <-]; by split.
  - destruct (length (areas_of i) =? 0)%nat; intros [= <- <-]; by split.
Qed.

Lemma no_thermal_ids_loop_classifies (areas : list pydict) (r r' : results)
    (o : outcome unit) :
  no_thermal_ids_loop areas r = (r', o) →
  same_verdict r r' ∧ classifies (existsb names_thermal_id areas) o.
Proof.
  revert r. induction areas as [|area areas IH]; intros r.
  - by intros [= <- <-].
  - change (existsb names_thermal_id (area :: areas))
      with (names_thermal_id area || existsb names_thermal_id areas).
    unfold names_thermal_id at 1.
    destruct (area !! "area_name") as [[| | |s|]|] eqn:Hname.
    1-3, 5: cbn [no_thermal_ids_loop]; unfold mbind at 1, check_bind, get_lower;
      rewrite Hname; by intros [= <- <-].
    + rewrite (no_thermal_ids_loop_str _ _ _ _ Hname).
      destruct (existsb _ thermal_patterns).
      * by intros [= <- <-].
      * intros [Hv Hc]%IH. split; [|done].
        destruct (_ || _); [|done]. by etrans; [apply same_verdict_warn|].
    + rewrite (no_thermal_ids_loop_absent _ _ _ Hname). apply IH.
Qed.

Lemma thermal_structure_loop_classifies (n : nat) (readings : list pydict)
    (r r' : results) (o : outcome unit) :
  thermal_structure_loop n readings r = (r', o) →
  same_verdict r r' ∧ classifies (existsb uses_area_for_image_id readings) o.
Proof.
  revert n r. induction readings as [|reading readings IH]; intros n r.
  - by intros [= <- <-].
  - change (existsb uses_area_for_image_id (reading :: readings))
      with (uses_area_for_image_id reading
            || existsb uses_area_for_image_id readings).
    destruct (uses_area_for_image_id reading) eqn:Hc.
    + rewrite (thermal_structure_loop_confused _ _ _ _ Hc).
      by intros [= <- <-].
    + cbn [thermal_structure_loop].
      unfold uses_area_for_image_id in Hc. rewrite Hc.
      unfold mbind, check_bind.
      destruct (reading !! "image_id") as [[|b|z|s|l]|];
        cbv [default from_option id].
      * apply IH.
      * destruct b; [by intros [= <- <-]|apply IH].
      * destruct (negb (truthy (PyInt z))); [apply IH|by intros [= <- <-]].
      * destruct (negb (truthy (PyStr s))); [apply IH|].
        destruct (String.eqb s "Not Available"); [apply IH|].
        destruct (existsb _ common_areas); [|apply IH].
        intros [Hv Ho]%IH. split; [|done].
        by etrans; [apply same_verdict_warn|].
      * destruct (negb (truthy (PyList l))); [apply IH|by intros [= <- <-]].
      * apply IH.
Qed.

Lemma lower_names_classifies (areas : list pydict) (r r' : results)
    (o : outcome (list string)) :
  lower_names areas r = (r', o) → r' = r ∧ classifies false o.
Proof.
  revert r' o. induction areas as [|area areas IH]; intros r' o.
  - by intros [= <- <-].
  - cbn [lower_names]. unfold mbind at 1, check_bind, get_lower.
    destruct (area !! "area_name") as [[| | |s|]|];
      try (by intros [= <- <-]);
      unfold mret at 1, check_ret; unfold mbind, check_bind;
      (destruct (lower_names areas r) as [r1 [names|e]] eqn:Hl;
       destruct (IH _ _ eq_refl) as [-> Hc];
       [by intros [= <- <-]|intros [= <- <-]; by destruct e]).
Qed.

Lemma no_areas_in_thermal_loop_classifies (names : list string)
    (readings : list pydict) (r r' : results) (o : outcome unit) :
  no_areas_in_thermal_loop names readings r = (r', o) →
  same_verdict r r' ∧ classifies false o.
Proof.
  revert r. induction readings as [|reading readings IH]; intros r.
  - by intros [= <- <-].
  - cbn [no_areas_in_thermal_loop].
    unfold mbind at 1, check_bind, get_lower.
    destruct (reading !! "image_id") as [[| | |s|]|];
      try (by intros [= <- <-]);
      unfold mret at 1, check_ret; unfold mbind at 1, check_bind;
      (destruct (existsb _ names);
       [ intros [Hv Ho]%IH; split; [|done];
         by etrans; [apply same_verdict_warn|]
       | apply IH ]).
Qed.

Lemma _validate_no_areas_in_thermal_classifies (i t : pydata)
    (r r' : results) (o : outcome unit) :
  _validate_no_areas_in_thermal i t r = (r', o) →
  same_verdict r r' ∧ classifies false o.
Proof.
  unfold _validate_no_areas_in_thermal, mbind, check_bind.
  destruct (lower_names _ r) as [r1 [names|e]] eqn:Hl;
    destruct (lower_names_classifies _ _ _ _ Hl) as [-> Hc].
  - apply no_areas_in_thermal_loop_classifies.
  - intros [= <- <-]. split; [done|]. by destruct e.
Qed.

Lemma classifies_raises {A B} (c1 c2 : bool) (e : exn) :
  (c1 = true → c2 = true) →
  classifies c1 (Raises e : outcome A) → classifies c2 (Raises e : outcome B).
Proof. destruct e; simpl; auto. Qed.

(** The [try] block on any input. *)
Lemma checks_then_clean_classifies (i t : pydata) (r r' : results)
    (o : outcome (pydata * pydata)) :
  checks_then_clean i t r = (r', o) →
  same_verdict r r'
  ∧ classifies (hard_error i t) o
  ∧ ∀ i' t', o = Returns (i', t') →
      i' = _clean_null_fields i ∧ t' = _clean_null_fields t.
Proof.
  unfold checks_then_clean, hard_error. unfold mbind at 1, check_bind.
  destruct (_validate_area_count i r) as [r1 [[]|e]] eqn:H1;
    destruct (_validate_area_count_classifies _ _ _ _ H1) as [Hv1 Hc1].
  2: { intros [= <- <-]. split_and!; [done| |done].
       eapply classifies_raises; [|exact Hc1]. by intros ->. }
  simpl in Hc1. rewrite Hc1. cbn [orb].
  unfold mbind at 1, check_bind, _validate_no_thermal_ids_in_areas.
  fold (areas_of i).
  destruct (no_thermal_ids_loop (areas_of i) r1) as [r2 [[]|e]] eqn:H2;
    destruct (no_thermal_ids_loop_classifies _ _ _ _ H2) as [Hv2 Hc2].
  2: { intros [= <- <-]. split_and!; [by etrans| |done].
       eapply classifies_raises; [|exact Hc2]. by intros ->. }
  simpl in Hc2. rewrite Hc2. cbn [orb].
  unfold mbind at 1, check_bind, _validate_thermal_structure.
  fold (readings_of t).
  destruct (thermal_structure_loop 0 (readings_of t) r2) as [r3 [[]|e]] eqn:H3;
    destruct (thermal_structure_loop_classifies _ _ _ _ _ H3) as [Hv3 Hc3].
  2: { intros [= <- <-]. split_and!; [by etrans; [|etrans]| |done].
       eapply classifies_raises; [|exact Hc3]. done. }
  simpl in Hc3. rewrite Hc3.
  unfold mbind at 1, check_bind.
  destruct (_validate_no_areas_in_thermal i t r3) as [r4 [[]|e]] eqn:H4;
    destruct (_validate_no_areas_in_thermal_classifies _ _ _ _ _ H4)
      as [Hv4 Hc4].
  2: { intros [= <- <-].
       split_and!; [by etrans; [|etrans; [|etrans]]| |done].
       by destruct e. }
  unfold mret, check_ret. intros [= <- <-].
  split_and!; [by etrans; [|etrans; [|etrans]]|done|].
  by intros i' t' [= <- <-].
Qed.

(** What [validate_all] returns, when it returns: with a hard condition a
    rejection, without one an acceptance. *)
Lemma validate_all_verdict (i t : pydata) (res : validated) :
  validate_all i t = Returns res →
  if hard_error i t then ∃ e, rejected i t e res else accepted i t res.
Proof.
  unfold validate_all. fold initial.
  destruct (checks_then_clean i t initial) as [r o] eqn:Hc.
  destruct (checks_then_clean_classifies _ _ _ _ _ Hc)
    as ([Hb He] & Hclass & Hclean).
  destruct o as [[i' t']|e].
  - destruct (Hclean _ _ eq_refl) as [-> ->]. simpl in Hclass.
    rewrite Hclass. intros [= <-]. by split_and!; simpl.
  - destruct e; try done. simpl in Hclass. rewrite Hclass.
    intros [= <-]. exists msg. split_and!; simpl; [done| |done..].
    by rewrite He.
Qed.

Lemma existsb_elem {A} (f : A → bool) (l : list A) (x : A) :
  x ∈ l → f x = true → existsb f l = true.
Proof.
  intros Hx Hf. apply existsb_exists. exists x.
  split; [by apply list_elem_of_In|done].
Qed.

(** C5.  An area whose name, in whatever case, holds [.jpg], [.jpeg],
    [.png] or a thermal device code makes validation fail with a hard
    error: whenever [validate_all] returns, its result is marked invalid
    and carries one error (it is never only a warning), and the two
    collections come back as received.  It does return when area names
    are strings where present, as in the data model. *)
Theorem thermal_id_in_area_name_is_hard_error
    (inspection_data thermal_data : pydata) (area : pydict)
    (name pattern : string) :
  area ∈ areas_of inspection_data →
  area !! "area_name" = Some (PyStr name) →
  pattern ∈ [".jpg"; ".jpeg"; ".png"; "rb0"; "rb_"; "ir_"; "ir0"] →
  py.contains pattern (py.lower name) = true →
  (∀ res, validate_all inspection_data thermal_data = Returns res →
          ∃ e, rejected inspection_data thermal_data e res)
  ∧ (names_typed inspection_data →
     ∃ res e,
       validate_all inspection_data thermal_data = Returns res
       ∧ rejected inspection_data thermal_data e res).
Proof.
  intros Harea Hname Hpat Hin.
  assert (existsb names_thermal_id (areas_of inspection_data) = true) as Hleak.
  { apply (existsb_elem _ _ area Harea). unfold names_thermal_id.
    rewrite Hname. by apply (existsb_elem _ _ pattern). }
  split.
  - intros res Hres. apply validate_all_verdict in Hres.
    unfold hard_error in Hres. rewrite Hleak, orb_true_r in Hres. done.
  - intros Hi. destruct (overflow inspection_data) eqn:Hov.
    + destruct (validate_all_overflow _ thermal_data Hi Hov)
        as (res & rest & ? & ?); eauto.
    + destruct (validate_all_thermal_id _ thermal_data Hi Hov Hleak)
        as (res & rest & ? & ?); eauto.
Qed.

Lemma thermal_id_in_area_name_is_hard_error_witness :
  ∃ res e,
    validate_all leaked_inspection confused_thermal = Returns res
    ∧ rejected leaked_inspection confused_thermal e res.
Proof.
  apply (λ h1 h2 h3 h4,
           proj2 (thermal_id_in_area_name_is_hard_error leaked_inspection
                    confused_thermal {[ "area_name" := PyStr "IR_0042.jpg" ]}
                    "IR_0042.jpg" ".jpg" h1 h2 h3 h4)).
  - by vm_compute; left.
  - done.
  - left.
  - done.
  - repeat constructor.
Defined.

(** C4.  A thermal reading that has an "area" key and no "image_id" key
    makes validation fail with a hard error: whenever [validate_all]
    returns, its result is marked invalid and carries one error (it is
    never only a warning).  It does return when area names are strings
    where present and image identifiers strings or null. *)
Theorem thermal_reading_keyed_by_area_is_hard_error
    (inspection_data thermal_data : pydata) (reading : pydict) :
  reading ∈ readings_of thermal_data →
  is_Some (reading !! "area") →
  reading !! "image_id" = None →
  (∀ res, validate_all inspection_data thermal_data = Returns res →
          ∃ e, rejected inspection_data thermal_data e res)
  ∧ (names_typed inspection_data → ids_typed_or_null thermal_data →
     ∃ res e,
       validate_all inspection_data thermal_data = Returns res
       ∧ rejected inspection_data thermal_data e res).
Proof.
  intros Hreading [v Harea] Hid.
  assert (hard_error inspection_data thermal_data = true) as Hhard.
  { unfold hard_error. apply orb_true_intro. right.
    apply (existsb_elem _ _ reading Hreading).
    unfold uses_area_for_image_id, is_key. by rewrite Harea, Hid. }
  split.
  - intros res Hres. apply validate_all_verdict in Hres.
    by rewrite Hhard in Hres.
  - intros Hi Ht. by apply validate_all_rejected.
Qed.

Lemma thermal_reading_keyed_by_area_is_hard_error_witness :
  ∃ res e,
    validate_all ∅ confused_thermal = Returns res
    ∧ rejected ∅ confused_thermal e res.
Proof.
  apply (λ h1 h2 h3,
           proj2 (thermal_reading_keyed_by_area_is_hard_error ∅
                    confused_thermal {[ "area" := PyStr "Hall" ]} h1 h2 h3)).
  - by vm_compute; left.
  - by eexists.
  - done.
  - constructor.
  - repeat constructor.
Defined.

(** A null area name is not normalised either: the second check calls
    [lower] on it and the [AttributeError] leaves [validate_all]. *)
Example null_area_name_raises :
  validate_all null_name_inspection ∅ = Raises AttributeError.
Proof. by vm_compute. Qed.

End validator_checks.

(** * Further properties *)

(** ** Strings *)

Ltac str_simpl :=
  rewrite ?append_cons, ?append_nil_l; simpl.

Tactic Notation "str_simpl" "in" hyp(H) :=
  rewrite ?append_cons, ?append_nil_l in H; simpl in H.

Section strings.
Import re_spec.

Lemma append_nil_r (a : string) : a +:+ "" = a.
Proof. induction a as [|c a IH]; str_simpl; [done|by f_equal]. Qed.

Lemma prefix_spec (pat s : string) :
  String.prefix pat s = true ↔ ∃ b, s = pat +:+ b.
Proof.
  revert s. induction pat as [|p pat IH]; intros s.
  - split; [intros _; exists s; by rewrite append_nil_l|by destruct s].
  - destruct s as [|c s]; simpl.
    + split; [done|]. intros [b Hb]. by str_simpl in Hb.
    + destruct (ascii_dec p c) as [->|Hpc].
      * rewrite IH. split; intros [b Hb]; exists b.
        -- str_simpl. by rewrite Hb.
        -- str_simpl in Hb. by injection Hb.
      * split; [done|]. intros [b Hb]. str_simpl in Hb.
        injection Hb as -> _. done.
Qed.

(** [pat in s]: [pat] lies somewhere in [s]. *)
Lemma contains_spec (pat s : string) :
  py.contains pat s = true ↔ ∃ a b, s = a +:+ pat +:+ b.
Proof.
  induction s as [|c s IH]; cbn [py.contains].
  - rewrite prefix_spec. split.
    + intros [b Hb]. exists "", b. by rewrite append_nil_l.
    + intros (a & b & Hab). destruct a; [exists b; by rewrite append_nil_l in Hab|by str_simpl in Hab].
  - rewrite orb_true_iff, prefix_spec, IH. split.
    + intros [[b Hb]|(a & b & Hab)].
      * exists "", b. by rewrite append_nil_l.
      * exists (String c a), b. str_simpl. by rewrite Hab.
    + intros (a & b & Hab). destruct a as [|c' a].
      * left. exists b. by rewrite append_nil_l in Hab.
      * right. str_simpl in Hab. injection Hab as -> ->. by exists a, b.
Qed.

Lemma contains_append (pat a s b : string) :
  py.contains pat s = true → py.contains pat (a +:+ s +:+ b) = true.
Proof.
  rewrite !contains_spec. intros (x & y & ->).
  exists (a +:+ x), (y +:+ b). by rewrite !append_assoc.
Qed.

Lemma contains_part (p q s : string) :
  py.contains (p +:+ q) s = true → py.contains q s = true.
Proof.
  rewrite !contains_spec. intros (x & y & ->).
  exists (x +:+ p), y. by rewrite !append_assoc.
Qed.

Lemma lower_append (a b : string) :
  py.lower (a +:+ b) = py.lower a +:+ py.lower b.
Proof. induction a as [|c a IH]; str_simpl; [done|by rewrite IH]. Qed.

Lemma lower_char_idemp (c : ascii) :
  py.lower_char (py.lower_char c) = py.lower_char c.
Proof. by destruct c as [[] [] [] [] [] [] [] []]. Qed.

Lemma lower_idemp (s : string) : py.lower (py.lower s) = py.lower s.
Proof.
  induction s as [|c s IH]; simpl; [done|]. by rewrite lower_char_idemp, IH.
Qed.

Lemma isspace_lower_char (c : ascii) :
  py.isspace (py.lower_char c) = py.isspace c.
Proof. by destruct c as [[] [] [] [] [] [] [] []]. Qed.

Lemma lstrip_lower (s : string) : py.lstrip (py.lower s) = py.lower (py.lstrip s).
Proof.
  induction s as [|c s IH]; simpl; [done|].
  rewrite isspace_lower_char. by destruct (py.isspace c).
Qed.

Lemma rstrip_lower (s : string) : py.rstrip (py.lower s) = py.lower (py.rstrip s).
Proof.
  induction s as [|c s IH]; simpl; [done|].
  rewrite IH, isspace_lower_char.
  destruct (py.rstrip s); simpl; [by destruct (py.isspace c)|done].
Qed.

(** Lowering and stripping commute. *)
Lemma strip_lower (s : string) : py.strip (py.lower s) = py.lower (py.strip s).
Proof. unfold py.strip. by rewrite lstrip_lower, rstrip_lower. Qed.


Lemma rstrip_idemp (s : string) : py.rstrip (py.rstrip s) = py.rstrip s.
Proof.
  induction s as [|c s IH]; simpl; [done|].
  destruct (py.rstrip s) as [|c' r] eqn:Hr.
  - destruct (py.isspace c) eqn:Hc; simpl; [done|by rewrite Hc].
  - simpl. simpl in IH. by rewrite IH.
Qed.

Lemma lstrip_head (s : string) :
  match py.lstrip s with
  | EmptyString => True
  | String c _ => py.isspace c = false
  end.
Proof.
  induction s as [|c s IH]; simpl; [done|].
  destruct (py.isspace c) eqn:Hc; [done|]. simpl. done.
Qed.

Lemma lstrip_fixed (s : string) :
  match s with
  | EmptyString => True
  | String c _ => py.isspace c = false
  end → py.lstrip s = s.
Proof. destruct s as [|c s]; simpl; [done|]. by intros ->. Qed.

Lemma rstrip_head (s : string) :
  match s with
  | EmptyString => True
  | String c _ => py.isspace c = false
  end →
  match py.rstrip s with
  | EmptyString => s = EmptyString
  | String c _ => py.isspace c = false
  end.
Proof.
  destruct s as [|c s]; simpl; [done|]. intros Hc.
  destruct (py.rstrip s); [by rewrite Hc|done].
Qed.

Lemma strip_idemp (s : string) : py.strip (py.strip s) = py.strip s.
Proof.
  unfold py.strip.
  pose proof (rstrip_head (py.lstrip s) (lstrip_head s)) as Hh.
  rewrite (lstrip_fixed (py.rstrip (py.lstrip s))).
  - apply rstrip_idemp.
  - destruct (py.rstrip (py.lstrip s)); done.
Qed.

End strings.

(** ** validator.py: severity by keywords *)

Section severity_rules.
Import ddr_generator severity.

Lemma keyword_found_append (kws : list string) (a s b : string) :
  existsb (λ kw, py.contains kw (py.lower s)) kws = true →
  existsb (λ kw, py.contains kw (py.lower (a +:+ s +:+ b))) kws = true.
Proof.
  rewrite !existsb_exists. intros (kw & Hin & Hkw). exists kw. split; [done|].
  rewrite !lower_append. by apply contains_append.
Qed.

Lemma apply_rule_based_severity_cases (observation : string) :
  apply_rule_based_severity observation = "High"
  ∨ apply_rule_based_severity observation = "Medium"
  ∨ apply_rule_based_severity observation = "Low".
Proof.
  unfold apply_rule_based_severity.
  destruct (existsb _ high_keywords); [by left|].
  destruct (existsb _ medium_keywords); [right; by left|right; by right].
Qed.

Lemma rank_monotone (h m h' m' : bool) :
  (h = true → h' = true) → (m = true → m' = true) →
  (rank (if h then "High" else if m then "Medium" else "Low")
   ≤ rank (if h' then "High" else if m' then "Medium" else "Low"))%nat.
Proof.
  intros Hh Hm.
  destruct h; [rewrite (Hh eq_refl); vm_compute; lia|].
  destruct m; [rewrite (Hm eq_refl); destruct h'; vm_compute; lia|].
  destruct h'; [vm_compute; lia|]. destruct m'; vm_compute; lia.
Qed.

(** X1.  Text put before or after an observation never lowers the
    severity the keyword rules give it. *)
Theorem severity_monotone_in_context (before observation after : string) :
  (rank (apply_rule_based_severity observation)
   ≤ rank (apply_rule_based_severity (before +:+ observation +:+ after)))%nat.
Proof.
  unfold apply_rule_based_severity.
  apply rank_monotone; apply keyword_found_append.
Qed.

(** X2.  An observation that mentions a crack, in any letter case, is
    rated "High"; so is one that says "minor crack", although that phrase
    is listed among the keywords of "Medium". *)
Theorem minor_crack_is_rated_high (observation : string)
    (Hcrack : py.contains "minor crack" (py.lower observation) = true) :
  py.contains "crack" (py.lower observation) = true
  ∧ apply_rule_based_severity observation = "High".
Proof.
  assert (py.contains "crack" (py.lower observation) = true) as Hc.
  { apply (contains_part "minor " "crack"). exact Hcrack. }
  split; [done|].
  unfold apply_rule_based_severity.
  assert (existsb (λ kw, py.contains kw (py.lower observation)) high_keywords
          = true) as ->; [|done].
  rewrite existsb_exists. exists "crack". split; [|done].
  unfold high_keywords. right. by left.
Qed.

Lemma minor_crack_is_rated_high_witness :
  py.contains "crack" (py.lower "Minor Crack near window") = true
  ∧ apply_rule_based_severity "Minor Crack near window" = "High".
Proof.
  apply (minor_crack_is_rated_high "Minor Crack near window").
  vm_compute. reflexivity.
Defined.

Lemma enrich_severity_set (f : InspectionFinding) :
  severity_indicator
    (with_severity f (apply_rule_based_severity (observation f)))
  ≠ "Not Available".
Proof.
  simpl.
  destruct (apply_rule_based_severity_cases (observation f)) as [->|[->| ->]];
    done.
Qed.

(** X3.  After [enrich_findings_with_severity] no finding has the
    severity "Not Available", and enriching a second time changes
    nothing. *)
Theorem enrich_findings_with_severity_complete
    (findings : list InspectionFinding) :
  Forall (λ f, severity_indicator f ≠ "Not Available")
    (enrich_findings_with_severity findings)
  ∧ enrich_findings_with_severity (enrich_findings_with_severity findings)
    = enrich_findings_with_severity findings.
Proof.
  unfold enrich_findings_with_severity. split.
  - apply Forall_fmap, Forall_forall. intros f _. simpl.
    destruct (String.eqb_spec (severity_indicator f) "Not Available");
      [apply enrich_severity_set|done].
  - rewrite <- list_fmap_compose. apply list_fmap_ext. intros i f _. simpl.
    destruct (String.eqb_spec (severity_indicator f) "Not Available") as [He|He].
    + pose proof (enrich_severity_set f) as Hn.
      apply String.eqb_neq in Hn. by rewrite Hn.
    + apply String.eqb_neq in He. by rewrite He.
Qed.

(** X4.  [enrich_findings_with_severity] keeps the number and order of
    the findings, their areas, observations and causes, and every severity
    that was already set. *)
Theorem enrich_findings_with_severity_frame
    (findings : list InspectionFinding) :
  area <$> enrich_findings_with_severity findings = area <$> findings
  ∧ observation <$> enrich_findings_with_severity findings
    = observation <$> findings
  ∧ possible_cause <$> enrich_findings_with_severity findings
    = possible_cause <$> findings
  ∧ ∀ i f, findings !! i = Some f →
      severity_indicator f ≠ "Not Available" →
      enrich_findings_with_severity findings !! i = Some f.
Proof.
  unfold enrich_findings_with_severity. split_and!.
  - rewrite <- list_fmap_compose. apply list_fmap_ext. intros i f _. simpl.
    by destruct (String.eqb _ _).
  - rewrite <- list_fmap_compose. apply list_fmap_ext. intros i f _. simpl.
    by destruct (String.eqb _ _).
  - rewrite <- list_fmap_compose. apply list_fmap_ext. intros i f _. simpl.
    by destruct (String.eqb _ _).
  - intros i f Hi Hs. rewrite list_lookup_fmap, Hi. simpl.
    apply String.eqb_neq in Hs. by rewrite Hs.
Qed.

Lemma enrich_findings_with_severity_frame_witness :
  let set_already := {| area := "Hall"; observation := "minor crack";
                        severity_indicator := "Low";
                        possible_cause := "Not Available" |} in
  enrich_findings_with_severity [set_already] !! 0 = Some set_already.
Proof.
  intros set_already.
  apply (proj2 (proj2 (proj2
    (enrich_findings_with_severity_frame [set_already])))); done.
Defined.

End severity_rules.

(** ** area_parser.py: more on the segmenter *)

Section segmenter_shape.
Import area_parser segment_spec pipeline_spec.

Lemma sections_names matches text nums :
  Forall (λ a, area_name a = "Impacted Area " +:+ area_number a)
         (sections matches text nums).
Proof.
  induction nums as [|num rest IH]; [constructor|].
  cbn [sections]. by constructor.
Qed.

Lemma extract_returns_sections (text : string) (max_areas : Z)
    (areas : list area_section) :
  let matches := re.finditer re.impacted_area text in
  extract_impacted_areas_from_text text max_areas = Returns areas →
  areas = sections matches text (sort_by_value (numerals matches))
  ∧ (areas = [] ∨ (Z.of_nat (length areas) ≤ max_areas)%Z).
Proof.
  intros matches. unfold extract_impacted_areas_from_text.
  rewrite areas_of_matches_spec. fold matches.
  destruct matches as [|m ms] eqn:Hm.
  - intros [= <-]. split; [done|by left].
  - destruct (sorted (numerals (m :: ms))) as [nums|] eqn:Hs; [|done].
    apply sorted_Returns in Hs as [_ ->]. cbn [mbind outcome_bind].
    case_bool_decide as Hlt; [done|]. intros [= <-]. split; [done|].
    right.
    rewrite <- (length_fmap area_number), sections_numbers, sort_by_value_length.
    lia.
Qed.

(** The two ways the segmenter raises: a numeral beyond the interpreter's
    bound on digits, met in the sort, or more numerals than the ceiling. *)
Lemma extract_raises (text : string) (max_areas : Z) (e : exn) :
  let matches := re.finditer re.impacted_area text in
  extract_impacted_areas_from_text text max_areas = Raises e →
  (∃ num, num ∈ snd <$> matches ∧ ¬ short num
     ∧ e = ValueError (py.int_limit_message (String.length num)))
  ∨ (Forall short (snd <$> matches)
     ∧ ∃ nums, e = ValueError (overflow_message nums max_areas)
               ∧ (max_areas < Z.of_nat (length nums))%Z).
Proof.
  intros matches. unfold extract_impacted_areas_from_text. fold matches.
  destruct (decide (Forall short (numerals matches))) as [Hs|Hl].
  - rewrite (areas_of_matches_short _ _ _ Hs).
    destruct matches as [|m ms] eqn:Hm; [done|].
    case_bool_decide as Hlt; [|done]. intros [= <-]. right. split.
    + rewrite Forall_forall in Hs. apply Forall_forall. intros num Hnum.
      by apply Hs, numerals_elem.
    + eexists. split; [done|]. by rewrite sort_by_value_length.
  - destruct (areas_of_matches_long text max_areas _ Hl)
      as (num & Hnum & Hlong & ->).
    intros [= <-]. left. exists num. split_and!; [|done..].
    by apply numerals_elem.
Qed.

(** X5.  Whatever the numerals of the markers are, the segmenter either
    raises a [ValueError] or returns sections in ascending order of the
    integer value of their numbers; numerals of equal value (as 01 and 1)
    stay in the order of their first occurrence; a result that is not
    empty has at most [max_areas] sections, each named "Impacted Area "
    followed by its number.  The error is the interpreter's, on its bound
    of 4300 digits, as soon as one numeral is longer than that, whatever
    the ceiling; otherwise it is the overflow error. *)
Theorem segmenter_sorts_any_numerals (text : string) (max_areas : Z) :
  let matches := re.finditer re.impacted_area text in
  match extract_impacted_areas_from_text text max_areas with
  | Returns areas =>
      Forall short (snd <$> matches)
      ∧ Sorted int_le (area_number <$> areas)
      ∧ (∀ v, filter (λ num, py.int_value num = v) (area_number <$> areas)
              = filter (λ num, py.int_value num = v) (numerals matches))
      ∧ (areas = [] ∨ (Z.of_nat (length areas) ≤ max_areas)%Z)
      ∧ Forall (λ a, area_name a = "Impacted Area " +:+ area_number a) areas
  | Raises e =>
      (∃ num, num ∈ snd <$> matches ∧ ¬ short num
         ∧ e = ValueError (py.int_limit_message (String.length num)))
      ∨ (Forall short (snd <$> matches)
         ∧ ∃ nums, e = ValueError (overflow_message nums max_areas)
                   ∧ (max_areas < Z.of_nat (length nums))%Z)
  end.
Proof.
  intros matches.
  destruct (extract_impacted_areas_from_text text max_areas) as [areas|e]
    eqn:He.
  - destruct (extract_returns_sections _ _ _ He) as [-> Hlen].
    fold matches in Hlen |- *. rewrite sections_numbers. split_and!.
    + destruct (decide (Forall short (numerals matches))) as [Hs|Hl].
      * rewrite Forall_forall in Hs. apply Forall_forall. intros num Hnum.
        by apply Hs, numerals_elem.
      * unfold extract_impacted_areas_from_text in He. fold matches in He.
        destruct (areas_of_matches_long text max_areas _ Hl)
          as (num & _ & _ & Hr). congruence.
    + apply sort_by_value_Sorted.
    + intros v. apply sort_by_value_stable.
    + done.
    + apply sections_names.
  - exact (extract_raises _ _ _ He).
Qed.

Lemma substring_zero (n : nat) (s : string) : String.substring n 0 s = "".
Proof.
  revert n. induction s as [|c s IH]; intros [|n]; simpl; try done.
Qed.

Lemma slice_empty (start stop : nat) (s : string) :
  (stop ≤ start)%nat → py.slice start stop s = "".
Proof.
  intros Hle. unfold py.slice.
  replace (stop - start) with 0 by lia. apply substring_zero.
Qed.

Lemma sections_lookup matches text nums i a :
  sections matches text nums !! i = Some a →
  ∃ num, nums !! i = Some num
    ∧ area_number a = num
    ∧ text_chunk a
      = py.slice (default 0 (first_position matches num))
          (match nums !! S i with
           | Some next => default 0 (first_position matches next)
           | None => String.length text
           end) text.
Proof.
  revert i. induction nums as [|num rest IH]; intros i; [done|].
  destruct i as [|i]; cbn [sections].
  - intros [= <-]. exists num. split_and!; try done. simpl.
    by destruct rest.
  - intros Hi. apply (IH i) in Hi as (num' & Hn & Ha & Hc).
    exists num'. split_and!; done.
Qed.

(** X6.  A section ends where the section of the next number starts.
    When that next number has its first marker at or before this
    section's own marker, the section gets the empty chunk: its text goes
    to no section of its own. *)
Theorem out_of_order_marker_empties_chunk (text : string) (max_areas : Z)
    (areas : list area_section) (i : nat) (a b : area_section) :
  let matches := re.finditer re.impacted_area text in
  extract_impacted_areas_from_text text max_areas = Returns areas →
  areas !! i = Some a → areas !! S i = Some b →
  text_chunk a = py.slice (start_of matches a) (start_of matches b) text
  ∧ ((start_of matches b ≤ start_of matches a)%nat → text_chunk a = "").
Proof.
  intros matches He Ha Hb.
  destruct (extract_returns_sections _ _ _ He) as [-> _]. fold matches in Ha, Hb.
  apply sections_lookup in Ha as (num & Hi & Hnum & Hchunk).
  apply sections_lookup in Hb as (next & Hi' & Hnext & _).
  rewrite Hi' in Hchunk. unfold start_of. rewrite Hnum, Hnext.
  split; [done|]. intros Hle. rewrite Hchunk. by apply slice_empty.
Qed.

Lemma out_of_order_marker_empties_chunk_witness :
  text_chunk {| area_number := "1"; area_name := "Impacted Area 1";
                text_chunk := "" |} = "".
Proof.
  refine (proj2 (out_of_order_marker_empties_chunk
    "Impacted Area 2 kitchen Impacted Area 1 hall" 20
    [{| area_number := "1"; area_name := "Impacted Area 1"; text_chunk := "" |};
     {| area_number := "2"; area_name := "Impacted Area 2";
        text_chunk := "Impacted Area 2 kitchen Impacted Area 1 hall" |}]
    0 _ _ _ _ _) _).
  - vm_compute. reflexivity.
  - reflexivity.
  - reflexivity.
  - vm_compute. lia.
Defined.

End segmenter_shape.

Section segmenter_tiling.
Import area_parser segment_spec pipeline_spec.

Lemma substring_split (a b c : nat) (s : string) :
  (a ≤ b)%nat → (b ≤ c)%nat →
  String.substring a (b - a) s +:+ String.substring b (c - b) s
  = String.substring a (c - a) s.
Proof.
  revert a b c. induction s as [|ch s IH]; intros a b c Hab Hbc.
  - destruct a, b, c; simpl; try done; try lia;
      destruct (_ - _); by rewrite ?append_nil_l.
  - destruct a as [|a].
    + destruct b as [|b].
      * rewrite substring_zero, append_nil_l. done.
      * destruct c as [|c]; [lia|]. simpl. rewrite append_cons. f_equal.
        specialize (IH 0 b c). rewrite !Nat.sub_0_r in IH. apply IH; lia.
    + destruct b as [|b]; [lia|]. destruct c as [|c]; [lia|]. simpl.
      apply IH; lia.
Qed.

Lemma occurrences_positions {G} (m : re.matcher G) (pos : nat) (s : string) :
  Forall (λ x, (x.1 < pos + String.length s)%nat) (re_spec.occurrences m pos s).
Proof.
  revert pos. induction s as [|c s IH]; intros pos; [constructor|].
  cbn [re_spec.occurrences].
  assert (Forall (λ x : nat * G, (x.1 < pos + String.length (String c s))%nat)
            (re_spec.occurrences m (S pos) s)) as Hrest.
  { eapply Forall_impl; [apply IH|]. intros x Hx. simpl in *. lia. }
  destruct (m (String c s)) as [[len g]|]; [|done].
  constructor; [simpl; lia|done].
Qed.

Lemma first_position_bound (text : string) (num : string) :
  (default 0 (first_position (re.finditer re.impacted_area text) num)
   ≤ String.length text)%nat.
Proof.
  rewrite finditer_impacted_area. unfold first_position.
  destruct (head _) as [[p n]|] eqn:Hh; simpl; [|lia].
  apply head_Some_elem_of in Hh. unfold with_key in Hh.
  apply list_elem_of_filter in Hh as [_ Hin].
  pose proof (occurrences_positions re.impacted_area 0 text) as Hall.
  rewrite Forall_forall in Hall. apply Hall in Hin. simpl in Hin. lia.
Qed.

Lemma sections_tile matches text num nums :
  Sorted le ((λ n, default 0 (first_position matches n)) <$> num :: nums) →
  Forall (λ n, (default 0 (first_position matches n) ≤ String.length text)%nat)
         (num :: nums) →
  chunk_text (sections matches text (num :: nums))
  = py.slice (default 0 (first_position matches num)) (String.length text) text.
Proof.
  revert num. induction nums as [|next rest IH]; intros num Hs Hb.
  - simpl. apply append_nil_r.
  - change (chunk_text (sections matches text (num :: next :: rest)))
      with (py.slice (default 0 (first_position matches num))
                     (default 0 (first_position matches next)) text
            +:+ chunk_text (sections matches text (next :: rest))).
    rewrite fmap_cons in Hs. apply Sorted_inv in Hs as [Hs Hhd].
    apply Forall_cons in Hb as [_ Hb].
    rewrite (IH next Hs Hb). unfold py.slice. apply substring_split.
    + rewrite fmap_cons in Hhd. by apply HdRel_inv in Hhd.
    + by apply Forall_cons in Hb as [Hb _].
Qed.

(** X7.  When the first markers of the numbers come in the order of the
    numbers, the chunks of the result, put one after the other, are the
    text from the first of those markers to its end: nothing after that
    marker is lost and nothing is given twice. *)
Theorem chunks_tile_text (text : string) (max_areas : Z)
    (areas : list area_section) (first : area_section) :
  let matches := re.finditer re.impacted_area text in
  extract_impacted_areas_from_text text max_areas = Returns areas →
  head areas = Some first →
  Sorted le (start_of matches <$> areas) →
  chunk_text areas
  = py.slice (start_of matches first) (String.length text) text.
Proof.
  intros matches He Hfirst Hs.
  destruct (extract_returns_sections _ _ _ He) as [Ha _].
  fold matches in Ha.
  assert (start_of matches <$> areas
          = (λ n, default 0 (first_position matches n))
              <$> sort_by_value (numerals matches)) as Hpos.
  { rewrite <- (sections_numbers matches text (sort_by_value (numerals matches))) at 1.
    rewrite <- Ha, <- list_fmap_compose. done. }
  rewrite Hpos in Hs. rewrite Ha in Hfirst |- *.
  destruct (sort_by_value (numerals matches)) as [|num nums]; [done|].
  injection Hfirst as <-. unfold start_of. cbn [area_number].
  apply sections_tile; [done|].
  apply Forall_forall. intros n _. apply first_position_bound.
Qed.

Lemma chunks_tile_text_witness :
  chunk_text
    [{| area_number := "1"; area_name := "Impacted Area 1";
        text_chunk := "Impacted Area 1 hall " |};
     {| area_number := "2"; area_name := "Impacted Area 2";
        text_chunk := "Impacted Area 2 kitchen" |}]
  = py.slice 3 47 "so Impacted Area 1 hall Impacted Area 2 kitchen".
Proof.
  apply (chunks_tile_text
    "so Impacted Area 1 hall Impacted Area 2 kitchen" 20 _
    {| area_number := "1"; area_name := "Impacted Area 1";
       text_chunk := "Impacted Area 1 hall " |}).
  - vm_compute. reflexivity.
  - reflexivity.
  - vm_compute. repeat constructor.
Defined.

End segmenter_tiling.

(** ** area_parser.py: more on the reducer *)

Section reducer_more.
Import area_parser merge_spec segment_spec pipeline_spec.

Lemma concat_fmap_alter {A B} (f : A → list B) (g : A → A) (extra : list B)
    (i : nat) (l : list A) (x : A) :
  l !! i = Some x → f (g x) = f x ++ extra →
  concat (f <$> alter g i l) ≡ₚ concat (f <$> l) ++ extra.
Proof.
  revert i. induction l as [|y l IH]; intros i Hi Hg; [done|].
  destruct i as [|i]; simpl in *.
  - injection Hi as ->. rewrite Hg. rewrite <- !app_assoc.
    apply Permutation_app_head, Permutation_app_comm.
  - rewrite (IH i Hi Hg). by rewrite app_assoc.
Qed.

Lemma reducer_inv_index l st k i :
  reducer_inv l st → seen_rooms st !! k = Some i →
  is_Some (parsed_areas st !! i).
Proof.
  intros [Hp Hs] Hk. apply Hs in Hk. apply lookup_lt_is_Some.
  apply lookup_lt_Some in Hk. rewrite length_fmap in Hk.
  rewrite Hp. unfold merged. by rewrite length_fmap.
Qed.

Lemma reduce_area_observations l st x :
  reducer_inv l st →
  concat (negative_observations <$> parsed_areas (reduce_area st x.1 x.2))
  ≡ₚ concat (negative_observations <$> parsed_areas st)
     ++ descr_negative_observations x.2
  ∧ concat (positive_observations <$> parsed_areas (reduce_area st x.1 x.2))
    ≡ₚ concat (positive_observations <$> parsed_areas st)
       ++ descr_positive_observations x.2.
Proof.
  intros Hinv. unfold reduce_area.
  destruct (match descr_area_name x.2 with
            | Some room => if py.truthy_str room
                           then (room, unnamed_count st)
                           else (area_name x.1, S (unnamed_count st))
            | None => (area_name x.1, S (unnamed_count st))
            end) as [name unnamed].
  destruct (seen_rooms st !! normalize_area name) as [i|] eqn:Hk; simpl.
  - destruct (reducer_inv_index _ _ _ _ Hinv Hk) as [r Hr].
    split; by apply (concat_fmap_alter _ _ _ _ _ r).
  - rewrite !fmap_app, !concat_app. simpl. by rewrite !app_nil_r.
Qed.

(** X8.  Merging loses and invents no observation: the negative
    observations of the areas returned are, up to their order, those of
    all sections, and so are the positive ones. *)
Theorem merging_keeps_every_observation
    (described : list (area_section * descriptions)) :
  let result := parsed_areas (reduce_areas described) in
  concat (negative_observations <$> result)
  ≡ₚ concat ((λ x, descr_negative_observations x.2) <$> described)
  ∧ concat (positive_observations <$> result)
    ≡ₚ concat ((λ x, descr_positive_observations x.2) <$> described).
Proof.
  simpl. induction described as [|x l IH] using rev_ind; [done|].
  rewrite reduce_areas_snoc.
  destruct (reduce_area_observations l _ x (reduce_areas_inv l)) as [Hn Hp].
  destruct IH as [IHn IHp].
  rewrite !fmap_app, !concat_app. simpl. rewrite !app_nil_r.
  split; [by rewrite Hn, IHn|by rewrite Hp, IHp].
Qed.

Lemma with_key_NoDup {A} (key : A → string) (l : list A) (x : A) :
  NoDup (key <$> l) → x ∈ l → with_key key (key x) l = [x].
Proof.
  unfold with_key. induction l as [|y l IH]; intros Hnd Hin.
  - by apply elem_of_nil in Hin.
  - rewrite fmap_cons in Hnd. apply NoDup_cons in Hnd as [Hy Hnd].
    rewrite filter_cons. apply elem_of_cons in Hin as [->|Hin].
    + rewrite decide_True by done. f_equal.
      apply (with_key_nil key (key y) l Hy).
    + rewrite decide_False; [by apply IH|].
      intros Heq. apply Hy. rewrite Heq. by apply list_elem_of_fmap_2.
Qed.

(** X9.  When no two sections share a normalised label, nothing is
    merged: the result has one area per section, in the order of the
    sections, each with the section's chosen name and its own
    observations. *)
Theorem distinct_labels_pass_through
    (described : list (area_section * descriptions)) :
  NoDup (label <$> described) →
  parsed_areas (reduce_areas described) = room_of <$> described.
Proof.
  intros Hnd. rewrite reduce_areas_merged. unfold merged.
  rewrite (firsts_id label described Hnd).
  apply list_fmap_ext. intros i x Hi.
  unfold merged_room, room_of.
  rewrite (with_key_NoDup label described x Hnd)
    by (by eapply list_elem_of_lookup_2).
  simpl. by rewrite !app_nil_r.
Qed.

Lemma distinct_labels_pass_through_witness :
  let section n := {| area_number := n; area_name := "Impacted Area " +:+ n;
                      text_chunk := "" |} in
  let hall := (section "1", {| descr_area_name := Some "Hall";
                               descr_negative_observations := ["Hall Skirting level Dampness"];
                               descr_positive_observations := [] |}) in
  let unnamed := (section "2", {| descr_area_name := None;
                                  descr_negative_observations := ["tile hollowness"];
                                  descr_positive_observations := [] |}) in
  parsed_areas (reduce_areas [hall; unnamed]) = room_of <$> [hall; unnamed].
Proof.
  intros section hall unnamed.
  apply (distinct_labels_pass_through [hall; unnamed]).
  refine (bool_decide_unpack _ _). vm_compute. exact I.
Defined.

Lemma describe_areas_length (describe : string → outcome descriptions)
    (areas : list area_section)
    (described : list (area_section * descriptions)) :
  describe_areas describe areas = Returns described →
  length described = length areas.
Proof.
  revert described. induction areas as [|a areas IH]; intros described.
  - by intros [= <-].
  - cbn [describe_areas]. destruct (describe (text_chunk a)) as [d|e]; [|done].
    simpl. destruct (describe_areas describe areas) as [ds|e]; [|done].
    simpl. intros [= <-]. simpl. f_equal. by apply IH.
Qed.

Lemma reduce_areas_length (described : list (area_section * descriptions)) :
  (length (parsed_areas (reduce_areas described)) ≤ length described)%nat.
Proof.
  rewrite reduce_areas_merged. unfold merged. rewrite length_fmap.
  apply sublist_length, firsts_sublist.
Qed.

(** X10.  Whatever the describer does, [parse_inspection_deterministically]
    never returns more than 20 areas, and never more areas than the
    segmenter found sections; the overflow of the segmenter ends the
    parse with the segmenter's exception. *)
Theorem parse_returns_at_most_20_areas
    (describe : string → outcome descriptions) (text : string) :
  match parse_inspection_deterministically describe text with
  | Returns rooms =>
      (length rooms ≤ 20)%nat
      ∧ ∃ areas, extract_impacted_areas_from_text text 20 = Returns areas
                 ∧ (length rooms ≤ length areas)%nat
  | Raises e =>
      extract_impacted_areas_from_text text 20 = Raises e
      ∨ ∃ areas, extract_impacted_areas_from_text text 20 = Returns areas
                 ∧ describe_areas describe areas = Raises e
  end.
Proof.
  unfold parse_inspection_deterministically.
  destruct (extract_impacted_areas_from_text text 20) as [areas|e] eqn:He;
    simpl; [|by left].
  destruct (describe_areas describe areas) as [described|e] eqn:Hd; simpl.
  - pose proof (reduce_areas_length described) as Hlen.
    rewrite (describe_areas_length _ _ _ Hd) in Hlen.
    split; [|by exists areas].
    destruct (extract_returns_sections _ _ _ He) as [_ [->|Hle]];
      [simpl in Hlen|]; lia.
  - right. by exists areas.
Qed.

End reducer_more.

(** ** ddr_generator.py: more on the thermal readings and the generator *)

Section generator_more.
Import ddr_generator.

(** X11.  De-duplicating twice is de-duplicating once, and readings whose
    identifiers are all distinct come back as they are. *)
Theorem deduplicate_idempotent (thermal_findings : list ThermalFinding) :
  deduplicate (deduplicate thermal_findings) = deduplicate thermal_findings
  ∧ (NoDup (image_id <$> thermal_findings) →
     deduplicate thermal_findings = thermal_findings).
Proof.
  rewrite !deduplicate_firsts. split; [apply firsts_idemp|apply firsts_id].
Qed.

Lemma deduplicate_idempotent_witness :
  let reading id :=
    {| image_id := id; temperature_reading := "Hot: 28.8, Cold: 23.4";
       thermal_interpretation := "Not Available" |} in
  deduplicate [reading "A.JPG"; reading "B.JPG"]
  = [reading "A.JPG"; reading "B.JPG"].
Proof.
  intros reading.
  apply (proj2 (deduplicate_idempotent [reading "A.JPG"; reading "B.JPG"])).
  refine (bool_decide_unpack _ _). vm_compute. exact I.
Defined.

(** A response that carries text goes the way of
    [ddr_generator.generate_ddr]. *)
Lemma generate_ddr_with_text
    (prepare : list InspectionFinding → list ThermalFinding → string)
    (format : nat → nat → string → string)
    (model : string → outcome string)
    (inspection_findings : list InspectionFinding)
    (thermal_findings : list ThermalFinding) :
  ddr_generator_response.generate_ddr prepare format
    (λ prompt, text ← model prompt; Returns (Some text))
    inspection_findings thermal_findings
  = generate_ddr prepare format model inspection_findings thermal_findings.
Proof.
  unfold ddr_generator_response.generate_ddr, generate_ddr.
  destruct (deduplicate_and_assert thermal_findings) as [thermal|e];
    [|done].
  cbn [mbind outcome_bind]. by destruct (model _).
Qed.

(** X12.  [generate_ddr] fails in three ways only: with the exception of
    the call of the model; with a [TypeError] when the response carries
    no text, raised by the preview before any count is taken; or with the
    entity-lock [ValueError] when the text of the model has another
    number of area headings than there are inspection findings.  The
    assertion on the thermal readings never fails.  The serialisation of
    the payload and the filling of the prompt are taken as given. *)
Theorem generate_ddr_failures
    (prepare : list InspectionFinding → list ThermalFinding → string)
    (format : nat → nat → string → string)
    (model : string → outcome (option string))
    (inspection_findings : list InspectionFinding)
    (thermal_findings : list ThermalFinding) (e : exn) :
  let prompt :=
    format (length inspection_findings)
      (length (deduplicate thermal_findings))
      (prepare inspection_findings (deduplicate thermal_findings)) in
  ddr_generator_response.generate_ddr prepare format model
    inspection_findings thermal_findings
  = Raises e →
  model prompt = Raises e
  ∨ (model prompt = Returns None ∧ e = TypeError)
  ∨ ∃ ddr_text,
      model prompt = Returns (Some ddr_text)
      ∧ length (re.finditer re.area_heading ddr_text)
        ≠ length inspection_findings
      ∧ e = ValueError (entity_lock_message
              (Z.of_nat (length inspection_findings))
              (length (re.finditer re.area_heading ddr_text))).
Proof.
  intros prompt. unfold ddr_generator_response.generate_ddr.
  rewrite deduplicate_and_assert_returns. simpl. fold prompt.
  destruct (model prompt) as [[ddr_text|]|e'] eqn:Hm; simpl.
  - rewrite _validate_entity_count_spec. case_bool_decide as Hc; [done|].
    simpl. intros [= <-]. right. right. exists ddr_text.
    split_and!; [done| |done].
    intros Heq. apply Hc. by rewrite Heq.
  - intros [= <-]. right. by left.
  - intros [= <-]. by left.
Qed.

Lemma generate_ddr_failures_witness :
  let model : string → outcome (option string) := λ _, Returns None in
  model "p" = Raises TypeError
  ∨ (model "p" = Returns None ∧ TypeError = TypeError)
  ∨ ∃ ddr_text,
      model "p" = Returns (Some ddr_text)
      ∧ length (re.finditer re.area_heading ddr_text)
        ≠ length ([] : list InspectionFinding)
      ∧ TypeError = ValueError (entity_lock_message
              (Z.of_nat (length ([] : list InspectionFinding)))
              (length (re.finditer re.area_heading ddr_text))).
Proof.
  intros model.
  apply (generate_ddr_failures (λ _ _, "{}") (λ _ _ _, "p") model [] []
           TypeError).
  reflexivity.
Defined.

(** X30.  [generate_ddr] returns a text exactly when the response of the
    model carries that text and the text has as many area headings as
    there are inspection findings; the text comes back unchanged. *)
Theorem generate_ddr_returns_checked_text
    (prepare : list InspectionFinding → list ThermalFinding → string)
    (format : nat → nat → string → string)
    (model : string → outcome (option string))
    (inspection_findings : list InspectionFinding)
    (thermal_findings : list ThermalFinding) (out : string) :
  let prompt :=
    format (length inspection_findings)
      (length (deduplicate thermal_findings))
      (prepare inspection_findings (deduplicate thermal_findings)) in
  ddr_generator_response.generate_ddr prepare format model
    inspection_findings thermal_findings
  = Returns out
  ↔ model prompt = Returns (Some out)
    ∧ length (re.finditer re.area_heading out) = length inspection_findings.
Proof.
  intros prompt. unfold ddr_generator_response.generate_ddr.
  rewrite deduplicate_and_assert_returns. simpl. fold prompt.
  destruct (model prompt) as [[ddr_text|]|e'] eqn:Hm; simpl.
  - rewrite _validate_entity_count_spec. case_bool_decide as Hc; simpl.
    + split.
      * intros [= <-]. split; [done|]. by apply Nat2Z.inj.
      * by intros [[= <-] _].
    + split; [done|]. intros [[= <-] Hlen]. destruct Hc. by rewrite Hlen.
  - split; [done|]. by intros [? _].
  - split; [done|]. by intros [? _].
Qed.

(** The three ways, run: the call raises, the response has no text, the
    text has one heading for two findings. *)
Example generate_ddr_three_failures :
  let finding name :=
    {| area := name; observation := "Dampness";
       severity_indicator := "Not Available";
       possible_cause := "Not Available" |} in
  let run model :=
    ddr_generator_response.generate_ddr (λ _ _, "{}") (λ _ _ _, "p") model
      [finding "Hall"; finding "Kitchen"] [] in
  run (λ _, Raises (Exception "quota")) = Raises (Exception "quota")
  ∧ run (λ _, Returns None) = Raises TypeError
  ∧ run (λ _, Returns (Some "**Area 1: Hall**"))
    = Raises (ValueError (entity_lock_message 2 1))
  ∧ run (λ _, Returns (Some "**Area 1: Hall** **Area 2: Kitchen**"))
    = Returns "**Area 1: Hall** **Area 2: Kitchen**".
Proof. by vm_compute. Qed.

End generator_more.

(** ** validator.py: the normal form of the data *)

Section validator_more.
Import validator validator_spec.

Lemma truthy_or_sentinel_truthy (v : option pyval) :
  truthy_get (truthy_or_sentinel v) = true.
Proof. unfold truthy_or_sentinel. by destruct (truthy_get v) eqn:Hv. Qed.

Lemma list_or_empty_list (v : option pyval) :
  is_list_get (list_or_empty v) = true.
Proof. unfold list_or_empty. by destruct (is_list_get v) eqn:Hv. Qed.

Lemma truthy_or_sentinel_idemp (v : option pyval) :
  truthy_or_sentinel (truthy_or_sentinel v) = truthy_or_sentinel v.
Proof.
  unfold truthy_or_sentinel at 1. by rewrite truthy_or_sentinel_truthy.
Qed.

Lemma list_or_empty_idemp (v : option pyval) :
  list_or_empty (list_or_empty v) = list_or_empty v.
Proof. unfold list_or_empty at 1. by rewrite list_or_empty_list. Qed.

Lemma clean_area_idemp (area : pydict) :
  clean_area (clean_area area) = clean_area area.
Proof.
  apply map_eq. intros k. rewrite clean_area_lookup.
  case_bool_decide as H1.
  - rewrite clean_area_lookup, bool_decide_eq_true_2 by done.
    apply truthy_or_sentinel_idemp.
  - case_bool_decide as H2; [|done].
    rewrite clean_area_lookup, bool_decide_eq_false_2 by done.
    rewrite bool_decide_eq_true_2 by done. apply list_or_empty_idemp.
Qed.

Lemma clean_reading_idemp (reading : pydict) :
  clean_reading (clean_reading reading) = clean_reading reading.
Proof.
  apply map_eq. intros k. rewrite clean_reading_lookup.
  case_bool_decide as H1; [|done].
  rewrite clean_reading_lookup, bool_decide_eq_true_2 by done.
  apply truthy_or_sentinel_idemp.
Qed.

Lemma _clean_null_fields_idemp (data : pydata) :
  _clean_null_fields (_clean_null_fields data) = _clean_null_fields data.
Proof.
  apply map_eq. intros key.
  destruct (decide (key = "areas")) as [->|H1];
    [|destruct (decide (key = "thermal_readings")) as [->|H2]].
  - rewrite _clean_null_fields_areas.
    destruct (_clean_null_fields data !! "areas") as [areas|] eqn:Ha; [|done].
    simpl. f_equal. rewrite _clean_null_fields_areas in Ha.
    destruct (data !! "areas") as [areas0|]; [|done]. injection Ha as <-.
    rewrite <- list_fmap_compose. apply list_fmap_ext. intros i a _. simpl.
    apply clean_area_idemp.
  - rewrite _clean_null_fields_readings.
    destruct (_clean_null_fields data !! "thermal_readings") as [readings|]
      eqn:Hr; [|done].
    simpl. f_equal. rewrite _clean_null_fields_readings in Hr.
    destruct (data !! "thermal_readings") as [readings0|]; [|done].
    injection Hr as <-.
    rewrite <- list_fmap_compose. apply list_fmap_ext. intros i a _. simpl.
    apply clean_reading_idemp.
  - by rewrite _clean_null_fields_other.
Qed.

Lemma areas_of_clean (data : pydata) :
  areas_of (_clean_null_fields data) = clean_area <$> areas_of data.
Proof.
  unfold areas_of. rewrite _clean_null_fields_areas.
  by destruct (data !! "areas").
Qed.

Lemma readings_of_clean (data : pydata) :
  readings_of (_clean_null_fields data) = clean_reading <$> readings_of data.
Proof.
  unfold readings_of. rewrite _clean_null_fields_readings.
  by destruct (data !! "thermal_readings").
Qed.

(** X13.  [_clean_null_fields] gives a normal form: in its result every
    area has a truthy name and two lists of observations, every thermal
    reading has its five fields truthy, and cleaning the result again
    changes nothing. *)
Theorem clean_null_fields_normal_form (data : pydata) :
  Forall (λ area : pydict,
            truthy_get (area !! "area_name") = true
            ∧ is_list_get (area !! "negative_observations") = true
            ∧ is_list_get (area !! "positive_observations") = true)
         (areas_of (_clean_null_fields data))
  ∧ Forall (λ reading : pydict,
              Forall (λ field, truthy_get (reading !! field) = true)
                     reading_fields)
           (readings_of (_clean_null_fields data))
  ∧ _clean_null_fields (_clean_null_fields data) = _clean_null_fields data.
Proof.
  split_and!.
  - rewrite areas_of_clean. apply Forall_fmap, Forall_forall. intros a _.
    simpl. rewrite !clean_area_lookup. simpl.
    split_and!; [apply truthy_or_sentinel_truthy|apply list_or_empty_list..].
  - rewrite readings_of_clean. apply Forall_fmap, Forall_forall. intros a _.
    simpl. apply Forall_forall. intros field Hf.
    rewrite clean_reading_lookup, bool_decide_eq_true_2 by done.
    apply truthy_or_sentinel_truthy.
  - apply _clean_null_fields_idemp.
Qed.

Lemma no_thermal_ids_loop_typed (areas : list pydict) (r r' : results) :
  no_thermal_ids_loop areas r = (r', Returns tt) →
  Forall (λ area : pydict, str_or_absent (area !! "area_name")) areas.
Proof.
  revert r. induction areas as [|area areas IH]; intros r; [done|].
  destruct (area !! "area_name") as [[| | |s|]|] eqn:Hname.
  1-3, 5: cbn [no_thermal_ids_loop]; unfold mbind at 1, check_bind, get_lower;
    rewrite Hname; by intros [=].
  - rewrite (no_thermal_ids_loop_str _ _ _ _ Hname).
    destruct (existsb _ thermal_patterns); [done|].
    intros H%IH. constructor; [by rewrite Hname|done].
  - rewrite (no_thermal_ids_loop_absent _ _ _ Hname).
    intros H%IH. constructor; [by rewrite Hname|done].
Qed.

Lemma no_areas_in_thermal_loop_typed (names : list string)
    (readings : list pydict) (r r' : results) :
  no_areas_in_thermal_loop names readings r = (r', Returns tt) →
  Forall (λ reading : pydict, str_or_absent (reading !! "image_id")) readings.
Proof.
  revert r. induction readings as [|reading readings IH]; intros r; [done|].
  cbn [no_areas_in_thermal_loop].
  unfold mbind at 1, check_bind, get_lower.
  destruct (reading !! "image_id") as [[| | |s|]|] eqn:Hid;
    try (by intros [=]);
    unfold mret at 1, check_ret; unfold mbind at 1, check_bind.
  all: destruct (existsb _ names); intros H%IH.
  all: constructor; [by rewrite Hid|done].
Qed.

Lemma checks_then_clean_typed (i t i' t' : pydata) (r r' : results) :
  checks_then_clean i t r = (r', Returns (i', t')) →
  names_typed i ∧ ids_typed t.
Proof.
  unfold checks_then_clean. unfold mbind at 1, check_bind.
  destruct (_validate_area_count i r) as [r1 [[]|e]]; [|done].
  unfold mbind at 1, check_bind, _validate_no_thermal_ids_in_areas.
  fold (areas_of i).
  destruct (no_thermal_ids_loop (areas_of i) r1) as [r2 [[]|e]] eqn:H2;
    [|done].
  unfold mbind at 1, check_bind.
  destruct (_validate_thermal_structure t r2) as [r3 [[]|e]]; [|done].
  unfold mbind at 1, check_bind, _validate_no_areas_in_thermal.
  unfold mbind at 1, check_bind.
  destruct (lower_names _ r3) as [r4 [names|e]]; [|done].
  fold (readings_of t).
  destruct (no_areas_in_thermal_loop names (readings_of t) r4)
    as [r5 [[]|e]] eqn:H4; [|done].
  intros _. split.
  - by eapply no_thermal_ids_loop_typed.
  - by eapply no_areas_in_thermal_loop_typed.
Qed.

Lemma str_or_absent_sentinel (v : option pyval) :
  str_or_absent v → str_or_absent (truthy_or_sentinel v).
Proof. unfold truthy_or_sentinel. by destruct (truthy_get v). Qed.

Lemma names_typed_clean (i : pydata) :
  names_typed i → names_typed (_clean_null_fields i).
Proof.
  unfold names_typed. rewrite areas_of_clean. intros H.
  apply Forall_fmap. eapply Forall_impl; [exact H|]. intros a Ha. simpl.
  rewrite clean_area_lookup. simpl. by apply str_or_absent_sentinel.
Qed.

Lemma ids_typed_clean (t : pydata) :
  ids_typed t → ids_typed (_clean_null_fields t).
Proof.
  unfold ids_typed. rewrite readings_of_clean. intros H.
  apply Forall_fmap. eapply Forall_impl; [exact H|]. intros a Ha. simpl.
  rewrite clean_reading_lookup. simpl. by apply str_or_absent_sentinel.
Qed.

Lemma names_thermal_id_clean (area : pydict) :
  names_thermal_id area = false → names_thermal_id (clean_area area) = false.
Proof.
  unfold names_thermal_id. rewrite clean_area_lookup. simpl.
  unfold truthy_or_sentinel.
  destruct (truthy_get (area !! "area_name")); [done|].
  intros _. vm_compute. reflexivity.
Qed.

Lemma uses_area_for_image_id_clean (reading : pydict) :
  uses_area_for_image_id (clean_reading reading) = false.
Proof.
  unfold uses_area_for_image_id, is_key.
  rewrite (clean_reading_lookup reading "image_id"). simpl.
  unfold truthy_or_sentinel.
  destruct (truthy_get (reading !! "image_id")) eqn:Hid.
  - destruct (reading !! "image_id"); [|done]. simpl. apply andb_false_r.
  - simpl. apply andb_false_r.
Qed.

Lemma existsb_fmap_false {A} (f : A → bool) (g : A → A) (l : list A) :
  (∀ x, f x = false → f (g x) = false) →
  existsb f l = false → existsb f (g <$> l) = false.
Proof.
  intros Hg. induction l as [|x l IH]; [done|].
  rewrite fmap_cons. cbn [existsb].
  intros [Hx Hl]%orb_false_iff. by rewrite (Hg _ Hx), IH.
Qed.

Lemma hard_error_clean (i t : pydata) :
  hard_error i t = false →
  hard_error (_clean_null_fields i) (_clean_null_fields t) = false.
Proof.
  unfold hard_error, overflow.
  intros [[H1 H2]%orb_false_iff H3]%orb_false_iff.
  rewrite areas_of_clean, readings_of_clean, length_fmap, H1. simpl.
  rewrite (existsb_fmap_false _ _ _ names_thermal_id_clean H2). simpl.
  apply existsb_fmap_false; [|done].
  intros x _. apply uses_area_for_image_id_clean.
Qed.

(** X14.  Data that [validate_all] has accepted is accepted again, and
    comes back as it went in: validating the returned collections gives
    the same collections and the same counts, with no error. *)
Theorem accepted_data_validates_again (inspection_data thermal_data : pydata)
    (res : validated) :
  validate_all inspection_data thermal_data = Returns res →
  valid (validation res) = true →
  ∃ res',
    validate_all (inspection res) (thermal res) = Returns res'
    ∧ valid (validation res') = true
    ∧ errors (validation res') = []
    ∧ inspection res' = inspection res
    ∧ thermal res' = thermal res
    ∧ area_count (validation res') = area_count (validation res)
    ∧ thermal_count (validation res') = thermal_count (validation res).
Proof.
  intros Hres Hvalid.
  assert (hard_error inspection_data thermal_data = false
          ∧ names_typed inspection_data ∧ ids_typed thermal_data)
    as (Hhard & Hnames & Hids).
  { revert Hres. unfold validate_all. fold initial.
    destruct (checks_then_clean inspection_data thermal_data initial)
      as [r o] eqn:Hc.
    destruct (checks_then_clean_classifies _ _ _ _ _ Hc)
      as ([Hb He] & Hclass & _).
    destruct o as [[i' t']|e].
    - intros _. split; [exact Hclass|].
      by eapply checks_then_clean_typed.
    - destruct e; try done. intros [= <-]. done. }
  pose proof (validate_all_verdict _ _ _ Hres) as Hacc.
  rewrite Hhard in Hacc. destruct Hacc as (_ & _ & Hi & Ht).
  destruct (validate_all_counts _ _ _ Hres) as [Hca Hct].
  rewrite Hi, Ht.
  destruct (validate_all_accepted _ _ (names_typed_clean _ Hnames)
              (ids_typed_clean _ Hids) (hard_error_clean _ _ Hhard))
    as (res' & Hres' & Hv & He & Hi' & Ht').
  destruct (validate_all_counts _ _ _ Hres') as [Hca' Hct'].
  exists res'. split_and!; try done.
  - by rewrite Hi', _clean_null_fields_idemp.
  - by rewrite Ht', _clean_null_fields_idemp.
  - rewrite Hca', Hca, areas_of_clean. apply length_fmap.
  - rewrite Hct', Hct, readings_of_clean. apply length_fmap.
Qed.

Lemma accepted_data_validates_again_witness :
  let i : pydata :=
    {[ "areas" := [ ({[ "area_name" := PyStr "" ]} : pydict) ] ]} in
  let res :=
    {| validation := {| valid := true; errors := []; warnings := [];
                        area_count := 1; thermal_count := 0 |};
       inspection := _clean_null_fields i;
       thermal := _clean_null_fields (∅ : pydata) |} in
  ∃ res',
    validate_all (inspection res) (thermal res) = Returns res'
    ∧ valid (validation res') = true
    ∧ errors (validation res') = []
    ∧ inspection res' = inspection res
    ∧ thermal res' = thermal res
    ∧ area_count (validation res') = area_count (validation res)
    ∧ thermal_count (validation res') = thermal_count (validation res).
Proof.
  intros i res.
  apply (accepted_data_validates_again i ∅ res).
  - vm_compute. reflexivity.
  - reflexivity.
Defined.

End validator_more.

(** ** ddr_generator.py: the payload *)

(** ** validator.py: the dicts rewritten in place *)

Section validator_in_place.
Import validator validator_spec validator_store.

(** A loop that rewrites each dict of a list leaves every dict of the
    store where it is, rewritten when the list names it. *)
Lemma rewrite_each_lookup (f : pydict → pydict) (refs : list nat)
    (h : store) (ref : nat) :
  (∀ d, f (f d) = f d) →
  rewrite_each f refs h !! ref
  = (λ d, if bool_decide (ref ∈ refs) then f d else d) <$> h !! ref.
Proof.
  intros Hf. unfold rewrite_each. revert h.
  induction refs as [|r refs IH]; intros h; simpl.
  - by destruct (h !! ref).
  - rewrite IH. destruct (decide (ref = r)) as [->|Hne].
    + rewrite lookup_alter_eq.
      rewrite (bool_decide_eq_true_2 (r ∈ r :: refs)) by left.
      destruct (h !! r) as [d|]; [|done]. simpl.
      case_bool_decide; [by rewrite Hf|done].
    + rewrite lookup_alter_ne by done.
      destruct (h !! ref) as [d|]; [|done]. simpl. f_equal.
      rewrite (bool_decide_ext (ref ∈ r :: refs) (ref ∈ refs)); [done|].
      rewrite elem_of_cons. split; [by intros [?|?]|by right].
Qed.

Lemma _clean_null_fields_lookup (h : store) (data : refdata) (ref : nat) :
  _clean_null_fields h data !! ref = cleaned_by data ref <$> h !! ref.
Proof.
  unfold _clean_null_fields, cleaned_by, listed.
  destruct (data !! "areas") as [areas|],
    (data !! "thermal_readings") as [readings|]; simpl;
    rewrite ?(rewrite_each_lookup _ _ _ _ clean_reading_idemp),
            ?(rewrite_each_lookup _ _ _ _ clean_area_idemp);
    by destruct (h !! ref).
Qed.

Lemma _clean_null_fields_dom (h : store) (data : refdata) :
  dom (_clean_null_fields h data) = dom h.
Proof.
  apply set_eq. intros ref.
  by rewrite !elem_of_dom, _clean_null_fields_lookup, fmap_is_Some.
Qed.

(** The checks read the dicts through the references. *)
Lemma count_of_view (key : string) (h : store) (data : refdata) :
  validator.count_of key (view h data) = count_of key data.
Proof.
  unfold validator.count_of, count_of, view. rewrite lookup_fmap.
  destruct (data !! key); simpl; [apply length_fmap|done].
Qed.

Lemma checks_then_clean_view (h : store) (i t : refdata) (r : results) :
  checks_then_clean h i t r
  = match validator.checks_then_clean (view h i) (view h t) r with
    | (r', Returns _) =>
        (r', Returns (_clean_null_fields (_clean_null_fields h i) t))
    | (r', Raises e) => (r', Raises e)
    end.
Proof.
  unfold checks_then_clean, validator.checks_then_clean, mbind, check_bind.
  destruct (_validate_area_count (view h i) r) as [r1 [[]|e]]; [|done].
  destruct (_validate_no_thermal_ids_in_areas (view h i) r1)
    as [r2 [[]|e]]; [|done].
  destruct (_validate_thermal_structure (view h t) r2)
    as [r3 [[]|e]]; [|done].
  by destruct (_validate_no_areas_in_thermal (view h i) (view h t) r3)
    as [r4 [[]|e]].
Qed.

(** The verdict is that of the checks on the dicts as they stand; the
    store is rewritten when, and only when, the verdict is good. *)
Lemma validate_all_view (h : store) (i t : refdata) :
  validate_all h i t
  = match validator.validate_all (view h i) (view h t) with
    | Returns res =>
        Returns {| validation := validator.validation res;
                   inspection := i;
                   thermal := t;
                   objects :=
                     if valid (validator.validation res)
                     then _clean_null_fields (_clean_null_fields h i) t
                     else h |}
    | Raises e => Raises e
    end.
Proof.
  unfold validate_all, validator.validate_all. fold initial.
  rewrite checks_then_clean_view.
  destruct (validator.checks_then_clean (view h i) (view h t) initial)
    as [r o] eqn:Hc.
  destruct (checks_then_clean_classifies _ _ _ _ _ Hc)
    as ([Hb He] & _ & Hclean).
  destruct o as [[i' t']|e].
  - destruct (Hclean _ _ eq_refl) as [-> ->]. simpl. rewrite Hb. simpl.
    unfold validator.count_of. rewrite !_clean_null_fields_length.
    fold (validator.count_of "areas" (view h i)).
    fold (validator.count_of "thermal_readings" (view h t)).
    by rewrite !count_of_view.
  - destruct e; try done. simpl. by rewrite !count_of_view.
Qed.

Lemma validate_all_returns_iff (h : store) (i t : refdata) :
  (∃ res, validate_all h i t = Returns res)
  ↔ ∃ res, validator.validate_all (view h i) (view h t) = Returns res.
Proof.
  rewrite validate_all_view.
  destruct (validator.validate_all (view h i) (view h t)) as [res|e].
  - split; intros _; eauto.
  - split; intros [res Hres]; done.
Qed.

(** What [validate_all] returns, when it returns. *)
Lemma validate_all_store_verdict (h : store) (i t : refdata)
    (res : validated) :
  validate_all h i t = Returns res →
  inspection res = i ∧ thermal res = t
  ∧ if hard_error (view h i) (view h t)
    then (∃ e, errors (validation res) = [e])
         ∧ valid (validation res) = false
         ∧ objects res = h
    else errors (validation res) = []
         ∧ valid (validation res) = true
         ∧ objects res = _clean_null_fields (_clean_null_fields h i) t.
Proof.
  rewrite validate_all_view.
  destruct (validator.validate_all (view h i) (view h t)) as [vres|e] eqn:Hv;
    [|done].
  intros [= <-]. simpl. split_and!; [done..|].
  apply validate_all_verdict in Hv.
  destruct (hard_error (view h i) (view h t)).
  - destruct Hv as (e & Hvalid & Herr & _). rewrite Hvalid. eauto.
  - destruct Hv as (Hvalid & Herr & _). by rewrite Hvalid.
Qed.

Lemma validate_all_store_total (h : store) (i t : refdata) :
  names_typed (view h i) → ids_typed (view h t) →
  ∃ res, validate_all h i t = Returns res.
Proof.
  intros Hi Ht. apply validate_all_returns_iff.
  destruct (hard_error (view h i) (view h t)) eqn:Hhard.
  - destruct (validate_all_rejected _ _ Hi (ids_typed_weaken _ Ht) Hhard)
      as (res & e & ? & _); eauto.
  - destruct (validate_all_accepted _ _ Hi Ht Hhard) as (res & ? & _); eauto.
Qed.

(** The error recorded, from that of the checks on the dicts as they
    stand. *)
Lemma validate_all_store_error (h : store) (i t : refdata)
    (vres : validator.validated) (e : string) :
  validator.validate_all (view h i) (view h t) = Returns vres →
  rejected (view h i) (view h t) e vres →
  ∃ res, validate_all h i t = Returns res
         ∧ errors (validation res) = [e].
Proof.
  intros Hv (_ & Herr & _). rewrite validate_all_view, Hv.
  eexists. split; [done|]. done.
Qed.

Lemma object_cleaned (h : store) (data : refdata) (ref : nat) :
  is_Some (h !! ref) →
  object (_clean_null_fields h data) ref = cleaned_by data ref (object h ref).
Proof.
  intros [d Hd]. unfold object. by rewrite _clean_null_fields_lookup, Hd.
Qed.

Lemma cleaned_by_area (data : refdata) (ref : nat) (d : pydict) :
  ref ∉ listed "thermal_readings" data →
  cleaned_by data ref (clean_area d) = clean_area d
  ∧ (ref ∈ listed "areas" data → cleaned_by data ref d = clean_area d).
Proof.
  intros Hr. unfold cleaned_by.
  rewrite (bool_decide_eq_false_2 _ Hr). split.
  - case_bool_decide; [apply clean_area_idemp|done].
  - intros Ha. by rewrite bool_decide_eq_true_2.
Qed.

Lemma cleaned_by_reading (data : refdata) (ref : nat) (d : pydict) :
  ref ∉ listed "areas" data →
  cleaned_by data ref (clean_reading d) = clean_reading d
  ∧ (ref ∈ listed "thermal_readings" data →
     cleaned_by data ref d = clean_reading d).
Proof.
  intros Ha. unfold cleaned_by.
  rewrite (bool_decide_eq_false_2 _ Ha). split.
  - case_bool_decide; [apply clean_reading_idemp|done].
  - intros Hr. by rewrite bool_decide_eq_true_2.
Qed.

(** X29.  When every reference has its dict in the store and no dict is
    listed both as an area and as a thermal reading, [validate_all] on
    the store gives what [validator.validate_all] gives on the dicts read
    as values: the same verdict, errors, warnings and counts, and in the
    store it leaves, the areas and the thermal readings that the other
    returns. *)
Theorem validate_all_unshared (h : store) (i t : refdata) (res : validated) :
  closed h i → closed h t →
  (∀ ref, ref ∈ (listed "areas" i ++ listed "areas" t) →
          ref ∉ (listed "thermal_readings" i
                 ++ listed "thermal_readings" t)) →
  validate_all h i t = Returns res →
  ∃ vres,
    validator.validate_all (view h i) (view h t) = Returns vres
    ∧ validation res = validator.validation vres
    ∧ view (objects res) i !! "areas" = validator.inspection vres !! "areas"
    ∧ view (objects res) t !! "thermal_readings"
      = validator.thermal vres !! "thermal_readings".
Proof.
  intros Hci Hct Hsep. rewrite validate_all_view.
  destruct (validator.validate_all (view h i) (view h t)) as [vres|e] eqn:Hv;
    [|done].
  intros [= <-]. exists vres. simpl.
  pose proof (validate_all_verdict _ _ _ Hv) as Hcase.
  destruct (hard_error (view h i) (view h t)).
  { destruct Hcase as (e & -> & _ & -> & ->). done. }
  destruct Hcase as (-> & _ & -> & ->).
  rewrite _clean_null_fields_areas, _clean_null_fields_readings.
  unfold view. rewrite !lookup_fmap. split_and!; [done..| |].
  - destruct (i !! "areas") as [areas|] eqn:Ha; [|done]. simpl. f_equal.
    rewrite <- list_fmap_compose. apply list_fmap_ext. intros j ref Hj.
    apply list_elem_of_lookup_2 in Hj. simpl.
    assert (ref ∈ listed "areas" i) as Hin by (unfold listed; by rewrite Ha).
    assert ((ref ∉ listed "thermal_readings" i)
            ∧ (ref ∉ listed "thermal_readings" t)) as [Hri Hrt].
    { apply not_elem_of_app, Hsep, elem_of_app. by left. }
    assert (is_Some (h !! ref)) as Hsome by (by eapply Hci).
    rewrite !object_cleaned
      by (by rewrite ?_clean_null_fields_lookup, ?fmap_is_Some).
    rewrite (proj2 (cleaned_by_area i ref _ Hri) Hin).
    apply (cleaned_by_area t ref _ Hrt).
  - destruct (t !! "thermal_readings") as [readings|] eqn:Hr; [|done].
    simpl. f_equal.
    rewrite <- list_fmap_compose. apply list_fmap_ext. intros j ref Hj.
    apply list_elem_of_lookup_2 in Hj. simpl.
    assert (ref ∈ listed "thermal_readings" t) as Hin
      by (unfold listed; by rewrite Hr).
    assert ((ref ∉ listed "areas" i) ∧ (ref ∉ listed "areas" t))
      as [Hai Hat].
    { apply not_elem_of_app. intros Hareas.
      apply (Hsep ref Hareas), elem_of_app. by right. }
    assert (is_Some (h !! ref)) as Hsome by (by eapply Hct).
    rewrite !object_cleaned
      by (by rewrite ?_clean_null_fields_lookup, ?fmap_is_Some).
    rewrite (proj2 (cleaned_by_reading t ref _ Hat) Hin).
    unfold cleaned_by at 1. rewrite (bool_decide_eq_false_2 _ Hai).
    case_bool_decide; [apply clean_reading_idemp|done].
Qed.

Lemma validate_all_unshared_witness :
  let readings : refdata := {[ "thermal_readings" := [1] ]} in
  ∃ vres,
    validator.validate_all (view shared_store shared_inspection)
      (view shared_store readings) = Returns vres
    ∧ valid (validator.validation vres) = true
    ∧ validator.thermal vres !! "thermal_readings"
      = Some [ ({[ "image_id" := PyStr "IR_0043.jpg";
                   "hotspot" := PyStr "31.2";
                   "coldspot" := PyStr "Not Available";
                   "temperature_difference" := PyStr "Not Available";
                   "interpretation" := PyStr "Not Available" ]} : pydict) ].
Proof.
  intros readings.
  destruct (validate_all_store_total shared_store shared_inspection readings)
    as [res Hres].
  { unfold names_typed. vm_compute. repeat constructor. }
  { unfold ids_typed. vm_compute. repeat constructor. }
  destruct (validate_all_unshared shared_store shared_inspection readings res)
    as (vres & Hv & Hvalidation & _ & Hreadings).
  - intros key refs ref Hkey Href. unfold shared_inspection in Hkey.
    apply lookup_singleton_Some in Hkey as [<- <-].
    apply list_elem_of_singleton in Href as ->.
    refine (bool_decide_unpack _ _). vm_compute. exact I.
  - intros key refs ref Hkey Href. unfold readings in Hkey.
    apply lookup_singleton_Some in Hkey as [<- <-].
    apply list_elem_of_singleton in Href as ->.
    refine (bool_decide_unpack _ _). vm_compute. exact I.
  - intros ref Hareas Hreadings. vm_compute in Hareas, Hreadings.
    apply list_elem_of_singleton in Hareas, Hreadings. congruence.
  - exact Hres.
  - exists vres. split; [done|].
    rewrite <- Hvalidation, <- Hreadings.
    vm_compute in Hres. injection Hres as <-. split; by vm_compute.
Defined.

(** C3, as the code has it.  The checks run in order and the first hard
    error ends them: an area count over the ceiling, else a thermal
    identifier in an area name, else a thermal reading keyed by "area".
    Whenever [validate_all] returns, it returns the two collections it
    was given; with one of these conditions the result is invalid,
    carries one error, and no dict of either collection has been
    rewritten; with none of them, whatever warnings were added, the
    result is valid and the dicts of both collections have been
    normalised where they are.  [validate_all] raises only when an area
    name or an image identifier is there and is not a string; on other
    inputs it returns, and the error recorded is that of the first
    condition that holds. *)
Theorem validation_stops_at_first_hard_error (h : store)
    (inspection_data thermal_data : refdata) :
  let i := view h inspection_data in
  let t := view h thermal_data in
  (∀ res,
     validate_all h inspection_data thermal_data = Returns res →
     inspection res = inspection_data ∧ thermal res = thermal_data
     ∧ if hard_error i t
       then (∃ e, errors (validation res) = [e])
            ∧ valid (validation res) = false
            ∧ objects res = h
       else errors (validation res) = []
            ∧ valid (validation res) = true
            ∧ objects res
              = _clean_null_fields (_clean_null_fields h inspection_data)
                  thermal_data)
  ∧ (∀ e, validate_all h inspection_data thermal_data = Raises e →
          ¬ (names_typed i ∧ ids_typed t))
  ∧ (names_typed i → ids_typed t →
     ∃ res,
       validate_all h inspection_data thermal_data = Returns res
       ∧ (overflow i = true →
          ∃ rest, errors (validation res)
                  = ["Area count " +:+ py.str_of_nat (length (areas_of i))
                     +:+ rest])
       ∧ (overflow i = false →
          existsb names_thermal_id (areas_of i) = true →
          ∃ rest, errors (validation res)
                  = ["Thermal image ID detected in areas: '" +:+ rest])
       ∧ (overflow i = false →
          existsb names_thermal_id (areas_of i) = false →
          existsb uses_area_for_image_id (readings_of t) = true →
          ∃ rest, errors (validation res) = ["Thermal reading " +:+ rest])).
Proof.
  intros i t. split_and!.
  - apply validate_all_store_verdict.
  - intros e He [Hi Ht].
    destruct (validate_all_store_total _ _ _ Hi Ht) as [res Hres].
    congruence.
  - intros Hi Ht.
    destruct (hard_error i t) eqn:Hhard.
    + destruct (hard_error_cases _ _ Hhard)
        as [Hov|[[Hov Hl]|(Hov & Hl & Hc)]].
      * destruct (validate_all_overflow _ t Hi Hov)
          as (vres & rest & Hres & Hrej).
        destruct (validate_all_store_error _ _ _ _ _ Hres Hrej)
          as (res & Hr & Herr).
        exists res. split_and!; [done|by exists rest|congruence..].
      * destruct (validate_all_thermal_id _ t Hi Hov Hl)
          as (vres & rest & Hres & Hrej).
        destruct (validate_all_store_error _ _ _ _ _ Hres Hrej)
          as (res & Hr & Herr).
        exists res. split_and!; [done|congruence|by exists rest|congruence].
      * destruct (validate_all_thermal_structure _ _ Hi
                    (ids_typed_weaken _ Ht) Hov Hl Hc)
          as (vres & rest & Hres & Hrej).
        destruct (validate_all_store_error _ _ _ _ _ Hres Hrej)
          as (res & Hr & Herr).
        exists res. split_and!; [done|congruence..|by exists rest].
    + destruct (validate_all_store_total _ _ _ Hi Ht) as [res Hres].
      exists res. unfold hard_error in Hhard.
      apply orb_false_elim in Hhard as [Hhard Hconf].
      apply orb_false_elim in Hhard as [Hov Hleak].
      split_and!; [done|congruence..].
Qed.

Lemma validation_stops_at_first_hard_error_witness :
  ∃ res,
    validate_all leaked_store leaked_refs confused_refs = Returns res
    ∧ objects res = leaked_store
    ∧ ∃ rest, errors (validation res)
              = ["Thermal image ID detected in areas: '" +:+ rest].
Proof.
  destruct (validation_stops_at_first_hard_error leaked_store leaked_refs
              confused_refs) as (Hverdict & _ & Htotal).
  destruct Htotal as (res & Hres & _ & Hleak & _).
  - unfold names_typed. vm_compute. repeat constructor.
  - unfold ids_typed. vm_compute. repeat constructor.
  - exists res. split; [done|]. split.
    + destruct (Hverdict res Hres) as (_ & _ & Hcase).
      replace (hard_error _ _) with true in Hcase by (by vm_compute).
      by destruct Hcase as (_ & _ & ?).
    + apply Hleak; by vm_compute.
Defined.

(** C3, as the specification words it, fails: the thermal identifier in
    the area name ends the checks, so the thermal reading keyed by "area"
    is never reported, and no dict of either collection is normalised. *)
Lemma normalization_skipped_after_hard_error :
  ∃ res,
    validate_all leaked_store leaked_refs confused_refs = Returns res
    ∧ errors (validation res)
      = ["Thermal image ID detected in areas: 'IR_0042.jpg'. "
         +:+ "Thermal IDs must NOT be treated as areas."]
    ∧ objects res = leaked_store
    ∧ objects res !! 0
      ≠ _clean_null_fields leaked_store leaked_refs !! 0
    ∧ objects res !! 1
      ≠ _clean_null_fields leaked_store confused_refs !! 1
    ∧ ∃ r e, _validate_thermal_structure
               (view leaked_store confused_refs) initial
             = (r, Raises (ValidationError e))
             ∧ e ∉ errors (validation res).
Proof.
  eexists. split; [by vm_compute|]. split_and!.
  - done.
  - done.
  - intros H. apply (f_equal (λ d : option pydict, d ≫= (.!! "negative_observations"))) in H.
    by vm_compute in H.
  - intros H. apply (f_equal (λ d : option pydict, d ≫= (.!! "image_id"))) in H.
    by vm_compute in H.
  - eexists _, _. split; [by vm_compute|].
    simpl. rewrite list_elem_of_singleton. by vm_compute.
Qed.

(** A null area name is not normalised: the second check calls [lower]
    on it, the [AttributeError] leaves [validate_all], and the dict
    stays as it was. *)
Example null_area_name_raises_in_place :
  validate_all {[ 0 := ({[ "area_name" := PyNone ]} : pydict) ]}
    {[ "areas" := [0] ]} ∅
  = Raises AttributeError.
Proof. by vm_compute. Qed.

(** A field that normalisation has no reason to touch stays as it is,
    whatever the dict is listed as. *)
Lemma clean_area_frame (d : pydict) (k : string) (v : pyval) :
  d !! k = Some v →
  (if bool_decide (k ∈ ["negative_observations"; "positive_observations"])
   then is_list_get (Some v) else truthy v) = true →
  clean_area d !! k = Some v.
Proof.
  intros Hk Hv. rewrite clean_area_lookup, Hk.
  destruct (decide (k = "area_name")) as [->|H1].
  - rewrite bool_decide_eq_true_2 by done.
    unfold truthy_or_sentinel. simpl. simpl in Hv. by rewrite Hv.
  - rewrite bool_decide_eq_false_2 by done.
    destruct (bool_decide
                (k ∈ ["negative_observations"; "positive_observations"]));
      [|done].
    unfold list_or_empty. by rewrite Hv.
Qed.

Lemma clean_reading_frame (d : pydict) (k : string) (v : pyval) :
  d !! k = Some v →
  (if bool_decide (k ∈ ["negative_observations"; "positive_observations"])
   then is_list_get (Some v) else truthy v) = true →
  clean_reading d !! k = Some v.
Proof.
  intros Hk Hv. rewrite clean_reading_lookup, Hk.
  destruct (decide (k ∈ ["image_id"; "hotspot"; "coldspot";
                         "temperature_difference"; "interpretation"]))
    as [H1|H1].
  - rewrite bool_decide_eq_true_2 by done.
    rewrite bool_decide_eq_false_2 in Hv.
    + unfold truthy_or_sentinel. simpl. by rewrite Hv.
    + intros H2. apply list_elem_of_In in H1, H2. simpl in H1, H2.
      destruct H1 as [<-|[<-|[<-|[<-|[<-|[]]]]]];
        destruct H2 as [?|[?|[]]]; done.
  - by rewrite bool_decide_eq_false_2.
Qed.

Lemma cleaned_by_frame (data : refdata) (ref : nat) (d : pydict)
    (k : string) (v : pyval) :
  d !! k = Some v →
  (if bool_decide (k ∈ ["negative_observations"; "positive_observations"])
   then is_list_get (Some v) else truthy v) = true →
  cleaned_by data ref d !! k = Some v.
Proof.
  intros Hk Hv. unfold cleaned_by.
  destruct (bool_decide (ref ∈ listed "areas" data)),
    (bool_decide (ref ∈ listed "thermal_readings" data)); cbv zeta.
  - apply clean_reading_frame; [|done]. by apply clean_area_frame.
  - by apply clean_area_frame.
  - by apply clean_reading_frame.
  - done.
Qed.

(** C10.  Normalisation rewrites fields of the dicts it is given, where
    they are, and nothing else.  One call makes of each dict of the store
    its cleaning as an area when the data lists it under "areas", then
    its cleaning as a reading when the data lists it under
    "thermal_readings", whether the dict is listed once, twice or as
    both; every other dict stays as it is.  In a dict cleaned as an area
    only [area_name] (when falsy) and the two observation fields (when
    not lists) change, in one cleaned as a reading only the five named
    fields (when falsy); a truthy field and a list-shaped observation
    field stay as they are.  [validate_all] returns the two collections
    it was given, with the references they listed, over a store with the
    same dicts; the counts it reports are the lengths of these
    collections; and on inputs typed as in the data model it does
    return. *)
Theorem null_field_normalization_is_frame_preserving :
  (∀ (h : store) (data : refdata) ref,
     _clean_null_fields h data !! ref = cleaned_by data ref <$> h !! ref)
  ∧ (∀ (area : pydict) k,
       clean_area area !! k
       = if bool_decide (k = "area_name") then truthy_or_sentinel (area !! k)
         else if bool_decide
                   (k ∈ ["negative_observations"; "positive_observations"])
         then list_or_empty (area !! k)
         else area !! k)
  ∧ (∀ (reading : pydict) k,
       clean_reading reading !! k
       = if bool_decide
              (k ∈ ["image_id"; "hotspot"; "coldspot";
                    "temperature_difference"; "interpretation"])
         then truthy_or_sentinel (reading !! k)
         else reading !! k)
  ∧ (∀ v, truthy_or_sentinel v
          = if truthy_get v then v else Some (PyStr "Not Available"))
  ∧ (∀ v, list_or_empty v = if is_list_get v then v else Some (PyList []))
  ∧ (∀ (h : store) (data : refdata) ref d k v,
       h !! ref = Some d → d !! k = Some v →
       (if bool_decide
             (k ∈ ["negative_observations"; "positive_observations"])
        then is_list_get (Some v) else truthy v) = true →
       ∃ d', _clean_null_fields h data !! ref = Some d' ∧ d' !! k = Some v)
  ∧ (∀ (h : store) (inspection_data thermal_data : refdata) res,
       validate_all h inspection_data thermal_data = Returns res →
       inspection res = inspection_data
       ∧ thermal res = thermal_data
       ∧ area_count (validation res) = length (listed "areas" inspection_data)
       ∧ thermal_count (validation res)
         = length (listed "thermal_readings" thermal_data)
       ∧ dom (objects res) = dom h
       ∧ ∀ ref,
           objects res !! ref
           = (λ d, if valid (validation res)
                   then cleaned_by thermal_data ref
                          (cleaned_by inspection_data ref d)
                   else d) <$> h !! ref)
  ∧ (∀ (h : store) (inspection_data thermal_data : refdata),
       names_typed (view h inspection_data) →
       ids_typed (view h thermal_data) →
       ∃ res, validate_all h inspection_data thermal_data = Returns res).
Proof.
  split_and!.
  - apply _clean_null_fields_lookup.
  - apply clean_area_lookup.
  - apply clean_reading_lookup.
  - done.
  - done.
  - intros h data ref d k v Hd Hk Hv.
    exists (cleaned_by data ref d). split.
    + by rewrite _clean_null_fields_lookup, Hd.
    + by apply cleaned_by_frame.
  - intros h i t res Hres.
    assert (∀ ref,
      objects res !! ref
      = (λ d, if valid (validation res)
              then cleaned_by t ref (cleaned_by i ref d) else d)
          <$> h !! ref) as Hobj.
    { intros ref. destruct (validate_all_store_verdict _ _ _ _ Hres)
        as (_ & _ & Hcase).
      destruct (hard_error (view h i) (view h t)).
      - destruct Hcase as (_ & -> & ->). by destruct (h !! ref).
      - destruct Hcase as (_ & -> & ->).
        rewrite !_clean_null_fields_lookup. by destruct (h !! ref). }
    rewrite validate_all_view in Hres.
    destruct (validator.validate_all (view h i) (view h t))
      as [vres|e] eqn:Hv; [|done].
    destruct (validate_all_counts _ _ _ Hv) as [Ha Ht].
    injection Hres as <-. simpl in *. split_and!; [done..| | | |].
    + rewrite Ha. unfold areas_of, listed, view. rewrite lookup_fmap.
      destruct (i !! "areas"); simpl; [apply length_fmap|done].
    + rewrite Ht. unfold readings_of, listed, view. rewrite lookup_fmap.
      destruct (t !! "thermal_readings"); simpl; [apply length_fmap|done].
    + destruct (valid (validator.validation vres));
        by rewrite ?_clean_null_fields_dom.
    + exact Hobj.
  - apply validate_all_store_total.
Qed.

(** The dict 0 is listed as the one area and as the first of two
    readings: the validation passes and the dict comes out cleaned as
    both. *)
Lemma null_field_normalization_is_frame_preserving_witness :
  ∃ res,
    validate_all shared_store shared_inspection shared_thermal = Returns res
    ∧ valid (validation res) = true
    ∧ area_count (validation res) = 1
    ∧ thermal_count (validation res) = 2
    ∧ objects res !! 0
      = Some ({[ "area_name" := PyStr "Hall";
                 "negative_observations" := PyList [];
                 "positive_observations" := PyList [];
                 "image_id" := PyStr "IR_0042.jpg";
                 "hotspot" := PyStr "Not Available";
                 "coldspot" := PyStr "Not Available";
                 "temperature_difference" := PyStr "Not Available";
                 "interpretation" := PyStr "Not Available" ]} : pydict)
    ∧ objects res !! 1
      = Some ({[ "image_id" := PyStr "IR_0043.jpg";
                 "hotspot" := PyStr "31.2";
                 "coldspot" := PyStr "Not Available";
                 "temperature_difference" := PyStr "Not Available";
                 "interpretation" := PyStr "Not Available" ]} : pydict).
Proof.
  destruct null_field_normalization_is_frame_preserving
    as (_ & _ & _ & _ & _ & _ & Hresult & Htotal).
  destruct (Htotal shared_store shared_inspection shared_thermal)
    as [res Hres].
  - unfold names_typed. vm_compute. repeat constructor.
  - unfold ids_typed. vm_compute. repeat constructor.
  - exists res. split; [done|].
    destruct (Hresult _ _ _ _ Hres) as (_ & _ & Ha & Ht & _ & Hobj).
    assert (valid (validation res) = true) as Hvalid.
    { vm_compute in Hres. by injection Hres as <-. }
    rewrite Ha, Ht, !Hobj, Hvalid. split_and!; by vm_compute.
Defined.

End validator_in_place.
Section payload_strings.
Import re_spec.

Lemma all_chars_append (p : ascii → bool) (a b : string) :
  all_chars p (a +:+ b) = all_chars p a && all_chars p b.
Proof.
  induction a as [|c a IH]; str_simpl; [done|].
  rewrite IH. by destruct (p c).
Qed.

Lemma contains_all_chars (p : ascii → bool) (pat s : string) :
  py.contains pat s = true → all_chars p s = true → all_chars p pat = true.
Proof.
  intros (a & b & ->)%contains_spec.
  rewrite !all_chars_append, !andb_true_iff. tauto.
Qed.

Lemma prefix_nil (s : string) : String.prefix "" s = true.
Proof. by destruct s. Qed.

Lemma replace_absent (old new s : string) :
  py.contains old s = false → pystr.replace old new s = s.
Proof.
  unfold pystr.replace. induction s as [|c s IH]; [done|].
  cbn [py.contains pystr.replace_go].
  intros [Hp Hc]%orb_false_iff. rewrite Hp. f_equal. by apply IH.
Qed.

Lemma replace_go_all_chars (p : ascii → bool) (old new : string) (k : nat)
    (s : string) :
  all_chars p s = true → all_chars p new = true →
  all_chars p (pystr.replace_go old new k s) = true.
Proof.
  intros Hs Hnew. revert k Hs. induction s as [|c s IH]; intros k Hs; [done|].
  simpl in Hs. apply andb_true_iff in Hs as [Hc Hs].
  cbn [pystr.replace_go]. destruct k as [|k]; [|by apply IH].
  destruct (String.prefix old (String c s)).
  - rewrite all_chars_append, Hnew. by apply IH.
  - simpl. rewrite Hc. by apply IH.
Qed.

(** Replacing a character takes it out of the string. *)
Lemma replace_char_removes (x : ascii) (new s : string) :
  all_chars (λ c, negb (Ascii.eqb c x)) new = true →
  all_chars (λ c, negb (Ascii.eqb c x))
            (pystr.replace (String x "") new s) = true.
Proof.
  intros Hnew. unfold pystr.replace. induction s as [|c s IH]; [done|].
  cbn [pystr.replace_go String.prefix].
  destruct (ascii_dec x c) as [->|Hxc].
  - rewrite prefix_nil, all_chars_append, Hnew. exact IH.
  - simpl. rewrite IH, andb_true_r. apply negb_true_iff, Ascii.eqb_neq.
    congruence.
Qed.

Lemma lstrip_all_chars (p : ascii → bool) (s : string) :
  all_chars p s = true → all_chars p (py.lstrip s) = true.
Proof.
  induction s as [|c s IH]; [done|]. simpl.
  intros [Hc Hs]%andb_true_iff. destruct (py.isspace c); [by apply IH|].
  simpl. by rewrite Hc, Hs.
Qed.

Lemma rstrip_all_chars (p : ascii → bool) (s : string) :
  all_chars p s = true → all_chars p (py.rstrip s) = true.
Proof.
  induction s as [|c s IH]; [done|]. simpl.
  intros [Hc Hs]%andb_true_iff. specialize (IH Hs).
  destruct (py.rstrip s) as [|c' r].
  - destruct (py.isspace c); [done|]. simpl. by rewrite Hc.
  - cbn [all_chars] in IH |- *. by rewrite Hc, IH.
Qed.

Lemma strip_all_chars (p : ascii → bool) (s : string) :
  all_chars p s = true → all_chars p (py.strip s) = true.
Proof. intros H. by apply rstrip_all_chars, lstrip_all_chars. Qed.

Lemma all_chars_not_contains (x : ascii) (s : string) :
  all_chars (λ c, negb (Ascii.eqb c x)) s = true →
  py.contains (String x "") s = false.
Proof.
  intros Hs. destruct (py.contains (String x "") s) eqn:Hc; [|done].
  pose proof (contains_all_chars _ _ _ Hc Hs) as Hx. simpl in Hx.
  by rewrite Ascii.eqb_refl in Hx.
Qed.

Lemma split_nonempty (sep : ascii) (s : string) : pystr.split sep s ≠ [].
Proof.
  induction s as [|c s IH]; [done|]. simpl.
  destruct (Ascii.eqb c sep); [done|]. by destruct (pystr.split sep s).
Qed.

Lemma split_contains (sep : ascii) (s : string) :
  py.contains (String sep "") s = true →
  (2 ≤ length (pystr.split sep s))%nat.
Proof.
  induction s as [|c s IH]; [done|].
  cbn [py.contains String.prefix pystr.split].
  destruct (Ascii.eqb_spec c sep) as [->|Hne].
  - intros _. pose proof (split_nonempty sep s).
    destruct (pystr.split sep s); [done|]. simpl. lia.
  - destruct (ascii_dec sep c) as [->|_]; [done|]. simpl.
    intros H%IH. destruct (pystr.split sep s); simpl in *; lia.
Qed.

Lemma split_no_sep (sep : ascii) (s : string) :
  all_chars (λ c, negb (Ascii.eqb c sep)) s = true → pystr.split sep s = [s].
Proof.
  induction s as [|c s IH]; [done|]. simpl.
  intros [Hc Hs]%andb_true_iff. apply negb_true_iff in Hc.
  by rewrite Hc, (IH Hs).
Qed.

Lemma split_append (sep : ascii) (a b : string) :
  all_chars (λ c, negb (Ascii.eqb c sep)) a = true →
  pystr.split sep (a +:+ String sep b) = a :: pystr.split sep b.
Proof.
  induction a as [|c a IH]; str_simpl.
  - intros _. by rewrite Ascii.eqb_refl.
  - intros [Hc Ha]%andb_true_iff. apply negb_true_iff in Hc.
    by rewrite Hc, (IH Ha).
Qed.

(** Splitting and joining again gives the text back. *)
Lemma join_split (sep : ascii) (s : string) :
  py.join (String sep "") (pystr.split sep s) = s.
Proof.
  induction s as [|c s IH]; [done|]. cbn [pystr.split].
  pose proof (split_nonempty sep s) as Hne.
  destruct (Ascii.eqb_spec c sep) as [->|Hc].
  - destruct (pystr.split sep s) as [|p rest]; [done|].
    change (py.join (String sep "") ("" :: p :: rest))
      with ("" +:+ String sep "" +:+ py.join (String sep "") (p :: rest)).
    by rewrite IH, append_nil_l, append_cons, append_nil_l.
  - destruct (pystr.split sep s) as [|p rest]; [done|].
    destruct rest as [|q rest].
    + cbn [py.join] in IH |- *. by rewrite IH.
    + change (py.join (String sep "") (String c p :: q :: rest))
        with (String c p +:+ String sep ""
              +:+ py.join (String sep "") (q :: rest)).
      change (py.join (String sep "") (p :: q :: rest))
        with (p +:+ String sep "" +:+ py.join (String sep "") (q :: rest))
        in IH.
      by rewrite append_cons, IH.
Qed.

End payload_strings.

Section payload_properties.
Import re_spec ddr_generator payload.

Lemma _clean_thermal_value_unfold (value : string) :
  _clean_thermal_value value
  = if String.eqb value "N/A" then value
    else ensure_unit (fold_left remove_prefix prefixes value).
Proof. reflexivity. Qed.

Lemma existsb_char_append (p : ascii → bool) (a b : string) :
  py.existsb_char p (a +:+ b) = py.existsb_char p a || py.existsb_char p b.
Proof.
  induction a as [|c a IH]; str_simpl; [done|].
  rewrite IH. by destruct (p c).
Qed.

Lemma replace_go_deletes (p : ascii → bool) (old : string) (k : nat)
    (s : string) :
  py.existsb_char p (pystr.replace_go old "" k s) = true →
  py.existsb_char p s = true.
Proof.
  revert k. induction s as [|c s IH]; intros k; [done|].
  cbn [pystr.replace_go]. destruct k as [|k].
  - destruct (String.prefix old (String c s)).
    + rewrite append_nil_l. intros H%IH. simpl. by rewrite H, orb_true_r.
    + simpl. intros [->|H%IH]%orb_true_iff; [done|].
      by rewrite H, orb_true_r.
  - intros H%IH. simpl. by rewrite H, orb_true_r.
Qed.

Lemma all_then_exists (p : ascii → bool) (s : string) :
  py.truthy_str s = true → all_chars p s = true →
  py.existsb_char p s = true.
Proof.
  destruct s as [|c s]; [done|]. simpl.
  by intros _ [-> _]%andb_true_iff.
Qed.

Lemma number_has_digit (value : string) :
  pystr.isdigit (pystr.replace "-" "" (pystr.replace "." "" value)) = true →
  py.existsb_char pystr.char_isdigit value = true.
Proof.
  unfold pystr.isdigit, pystr.replace. intros [Ht Ha]%andb_true_iff.
  pose proof (all_then_exists _ _ Ht Ha) as H.
  by apply replace_go_deletes, replace_go_deletes in H.
Qed.

Lemma ensure_unit_stripped (value : string) :
  py.strip value = value → ensure_unit value = with_unit value.
Proof.
  intros Hs. unfold ensure_unit, with_unit. rewrite Hs.
  destruct (py.contains degree_C value); [done|]. cbn [negb andb].
  destruct (String.eqb_spec value "N/A") as [->|Hna]; [done|]. cbn [negb].
  destruct (py.existsb_char pystr.char_isdigit value) eqn:Hd.
  - rewrite orb_true_r, andb_true_r. destruct value; [done|done].
  - destruct (pystr.isdigit _) eqn:Hn.
    + apply number_has_digit in Hn. congruence.
    + by rewrite andb_false_r.
Qed.

(** X15.  A value cleaned by [_clean_thermal_value] that has a digit in
    it carries the unit: it contains the degree sign followed by C.
    "N/A" is returned as it is. *)
Theorem cleaned_value_with_digit_has_unit (value : string) :
  _clean_thermal_value "N/A" = "N/A"
  ∧ (py.existsb_char pystr.char_isdigit (_clean_thermal_value value) = true →
     py.contains degree_C (_clean_thermal_value value) = true).
Proof.
  split; [reflexivity|].
  rewrite _clean_thermal_value_unfold.
  destruct (String.eqb_spec value "N/A") as [->|Hna]; [done|].
  generalize (fold_left remove_prefix prefixes value). intros v.
  unfold ensure_unit.
  destruct (py.contains degree_C v) eqn:Hc; [done|]. cbn [negb andb].
  destruct (String.eqb_spec v "N/A") as [->|Hv]; [done|]. cbn [negb].
  destruct (py.truthy_str (py.strip v)) eqn:Ht.
  - cbn [andb].
    destruct (py.existsb_char pystr.char_isdigit (py.strip v)) eqn:Hd.
    + rewrite orb_true_r. intros _. apply contains_spec.
      exists (py.strip v +:+ " "), "".
      by rewrite append_nil_r, append_assoc.
    + destruct (pystr.isdigit _) eqn:Hn.
      * apply number_has_digit in Hn. congruence.
      * cbn [orb]. by rewrite Hd.
  - cbn [andb]. destruct (py.strip v); [done|done].
Qed.

Lemma cleaned_value_with_digit_has_unit_witness :
  py.contains degree_C (_clean_thermal_value "Hot: 28.8") = true.
Proof.
  apply (proj2 (cleaned_value_with_digit_has_unit "Hot: 28.8")).
  vm_compute. reflexivity.
Defined.

Lemma thermal_entry_of_returns (f : ThermalFinding) :
  ∃ entry,
    thermal_entry_of f = Returns entry
    ∧ entry_image_id entry = image_id f
    ∧ interpretation entry = thermal_interpretation f
    ∧ (py.contains "," (temperature_reading f) = false →
       hotspot entry = "N/A" ∧ coldspot entry = "N/A"
       ∧ temperature_difference entry = "N/A").
Proof.
  unfold thermal_entry_of.
  destruct (py.contains "," (temperature_reading f)) eqn:Hc.
  - apply split_contains in Hc.
    destruct (pystr.split "," (temperature_reading f)) as [|p0 [|p1 rest]];
      simpl in Hc; try lia.
    destruct rest as [|p2 rest]; eexists; by split_and!.
  - eexists. by split_and!.
Qed.

Lemma thermal_entries_returns (thermal_findings : list ThermalFinding) :
  ∃ entries,
    thermal_entries thermal_findings = Returns entries
    ∧ entry_image_id <$> entries = image_id <$> thermal_findings
    ∧ interpretation <$> entries
      = thermal_interpretation <$> thermal_findings.
Proof.
  induction thermal_findings as [|f l (entries & He & Hi & Hn)].
  - by exists [].
  - destruct (thermal_entry_of_returns f) as (e & Hf & Hid & Hnote & _).
    exists (e :: entries). cbn [thermal_entries]. rewrite Hf, He.
    split_and!; [done|..]; rewrite !fmap_cons; by f_equal.
Qed.

Lemma clean_observation_one_line (observation : string) :
  py.contains LF (clean_observation observation) = false
  ∧ py.contains CR (clean_observation observation) = false
  ∧ py.strip (clean_observation observation) = clean_observation observation.
Proof.
  unfold clean_observation. split_and!.
  - apply all_chars_not_contains, strip_all_chars, replace_go_all_chars;
      [|done].
    apply replace_go_all_chars; [|done]. by apply replace_char_removes.
  - apply all_chars_not_contains, strip_all_chars, replace_go_all_chars;
      [|done].
    by apply replace_char_removes.
  - apply strip_idemp.
Qed.

(** X16.  Building the payload never fails, whatever the temperature
    readings look like: it has one area per inspection finding and one
    reading per thermal finding, in order, with the names, identifiers and
    interpretations as given; each area carries exactly one observation,
    with no line break in it and no blank at either end. *)
Theorem structured_data_shape (inspection_findings : list InspectionFinding)
    (thermal_findings : list ThermalFinding) :
  ∃ data,
    structured_data inspection_findings thermal_findings = Returns data
    ∧ entry_area_name <$> areas data = area <$> inspection_findings
    ∧ entry_image_id <$> thermal_readings data
      = image_id <$> thermal_findings
    ∧ interpretation <$> thermal_readings data
      = thermal_interpretation <$> thermal_findings
    ∧ Forall (λ entry,
                ∃ o, entry_negative_observations entry = [o]
                     ∧ py.contains LF o = false
                     ∧ py.contains CR o = false
                     ∧ py.strip o = o)
             (areas data).
Proof.
  destruct (thermal_entries_returns thermal_findings) as (entries & He & Hi & Hn).
  unfold structured_data. rewrite He. eexists. split; [reflexivity|].
  cbn [areas thermal_readings]. split_and!; try done.
  - rewrite <- list_fmap_compose. by apply list_fmap_ext.
  - apply Forall_fmap, Forall_forall. intros f _.
    exists (clean_observation (observation f)).
    split; [done|]. apply clean_observation_one_line.
Qed.

End payload_properties.

Section payload_round_trip.
Import re_spec ddr_generator payload.

Lemma plain_no_prefix (v p : string) :
  all_chars (λ c, negb (Ascii.eqb c ":")) v = true →
  p ∈ prefixes → py.contains p v = false.
Proof.
  intros Hv Hp. destruct (py.contains p v) eqn:Hc; [|done].
  pose proof (contains_all_chars _ _ _ Hc Hv) as Hall.
  unfold prefixes in Hp. rewrite !elem_of_cons, elem_of_nil in Hp.
  destruct Hp as [->|[->|[->|[->|[->|[->|[]]]]]]]; discriminate Hall.
Qed.

Lemma remove_prefixes_plain (v : string) (ps : list string) :
  (∀ p, p ∈ ps → py.contains p v = false) →
  fold_left remove_prefix ps v = v.
Proof.
  induction ps as [|p ps IH]; intros H; [done|].
  cbn [fold_left]. unfold remove_prefix at 2.
  rewrite (H p) by left. apply IH. intros q Hq. apply H. by right.
Qed.

Lemma replace_go_plain (p v : string) :
  all_chars (λ c, negb (Ascii.eqb c ":")) v = true →
  p ∈ prefixes → pystr.replace_go p "" 0 v = v.
Proof. intros Hv Hp. by apply (replace_absent p ""), plain_no_prefix. Qed.

Lemma strip_blank (s : string) : py.strip (String " " s) = py.strip s.
Proof. reflexivity. Qed.

Lemma in_prefixes (n : nat) (p : string) :
  prefixes !! n = Some p → p ∈ prefixes.
Proof. apply list_elem_of_lookup_2. Qed.

Lemma contains_cons_false (p : string) (x : ascii) (s : string) :
  String.prefix p (String x s) = false →
  py.contains p (String x s) = py.contains p s.
Proof. intros H. cbn [py.contains]. by rewrite H. Qed.

Lemma contains_cons_true (p : string) (x : ascii) (s : string) :
  String.prefix p (String x s) = true → py.contains p (String x s) = true.
Proof. intros H. cbn [py.contains]. by rewrite H. Qed.

Lemma replace_go_skip (old new a rest : string) :
  pystr.replace_go old new (String.length a) (a +:+ rest)
  = pystr.replace_go old new 0 rest.
Proof. induction a as [|c a IH]; str_simpl; [done|exact IH]. Qed.

Lemma replace_cons_false (old new : string) (x : ascii) (s : string) :
  String.prefix old (String x s) = false →
  pystr.replace old new (String x s) = String x (pystr.replace old new s).
Proof. intros H. unfold pystr.replace. cbn [pystr.replace_go]. by rewrite H. Qed.

Lemma replace_prefix (o : ascii) (old new rest : string) :
  pystr.replace (String o old) new (String o old +:+ rest)
  = new +:+ pystr.replace (String o old) new rest.
Proof.
  unfold pystr.replace. rewrite append_cons. cbn [pystr.replace_go].
  assert (String.prefix (String o old) (String o (old +:+ rest)) = true) as ->.
  { apply prefix_spec. exists rest. by rewrite append_cons. }
  f_equal. cbn [String.length]. rewrite Nat.sub_1_r. cbn [Nat.pred].
  apply replace_go_skip.
Qed.

(** The pieces of a reading written by the extraction, after the loop
    over the prefixes. *)
Lemma remove_prefixes_hot (h : string) :
  all_chars (λ c, negb (Ascii.eqb c ":")) h = true →
  fold_left remove_prefix prefixes ("Hot: " +:+ h) = py.strip h.
Proof.
  intros Hh. change ("Hot: " +:+ h) with ("Hot:" +:+ String " " h).
  unfold prefixes. cbn [fold_left]. unfold remove_prefix at 6.
  rewrite replace_prefix, append_nil_l.
  rewrite replace_cons_false by reflexivity.
  rewrite (replace_absent "Hot:" "" h)
    by (apply plain_no_prefix; [done|by left]).
  rewrite strip_blank.
  assert (py.contains "Hot:" ("Hot:" +:+ String " " h) = true) as ->.
  { apply contains_spec. exists "", (String " " h). by rewrite append_nil_l. }
  apply (remove_prefixes_plain (py.strip h)
           ["Cold:"; "Diff:"; "hot:"; "cold:"; "diff:"]).
  intros p Hp. apply plain_no_prefix; [by apply strip_all_chars|by right].
Qed.

Ltac skip_chars :=
  rewrite !append_cons, append_nil_l;
  repeat (rewrite contains_cons_false by reflexivity).

Lemma remove_prefixes_cold (c : string) :
  all_chars (λ c, negb (Ascii.eqb c ":")) c = true →
  fold_left remove_prefix prefixes (" Cold: " +:+ c) = py.strip c.
Proof.
  intros Hc. unfold prefixes. cbn [fold_left].
  assert (remove_prefix (" Cold: " +:+ c) "Hot:" = " Cold: " +:+ c) as ->.
  { unfold remove_prefix.
    assert (py.contains "Hot:" (" Cold: " +:+ c) = false) as ->; [|done].
    skip_chars. apply plain_no_prefix; [done|by left]. }
  assert (remove_prefix (" Cold: " +:+ c) "Cold:" = py.strip c) as ->.
  { unfold remove_prefix.
    assert (py.contains "Cold:" (" Cold: " +:+ c) = true) as ->.
    { apply contains_spec. by exists " ", (String " " c). }
    change (" Cold: " +:+ c) with (String " " ("Cold:" +:+ String " " c)).
    rewrite replace_cons_false by reflexivity.
    rewrite replace_prefix, append_nil_l.
    rewrite replace_cons_false by reflexivity.
    rewrite (replace_absent "Cold:" "" c)
      by (apply plain_no_prefix; [done|right; by left]).
    by rewrite !strip_blank. }
  apply (remove_prefixes_plain (py.strip c) ["Diff:"; "hot:"; "cold:"; "diff:"]).
  intros p Hp. apply plain_no_prefix; [by apply strip_all_chars|].
  right. by right.
Qed.

Lemma remove_prefixes_diff (d : string) :
  all_chars (λ c, negb (Ascii.eqb c ":")) d = true →
  fold_left remove_prefix prefixes (" Diff: " +:+ d) = py.strip d.
Proof.
  intros Hd. unfold prefixes. cbn [fold_left].
  assert (remove_prefix (" Diff: " +:+ d) "Hot:" = " Diff: " +:+ d) as ->.
  { unfold remove_prefix.
    assert (py.contains "Hot:" (" Diff: " +:+ d) = false) as ->; [|done].
    skip_chars. apply plain_no_prefix; [done|by left]. }
  assert (remove_prefix (" Diff: " +:+ d) "Cold:" = " Diff: " +:+ d) as ->.
  { unfold remove_prefix.
    assert (py.contains "Cold:" (" Diff: " +:+ d) = false) as ->; [|done].
    skip_chars. apply plain_no_prefix; [done|right; by left]. }
  assert (remove_prefix (" Diff: " +:+ d) "Diff:" = py.strip d) as ->.
  { unfold remove_prefix.
    assert (py.contains "Diff:" (" Diff: " +:+ d) = true) as ->.
    { apply contains_spec. by exists " ", (String " " d). }
    change (" Diff: " +:+ d) with (String " " ("Diff:" +:+ String " " d)).
    rewrite replace_cons_false by reflexivity.
    rewrite replace_prefix, append_nil_l.
    rewrite replace_cons_false by reflexivity.
    rewrite (replace_absent "Diff:" "" d)
      by (apply plain_no_prefix; [done|right; right; by left]).
    by rewrite !strip_blank. }
  apply (remove_prefixes_plain (py.strip d) ["hot:"; "cold:"; "diff:"]).
  intros p Hp. apply plain_no_prefix; [by apply strip_all_chars|].
  right. right. by right.
Qed.

Lemma eqb_labelled (x : ascii) (lit v : string) :
  Ascii.eqb x "N" = false → String.eqb (String x lit +:+ v) "N/A" = false.
Proof. intros H. rewrite append_cons. cbn [String.eqb]. by rewrite H. Qed.

(** X17.  The text the extraction writes for the three temperatures of a
    reading is read back by the generator field by field: when the values
    hold no comma and no colon, each field of the payload is the value
    without the blanks around it, with the unit added where the value has a
    digit and no unit yet. *)
Theorem thermal_values_round_trip (id note hotspot_value coldspot_value
    diff_value : string) :
  plain hotspot_value → plain coldspot_value → plain diff_value →
  thermal_entry_of
    {| image_id := id;
       temperature_reading :=
         extraction.temp_reading hotspot_value coldspot_value diff_value;
       thermal_interpretation := note |}
  = Returns {| entry_image_id := id;
               hotspot := with_unit (py.strip hotspot_value);
               coldspot := with_unit (py.strip coldspot_value);
               temperature_difference := with_unit (py.strip diff_value);
               interpretation := note |}.
Proof.
  intros [Hh1 Hh2] [Hc1 Hc2] [Hd1 Hd2].
  unfold thermal_entry_of. cbn [temperature_reading image_id
                                 thermal_interpretation].
  assert (pystr.split ","
            (extraction.temp_reading hotspot_value coldspot_value diff_value)
          = ["Hot: " +:+ hotspot_value; " Cold: " +:+ coldspot_value;
             " Diff: " +:+ diff_value]) as ->.
  { unfold extraction.temp_reading.
    change (", Cold: " +:+ coldspot_value +:+ ", Diff: " +:+ diff_value)
      with (String "," ((" Cold: " +:+ coldspot_value)
                        +:+ String "," (" Diff: " +:+ diff_value))).
    rewrite <- append_assoc.
    rewrite split_append by (by rewrite all_chars_append, Hh1).
    rewrite split_append by (by rewrite all_chars_append, Hc1).
    rewrite split_no_sep by (by rewrite all_chars_append, Hd1). done. }
  assert (py.contains ","
            (extraction.temp_reading hotspot_value coldspot_value diff_value)
          = true) as ->.
  { apply contains_spec. exists ("Hot: " +:+ hotspot_value).
    exists (" Cold: " +:+ coldspot_value +:+ ", Diff: " +:+ diff_value).
    unfold extraction.temp_reading. rewrite (append_assoc "Hot: ").
    reflexivity. }
  cbn [pystr.item lookup list_lookup length Nat.ltb Nat.leb andb mbind
       outcome_bind].
  rewrite !_clean_thermal_value_unfold.
  rewrite !eqb_labelled by reflexivity.
  rewrite remove_prefixes_hot, remove_prefixes_cold, remove_prefixes_diff
    by done.
  rewrite !ensure_unit_stripped by apply strip_idemp. done.
Qed.

Lemma thermal_values_round_trip_witness :
  thermal_entry_of
    {| image_id := "RB02380X.JPG";
       temperature_reading :=
         extraction.temp_reading "28.8" " 23.4" "Not Available";
       thermal_interpretation := "Not Available" |}
  = Returns {| entry_image_id := "RB02380X.JPG";
               hotspot := with_unit (py.strip "28.8");
               coldspot := with_unit (py.strip " 23.4");
               temperature_difference := with_unit (py.strip "Not Available");
               interpretation := "Not Available" |}.
Proof.
  apply (thermal_values_round_trip "RB02380X.JPG" "Not Available"
           "28.8" " 23.4" "Not Available"); by split.
Defined.

(** A decimal comma in the values moves the fields: the coldspot of the
    payload is the decimals of the hotspot. *)
Example decimal_comma_shifts_fields :
  thermal_entry_of
    {| image_id := "RB02380X.JPG";
       temperature_reading := extraction.temp_reading "28,8" "23,4" "5,4";
       thermal_interpretation := "Not Available" |}
  = Returns {| entry_image_id := "RB02380X.JPG";
               hotspot := "28 " +:+ degree_C;
               coldspot := "8 " +:+ degree_C;
               temperature_difference := "23 " +:+ degree_C;
               interpretation := "Not Available" |}.
Proof. vm_compute. reflexivity. Qed.

End payload_round_trip.

(** ** extraction.py and app.py: from the parsed areas to the validator *)

Section app_pipeline.
Import ddr_generator validator validator_spec extraction app.

Lemma or_not_available_truthy (v : string) : or_not_available v ≠ "".
Proof. unfold or_not_available. by destruct v. Qed.

Lemma join_nonempty (sep : string) (l : list string) :
  l ≠ [] → Forall (λ o, o ≠ "") l → py.join sep l ≠ "".
Proof.
  destruct l as [|x l]; [done|]. intros _ [Hx _]%Forall_cons.
  destruct x as [|c x]; [done|]. cbn [py.join].
  destruct l; [done|]. by rewrite append_cons.
Qed.

Lemma filter_truthy_id (l : list string) :
  Forall (λ o, o ≠ "") l → filter (λ o, py.truthy_str o = true) l = l.
Proof.
  induction l as [|x l IH]; [done|]. intros [Hx Hl]%Forall_cons.
  rewrite filter_cons, decide_True by (by destruct x). f_equal. by apply IH.
Qed.

(** X18.  The loop that turns the parsed areas into findings gives one
    finding per area, in order; no finding has an empty area or an empty
    observation, and severity and cause are "Not Available".  An area
    with a name and with observations that are all non-empty keeps its
    name and gets its observations joined by "; ". *)
Theorem text_findings_are_complete (parsed_areas : list area_parser.room_data) :
  length (text_findings parsed_areas) = length parsed_areas
  ∧ Forall (λ f, area f ≠ "" ∧ observation f ≠ ""
                 ∧ severity_indicator f = "Not Available"
                 ∧ possible_cause f = "Not Available")
           (text_findings parsed_areas)
  ∧ ∀ i r,
      parsed_areas !! i = Some r →
      area_parser.room_name r ≠ "" →
      area_parser.negative_observations r ≠ [] →
      Forall (λ o, o ≠ "") (area_parser.negative_observations r) →
      text_findings parsed_areas !! i
      = Some {| area := area_parser.room_name r;
                observation :=
                  py.join "; " (area_parser.negative_observations r);
                severity_indicator := "Not Available";
                possible_cause := "Not Available" |}.
Proof.
  unfold text_findings. split_and!.
  - apply length_fmap.
  - apply Forall_fmap, Forall_forall. intros r _. simpl.
    split_and!; try done; apply or_not_available_truthy.
  - intros i r Hi Hname Hne Hall. rewrite list_lookup_fmap, Hi. simpl.
    f_equal. unfold inspection_finding_of.
    destruct (area_parser.negative_observations r) as [|o l] eqn:Hobs; [done|].
    rewrite (filter_truthy_id _ Hall).
    pose proof (join_nonempty "; " _ Hne Hall) as Hj.
    unfold or_not_available.
    destruct (area_parser.room_name r); [done|].
    destruct (py.join "; " (o :: l)); [done|]. done.
Qed.

Lemma text_findings_are_complete_witness :
  text_findings
    [{| area_parser.room_name := "Hall";
        area_parser.negative_observations :=
          ["Hall Skirting level Dampness"; "Hall ceiling seepage"];
        area_parser.positive_observations := [] |}] !! 0
  = Some {| area := "Hall";
            observation :=
              py.join "; " ["Hall Skirting level Dampness";
                            "Hall ceiling seepage"];
            severity_indicator := "Not Available";
            possible_cause := "Not Available" |}.
Proof.
  apply (proj2 (proj2 (text_findings_are_complete
    [{| area_parser.room_name := "Hall";
        area_parser.negative_observations :=
          ["Hall Skirting level Dampness"; "Hall ceiling seepage"];
        area_parser.positive_observations := [] |}])) 0 _ eq_refl);
    [done|done|].
  repeat constructor; done.
Defined.

Lemma areas_of_inspection_data (findings : list InspectionFinding) :
  areas_of (inspection_data findings) = area_dict <$> findings.
Proof. unfold areas_of, inspection_data. by rewrite lookup_singleton_eq. Qed.

Lemma readings_of_thermal_data (findings : list ThermalFinding) :
  readings_of (thermal_data findings) = reading_dict <$> findings.
Proof. unfold readings_of, thermal_data. by rewrite lookup_singleton_eq. Qed.

Lemma area_dict_name (f : InspectionFinding) :
  area_dict f !! "area_name" = Some (PyStr (area f)).
Proof. unfold area_dict. by rewrite lookup_insert_eq. Qed.

Lemma reading_dict_image_id (f : ThermalFinding) :
  reading_dict f !! "image_id" = Some (PyStr (image_id f)).
Proof. unfold reading_dict. by rewrite lookup_insert_eq. Qed.

Lemma app_data_typed (inspection_findings : list InspectionFinding)
    (thermal_findings : list ThermalFinding) :
  names_typed (inspection_data inspection_findings)
  ∧ ids_typed (thermal_data thermal_findings).
Proof.
  unfold names_typed, ids_typed.
  rewrite areas_of_inspection_data, readings_of_thermal_data. split.
  - apply Forall_fmap, Forall_forall. intros f _. simpl.
    by rewrite area_dict_name.
  - apply Forall_fmap, Forall_forall. intros f _. simpl.
    by rewrite reading_dict_image_id.
Qed.

Lemma app_data_hard_error (inspection_findings : list InspectionFinding)
    (thermal_findings : list ThermalFinding) :
  hard_error (inspection_data inspection_findings)
             (thermal_data thermal_findings)
  = (MAX_AREAS <? length inspection_findings)%nat
    || existsb looks_thermal inspection_findings.
Proof.
  unfold hard_error, overflow.
  rewrite areas_of_inspection_data, readings_of_thermal_data, length_fmap.
  assert (existsb uses_area_for_image_id (reading_dict <$> thermal_findings)
          = false) as ->.
  { induction thermal_findings as [|f l IH]; [done|].
    rewrite fmap_cons. cbn [existsb]. rewrite IH, orb_false_r.
    unfold uses_area_for_image_id, is_key.
    rewrite reading_dict_image_id. apply andb_false_r. }
  rewrite orb_false_r. f_equal.
  induction inspection_findings as [|f l IH]; [done|].
  rewrite fmap_cons. cbn [existsb]. rewrite IH.
  f_equal; unfold names_thermal_id; by rewrite area_dict_name.
Qed.

(** X19.  On the dicts that the application builds from the findings,
    [validate_all] always returns; the counts it reports are the numbers
    of findings; and the data is valid exactly when there are at most 20
    inspection findings and no area name looks like a thermal image.  The
    thermal findings never make the validation fail. *)
Theorem app_data_always_validates
    (inspection_findings : list InspectionFinding)
    (thermal_findings : list ThermalFinding) :
  ∃ res,
    validate_all (inspection_data inspection_findings)
                 (thermal_data thermal_findings) = Returns res
    ∧ area_count (validation res) = length inspection_findings
    ∧ thermal_count (validation res) = length thermal_findings
    ∧ (valid (validation res) = true
       ↔ (length inspection_findings ≤ 20)%nat
         ∧ existsb looks_thermal inspection_findings = false).
Proof.
  destruct (app_data_typed inspection_findings thermal_findings)
    as [Hnames Hids].
  pose proof (app_data_hard_error inspection_findings thermal_findings)
    as Hhard.
  assert (∃ res, validate_all (inspection_data inspection_findings)
                   (thermal_data thermal_findings) = Returns res
                 ∧ valid (validation res)
                   = negb (hard_error (inspection_data inspection_findings)
                             (thermal_data thermal_findings)))
    as (res & Hres & Hvalid).
  { destruct (hard_error _ _) eqn:Hh.
    - destruct (validate_all_rejected _ _ Hnames (ids_typed_weaken _ Hids) Hh)
        as (res & e & Hres & Hv & _).
      by exists res.
    - destruct (validate_all_accepted _ _ Hnames Hids Hh)
        as (res & Hres & Hv & _).
      by exists res. }
  exists res. destruct (validate_all_counts _ _ _ Hres) as [Hca Hct].
  rewrite areas_of_inspection_data, length_fmap in Hca.
  rewrite readings_of_thermal_data, length_fmap in Hct.
  split_and!; try done.
  rewrite Hvalid, Hhard, negb_true_iff, orb_false_iff.
  unfold MAX_AREAS. rewrite Nat.ltb_ge. done.
Qed.

Lemma app_data_always_validates_witness :
  let hall := {| area := "Hall"; observation := "Hall Skirting level Dampness";
                 severity_indicator := "Not Available";
                 possible_cause := "Not Available" |} in
  let image := {| image_id := "RB02380X.JPG";
                  temperature_reading := "Hot: 28.8, Cold: 23.4, Diff: 5.4";
                  thermal_interpretation := "Not Available" |} in
  ∃ res,
    validate_all (inspection_data [hall]) (thermal_data [image]) = Returns res
    ∧ area_count (validation res) = length [hall]
    ∧ thermal_count (validation res) = length [image]
    ∧ (valid (validation res) = true
       ↔ (length [hall] ≤ 20)%nat ∧ existsb looks_thermal [hall] = false).
Proof.
  intros hall image. apply (app_data_always_validates [hall] [image]).
Defined.

(** X20.  Findings made from what [parse_inspection_deterministically]
    returns never trip the area-count check of the validator: there are
    at most 20 of them, which is the validator's ceiling. *)
Theorem parsed_findings_fit_the_validator
    (describe : string → outcome area_parser.descriptions) (text : string)
    (rooms : list area_parser.room_data) :
  area_parser.parse_inspection_deterministically describe text
  = Returns rooms →
  overflow (inspection_data (text_findings rooms)) = false
  ∧ ∀ r, _validate_area_count (inspection_data (text_findings rooms)) r
         = (if (length rooms =? 0)%nat
            then add_warning "No areas extracted from inspection report" r
            else r, Returns tt).
Proof.
  intros Hparse.
  assert (length rooms ≤ 20)%nat as Hlen.
  { unfold area_parser.parse_inspection_deterministically in Hparse.
    destruct (area_parser.extract_impacted_areas_from_text text 20)
      as [areas|e] eqn:He; [|done]. simpl in Hparse.
    destruct (area_parser.describe_areas describe areas)
      as [described|e] eqn:Hd; [|done]. simpl in Hparse.
    injection Hparse as <-.
    pose proof (reduce_areas_length described) as Hl.
    rewrite (describe_areas_length _ _ _ Hd) in Hl.
    destruct (extract_returns_sections _ _ _ He) as [_ [->|Hle]];
      [simpl in Hl|]; lia. }
  assert (overflow (inspection_data (text_findings rooms)) = false) as Ho.
  { unfold overflow. rewrite areas_of_inspection_data.
    unfold text_findings. rewrite !length_fmap.
    apply Nat.ltb_ge. unfold MAX_AREAS. lia. }
  split; [done|]. intros r.
  unfold _validate_area_count. fold (areas_of (inspection_data (text_findings rooms))).
  unfold overflow in Ho. rewrite Ho.
  rewrite areas_of_inspection_data. unfold text_findings.
  rewrite !length_fmap. by destruct (length rooms =? 0)%nat.
Qed.

Lemma parsed_findings_fit_the_validator_witness :
  overflow (inspection_data (text_findings [])) = false
  ∧ ∀ r, _validate_area_count (inspection_data (text_findings [])) r
         = (if (length ([] : list area_parser.room_data) =? 0)%nat
            then add_warning "No areas extracted from inspection report" r
            else r, Returns tt).
Proof.
  apply (parsed_findings_fit_the_validator (λ _, Raises UnboundLocalError)
           "no marker in this text" []).
  vm_compute. reflexivity.
Defined.

End app_pipeline.

(** ** area_parser.py: the describer *)

Section describer_properties.
Import area_parser merge_spec describer.

Lemma extract_descriptions_cases (area_chunk : string) :
  extract_descriptions_from_area_chunk area_chunk
  = if keeps (neg_text area_chunk) then
      let text := default "" (neg_text area_chunk) in
      if keeps (pos_text area_chunk) then
        Returns {| descr_area_name :=
                     match first_room room_patterns text with
                     | Some name => Some name
                     | None => first_room room_patterns
                                 (default "" (pos_text area_chunk))
                     end;
                   descr_negative_observations := [text];
                   descr_positive_observations :=
                     [default "" (pos_text area_chunk)] |}
      else
        Returns {| descr_area_name := first_room room_patterns text;
                   descr_negative_observations := [text];
                   descr_positive_observations := [] |}
    else if keeps (pos_text area_chunk) then Raises UnboundLocalError
    else Returns {| descr_area_name := None;
                    descr_negative_observations := [];
                    descr_positive_observations := [] |}.
Proof.
  unfold extract_descriptions_from_area_chunk, keeps.
  destruct (neg_text area_chunk) as [n|]; [destruct (kept n)|];
    (destruct (pos_text area_chunk) as [p|]; [destruct (kept p)|]);
    cbv beta iota zeta; cbn [default]; try done.
  unfold id. by destruct (first_room room_patterns n).
Qed.

Lemma describe_areas_raises (describe : string → outcome descriptions)
    (areas : list area_section) (e : exn) :
  (∀ a e', a ∈ areas → describe (text_chunk a) = Raises e' → e' = e) →
  Exists (λ a, ∃ e', describe (text_chunk a) = Raises e') areas →
  describe_areas describe areas = Raises e.
Proof.
  intros Hall Hex. induction Hex as [a l [e' He']|a l Hex IH].
  - cbn [describe_areas]. rewrite He'. simpl. f_equal.
    apply (Hall a); [by left|done].
  - cbn [describe_areas].
    destruct (describe (text_chunk a)) as [d|e'] eqn:Hd; simpl.
    + rewrite IH; [done|]. intros a' e'' Hin. apply Hall. by right.
    + f_equal. apply (Hall a); [by left|done].
Qed.

(** X21.  The describer raises [UnboundLocalError] exactly when it keeps
    a positive description and keeps no negative one, and it raises
    nothing else.  A report in which one section is such a chunk cannot be
    parsed: the parser ends with that exception. *)
Theorem describer_needs_a_negative_description :
  (∀ area_chunk,
     extract_descriptions_from_area_chunk area_chunk = Raises UnboundLocalError
     ↔ keeps (neg_text area_chunk) = false
       ∧ keeps (pos_text area_chunk) = true)
  ∧ (∀ area_chunk e,
       extract_descriptions_from_area_chunk area_chunk = Raises e →
       e = UnboundLocalError)
  ∧ (∀ text areas,
       extract_impacted_areas_from_text text 20 = Returns areas →
       Exists (λ a, keeps (neg_text (text_chunk a)) = false
                    ∧ keeps (pos_text (text_chunk a)) = true) areas →
       parse_inspection text = Raises UnboundLocalError).
Proof.
  assert (∀ area_chunk e,
            extract_descriptions_from_area_chunk area_chunk = Raises e →
            e = UnboundLocalError
            ∧ keeps (neg_text area_chunk) = false
            ∧ keeps (pos_text area_chunk) = true) as Hraises.
  { intros area_chunk e. rewrite extract_descriptions_cases.
    destruct (keeps (neg_text area_chunk)), (keeps (pos_text area_chunk));
      simpl; try done.
    by intros [= <-]. }
  split_and!.
  - intros area_chunk. split.
    + by intros (_ & Hn & Hp)%Hraises.
    + intros [Hn Hp]. by rewrite extract_descriptions_cases, Hn, Hp.
  - intros area_chunk e He. by apply Hraises in He as [-> _].
  - intros text areas He Hex.
    unfold parse_inspection, parse_inspection_deterministically.
    rewrite He. simpl.
    rewrite (describe_areas_raises _ areas UnboundLocalError); [done| |].
    + intros a e' _ He'. by apply Hraises in He' as [-> _].
    + eapply Exists_impl; [exact Hex|]. intros a [Hn Hp]. simpl.
      exists UnboundLocalError.
      by rewrite extract_descriptions_cases, Hn, Hp.
Qed.

Lemma describer_needs_a_negative_description_witness :
  parse_inspection
    "Impacted Area 1 Positive side Description Kitchen tile hollowness"
  = Raises UnboundLocalError.
Proof.
  apply (proj2 (proj2 describer_needs_a_negative_description)
    "Impacted Area 1 Positive side Description Kitchen tile hollowness"
    [{| area_number := "1"; area_name := "Impacted Area 1";
        text_chunk :=
          "Impacted Area 1 Positive side Description Kitchen tile hollowness"
     |}]).
  - vm_compute. reflexivity.
  - left. vm_compute. done.
Defined.

Lemma substring_prefix (n : nat) (s : string) :
  ∃ b, s = String.substring 0 n s +:+ b.
Proof.
  revert n. induction s as [|c s IH]; intros [|n]; simpl.
  - by exists "".
  - by exists "".
  - exists (String c s). by rewrite append_nil_l.
  - destruct (IH n) as [b Hb]. exists b. rewrite append_cons. by f_equal.
Qed.

Lemma substring_head (n : nat) (c : ascii) (s : string) :
  String.substring 0 (S n) (String c s) ≠ "".
Proof. done. Qed.

Lemma contains_suffix (pat a s : string) :
  py.contains pat s = true → py.contains pat (a +:+ s) = true.
Proof.
  intros H. rewrite <- (append_nil_r s). by apply contains_append.
Qed.

Lemma contains_substring (n : nat) (s : string) :
  py.contains (String.substring 0 n s) s = true.
Proof.
  destruct (substring_prefix n s) as [b Hb]. apply contains_spec.
  exists "", b. by rewrite append_nil_l.
Qed.

Lemma anchored_found (name text group : string) :
  name ≠ "" → anchored name text = Some group →
  group ≠ "" ∧ py.contains group text = true.
Proof.
  intros Hname. unfold anchored.
  destruct (re.literal_ignorecase name text) as [rest|] eqn:Hlit; [|done].
  assert (Some (String.substring 0 (String.length name) text) = Some group →
          group ≠ "" ∧ py.contains group text = true) as Hgroup.
  { intros [= <-]. split; [|apply contains_substring].
    destruct name as [|p name]; [done|]. destruct text as [|t text]; [done|].
    apply substring_head. }
  destruct rest as [|c rest]; [done|]. by destruct (word_char c).
Qed.

Lemma search_found {G} (m : re.matcher G) (text group : string) :
  (∀ s len g, m s = Some (len, g) → String.substring 0 len s ≠ "") →
  search m text = Some group →
  group ≠ "" ∧ py.contains group text = true.
Proof.
  intros Hm. induction text as [|c text IH]; cbn [search].
  - destruct (m "") as [[len g]|] eqn:Hmatch; [|done].
    intros [= <-].
    split; [exact (Hm _ _ _ Hmatch)|exact (contains_substring len "")].
  - destruct (m (String c text)) as [[len g]|] eqn:Hmatch.
    + intros [= <-].
      split; [exact (Hm _ _ _ Hmatch)
             |exact (contains_substring len (String c text))].
    + intros [Hne Hc]%IH. split; [done|].
      apply (contains_suffix group (String c "") text) in Hc.
      by rewrite append_cons, append_nil_l in Hc.
Qed.

Lemma flat_no_nonempty (s : string) (len : nat) (g : unit) :
  flat_no s = Some (len, g) → String.substring 0 len s ≠ "".
Proof.
  unfold flat_no.
  destruct (re.literal_ignorecase "Flat No." s) as [r1|] eqn:Hlit; [|done].
  simpl. destruct (re.span py.isspace r1) as [ws r2].
  destruct (re.plus py.isdigit r2) as [[ds r3]|]; [|done]. simpl.
  intros [= <- _]. destruct s as [|c s]; [done|]. apply substring_head.
Qed.

Lemma first_room_found (text name : string) :
  first_room room_patterns text = Some name →
  name ≠ "" ∧ py.contains name text = true.
Proof.
  unfold room_patterns.
  assert (∀ names, Forall (λ n, n ≠ "") names →
            first_room ((anchored <$> names) ++ [search flat_no]) text
            = Some name →
            name ≠ "" ∧ py.contains name text = true) as Hloop.
  { induction names as [|n names IH]; intros Hall.
    - cbn [fmap list_fmap app first_room].
      destruct (search flat_no text) as [g|] eqn:Hs; [|done].
      intros [= <-]. eapply search_found; [|exact Hs].
      apply flat_no_nonempty.
    - apply Forall_cons in Hall as [Hn Hall].
      rewrite fmap_cons. cbn [app first_room].
      destruct (anchored n text) as [g|] eqn:Ha; [|by apply IH].
      intros [= <-]. by eapply anchored_found. }
  apply Hloop. unfold room_names. repeat constructor; done.
Qed.

Lemma kept_long (text : string) :
  kept text = true → (3 < String.length text)%nat.
Proof. unfold kept. intros [_ H]%andb_true_iff. by apply Nat.ltb_lt. Qed.

Lemma keeps_cleaned (text : option string) :
  keeps text = true →
  (3 < String.length (default "" text))%nat
  ∧ ∃ t, text = Some t.
Proof.
  destruct text as [t|]; [|done]. simpl.
  intros H%kept_long. split; [done|by exists t].
Qed.

Lemma neg_text_trimmed (area_chunk t : string) :
  neg_text area_chunk = Some t → py.strip t = t.
Proof.
  unfold neg_text. destruct (description_group _ _ _); [|done].
  intros [= <-]. apply strip_idemp.
Qed.

Lemma pos_text_trimmed (area_chunk t : string) :
  pos_text area_chunk = Some t → py.strip t = t.
Proof.
  unfold pos_text. destruct (description_group _ _ _); [|done].
  intros [= <-]. apply strip_idemp.
Qed.

(** X22.  What the describer returns has at most one negative and at
    most one positive observation; each is longer than three characters
    and has no blank at either end.  A room name, when one is returned,
    is a non-empty piece of one of these observations; and a chunk whose
    negative description is not kept gives no observation and no name. *)
Theorem described_observations_shape (area_chunk : string)
    (d : descriptions) :
  extract_descriptions_from_area_chunk area_chunk = Returns d →
  (length (descr_negative_observations d) ≤ 1)%nat
  ∧ (length (descr_positive_observations d) ≤ 1)%nat
  ∧ Forall (λ o, py.strip o = o ∧ (3 < String.length o)%nat)
           (descr_negative_observations d ++ descr_positive_observations d)
  ∧ (∀ name, descr_area_name d = Some name →
       name ≠ ""
       ∧ ∃ o, o ∈ descr_negative_observations d
                  ++ descr_positive_observations d
              ∧ py.contains name o = true)
  ∧ (descr_negative_observations d = [] →
     descr_positive_observations d = [] ∧ descr_area_name d = None).
Proof.
  rewrite extract_descriptions_cases. cbv zeta.
  pose proof (first_room_found (default "" (neg_text area_chunk))) as Hfn.
  pose proof (first_room_found (default "" (pos_text area_chunk))) as Hfp.
  set (fn := first_room room_patterns (default "" (neg_text area_chunk))) in *.
  set (fp := first_room room_patterns (default "" (pos_text area_chunk))) in *.
  clearbody fn fp.
  destruct (keeps (neg_text area_chunk)) eqn:Hn.
  - destruct (keeps_cleaned _ Hn) as [Hlen [n Hneg]].
    pose proof (neg_text_trimmed _ _ Hneg) as Htn.
    rewrite Hneg in Hlen, Hfn |- *. cbn [default from_option] in Hlen, Hfn |- *.
    unfold id in *.
    destruct (keeps (pos_text area_chunk)) eqn:Hp.
    + destruct (keeps_cleaned _ Hp) as [Hlen' [p Hpos]].
      pose proof (pos_text_trimmed _ _ Hpos) as Htp.
      rewrite Hpos in Hlen', Hfp |- *.
      cbn [default from_option] in Hlen', Hfp |- *. unfold id in *.
      intros [= <-].
      cbn [descr_area_name descr_negative_observations
           descr_positive_observations length app].
      split_and!; [lia|lia|by repeat constructor| |done].
      intros name Hname. destruct fn as [name'|]; cbv beta iota in Hname.
      * injection Hname as <-. destruct (Hfn _ eq_refl) as [Hne Hc].
        split; [done|]. exists n. split; [by left|done].
      * destruct (Hfp _ Hname) as [Hne Hc].
        split; [done|]. exists p. split; [right; by left|done].
    + intros [= <-].
      cbn [descr_area_name descr_negative_observations
           descr_positive_observations length app].
      split_and!; [lia|lia|by repeat constructor| |done].
      intros name Hname. destruct (Hfn _ Hname) as [Hne Hc].
      split; [done|]. exists n. split; [by left|done].
  - destruct (keeps (pos_text area_chunk)); [done|].
    intros [= <-].
    cbn [descr_area_name descr_negative_observations
         descr_positive_observations length app].
    split_and!; [lia|lia|constructor|done|done].
Qed.

Lemma described_observations_shape_witness :
  let d := {| descr_area_name := Some "Hall";
              descr_negative_observations := ["Hall Skirting level Dampness"];
              descr_positive_observations := [] |} in
  (length (descr_negative_observations d) ≤ 1)%nat
  ∧ (length (descr_positive_observations d) ≤ 1)%nat
  ∧ Forall (λ o, py.strip o = o ∧ (3 < String.length o)%nat)
           (descr_negative_observations d ++ descr_positive_observations d)
  ∧ (∀ name, descr_area_name d = Some name →
       name ≠ ""
       ∧ ∃ o, o ∈ descr_negative_observations d
                  ++ descr_positive_observations d
              ∧ py.contains name o = true)
  ∧ (descr_negative_observations d = [] →
     descr_positive_observations d = [] ∧ descr_area_name d = None).
Proof.
  intros d.
  apply (described_observations_shape
    "Impacted Area 1 Negative side Description Hall Skirting level Dampness Negative side photographs Photo 1 Photo 2"
    d).
  vm_compute. reflexivity.
Defined.

(** The sample of the module: two sections, the first with a negative
    and a positive description and its photo references, the second with
    a negative description only. *)
Example two_sections_described :
  let nl := String (ascii_of_N 10) "" in
  parse_inspection
    ("Impacted Areas/Rooms" +:+ nl +:+ "Hall, Bedroom, Kitchen" +:+ nl
     +:+ nl +:+ "Impacted Area 1" +:+ nl
     +:+ "Negative side Description" +:+ nl
     +:+ "Hall Skirting level Dampness" +:+ nl
     +:+ "Negative side photographs" +:+ nl
     +:+ "Photo 1 Photo 2 Photo 3" +:+ nl +:+ nl
     +:+ "Positive side Description" +:+ nl
     +:+ "Common Bathroom tile hollowness" +:+ nl +:+ nl
     +:+ "Impacted Area 2" +:+ nl
     +:+ "Negative side Description" +:+ nl
     +:+ "Bedroom Skirting level Dampness" +:+ nl)
  = Returns
      [{| room_name := "Hall";
          negative_observations := ["Hall Skirting level Dampness"];
          positive_observations := ["Common Bathroom tile hollowness"] |};
       {| room_name := "Bedroom";
          negative_observations := ["Bedroom Skirting level Dampness"];
          positive_observations := [] |}].
Proof. vm_compute. reflexivity. Qed.

(** A name is taken only where a word ends, and from the positive
    description when the negative one names no room. *)
Example hallway_is_not_the_hall :
  extract_descriptions_from_area_chunk
    "Negative side Description Hallway damp Positive side Description Hall. ok fine"
  = Returns {| descr_area_name := Some "Hall";
               descr_negative_observations := ["Hallway damp"];
               descr_positive_observations := ["Hall. ok fine"] |}.
Proof. vm_compute. reflexivity. Qed.

End describer_properties.

Section parsed_names.
Import ddr_generator area_parser merge_spec segment_spec extraction.

Lemma describe_areas_sections (describe : string → outcome descriptions)
    (areas : list area_section)
    (described : list (area_section * descriptions)) :
  describe_areas describe areas = Returns described →
  fst <$> described = areas.
Proof.
  revert described. induction areas as [|a areas IH]; intros described.
  - by intros [= <-].
  - cbn [describe_areas]. destruct (describe (text_chunk a)) as [d|e]; [|done].
    simpl. destruct (describe_areas describe areas) as [ds|e]; [|done].
    simpl. intros [= <-]. rewrite fmap_cons. f_equal. by apply IH.
Qed.

Lemma chosen_name_nonempty (x : area_section * descriptions) :
  area_name x.1 ≠ "" → chosen_name x ≠ "".
Proof.
  intros Hx. unfold chosen_name.
  destruct (descr_area_name x.2) as [[|c room]|]; done.
Qed.

(** X23.  Whatever the describer does, every area that the parser returns
    has a non-empty name: the room name that was extracted, or
    "Impacted Area " and the number of the section.  The findings that the
    extraction makes of these areas carry these names: its fall-back
    "Not Available" is never used for a name. *)
Theorem parsed_areas_are_named (describe : string → outcome descriptions)
    (text : string) (rooms : list room_data) :
  parse_inspection_deterministically describe text = Returns rooms →
  Forall (λ r, room_name r ≠ "") rooms
  ∧ area <$> text_findings rooms = room_name <$> rooms.
Proof.
  intros Hparse.
  assert (Forall (λ r, room_name r ≠ "") rooms) as Hnamed.
  { unfold parse_inspection_deterministically in Hparse.
    destruct (extract_impacted_areas_from_text text 20) as [areas|e] eqn:He;
      [|done].
    simpl in Hparse.
    destruct (describe_areas describe areas) as [described|e] eqn:Hd; [|done].
    simpl in Hparse. injection Hparse as <-.
    rewrite reduce_areas_merged. unfold merged.
    apply Forall_fmap, Forall_forall. intros x Hx. simpl.
    apply chosen_name_nonempty.
    apply elem_of_sublist with (l2 := described) in Hx;
      [|apply firsts_sublist].
    assert (x.1 ∈ areas) as Hin.
    { rewrite <- (describe_areas_sections _ _ _ Hd).
      by apply list_elem_of_fmap_2. }
    destruct (extract_returns_sections _ _ _ He) as [Ha _].
    rewrite Ha in Hin.
    pose proof (sections_names (re.finditer re.impacted_area text) text
                  (sort_by_value (numerals (re.finditer re.impacted_area text))))
      as Hall.
    rewrite Forall_forall in Hall. rewrite (Hall _ Hin).
    by rewrite append_cons. }
  split; [done|].
  unfold text_findings. rewrite <- list_fmap_compose.
  apply Forall_fmap_ext_1. eapply Forall_impl; [exact Hnamed|].
  intros r Hr. cbn [compose area inspection_finding_of].
  unfold or_not_available. simpl in Hr. by destruct (room_name r).
Qed.

Lemma parsed_areas_are_named_witness :
  let rooms :=
    [{| room_name := "Impacted Area 1";
        negative_observations := [];
        positive_observations := [] |}] in
  Forall (λ r, room_name r ≠ "") rooms
  ∧ area <$> text_findings rooms = room_name <$> rooms.
Proof.
  intros rooms.
  apply (parsed_areas_are_named
           (λ _, Returns {| descr_area_name := Some "";
                            descr_negative_observations := [];
                            descr_positive_observations := [] |})
           "Impacted Area 1 no description" rooms).
  vm_compute. reflexivity.
Defined.

End parsed_names.

(** ** extraction.py: merging the observations read from images *)

Section merge_properties.
Import ddr_generator validator_spec merging.

Lemma sublist_same_length {A} (l1 l2 : list A) :
  l1 `sublist_of` l2 → (length l2 ≤ length l1)%nat → l1 = l2.
Proof.
  induction 1 as [|x l1 l2 Hs IH|x l1 l2 Hs IH]; intros Hlen; [done|..].
  - simpl in Hlen. f_equal. apply IH. lia.
  - apply sublist_length in Hs. simpl in Hlen. lia.
Qed.

Lemma firsts_short (ks : list string) :
  ¬ NoDup ks → (length (firsts id ks) < length ks)%nat.
Proof.
  intros Hdup. pose proof (firsts_sublist id ks) as Hs.
  pose proof (sublist_length _ _ Hs) as Hle.
  destruct (decide (length (firsts id ks) = length ks)) as [Heq|]; [|lia].
  exfalso. apply Hdup.
  rewrite <- (sublist_same_length _ _ Hs) by lia.
  pose proof (firsts_NoDup id ks) as Hnd. by rewrite list_fmap_id in Hnd.
Qed.

Lemma map_set_keys (m : findings_map_t) (key : string) (i : nat) :
  fst <$> map_set m key i = keep_first id (fst <$> m) key.
Proof.
  unfold keep_first. rewrite list_fmap_id.
  induction m as [|[k j] m IH]; [done|].
  cbn [map_set]. rewrite fmap_cons. cbn [fst].
  destruct (String.eqb_spec k key) as [->|Hne].
  - rewrite bool_decide_eq_true_2 by left. done.
  - rewrite fmap_cons, IH. cbn [fst]. unfold id.
    destruct (decide (key ∈ fst <$> m)) as [Hin|Hin].
    + rewrite !bool_decide_eq_true_2; [done|by right|done].
    + rewrite !bool_decide_eq_false_2; [done| |done].
      intros [?|?]%elem_of_cons; [by subst|done].
Qed.

Lemma index_findings_keys (i : nat) (l : list InspectionFinding)
    (m : findings_map_t) :
  fst <$> index_findings i l m
  = fold_left (keep_first id) (key_of <$> l) (fst <$> m).
Proof.
  revert i m. induction l as [|f l IH]; intros i m; [done|].
  cbn [index_findings]. rewrite IH, map_set_keys. done.
Qed.

Lemma map_set_fresh (m : findings_map_t) (key : string) (i : nat) :
  key ∉ fst <$> m → map_set m key i = m ++ [(key, i)].
Proof.
  induction m as [|[k j] m IH]; [done|].
  rewrite fmap_cons, not_elem_of_cons. cbn [fst]. intros [Hne Hin].
  cbn [map_set]. destruct (String.eqb_spec k key) as [->|_]; [done|].
  by rewrite IH.
Qed.

Lemma index_findings_distinct (i : nat) (l : list InspectionFinding)
    (m : findings_map_t) :
  NoDup ((fst <$> m) ++ (key_of <$> l)) →
  index_findings i l m = m ++ zip (key_of <$> l) (seq i (length l)).
Proof.
  revert i m. induction l as [|f l IH]; intros i m Hnd.
  - simpl. by rewrite app_nil_r.
  - cbn [index_findings]. rewrite fmap_cons in Hnd.
    rewrite map_set_fresh.
    + rewrite IH.
      * rewrite <- app_assoc. done.
      * rewrite fmap_app. cbn [fmap list_fmap fst].
        rewrite <- app_assoc. exact Hnd.
    + apply NoDup_app in Hnd as (_ & Hdisj & _). intros Hin.
      apply (Hdisj _ Hin). by left.
Qed.

Lemma values_of_positions (keys : list string)
    (findings : list InspectionFinding) :
  length keys = length findings →
  omap (λ entry : string * nat, findings !! entry.2)
       (zip keys (seq 0 (length findings)))
  = findings.
Proof.
  intros Hlen.
  assert (∀ (pre : list InspectionFinding) ks l,
            length ks = length l →
            omap (λ entry : string * nat, (pre ++ l) !! entry.2)
                 (zip ks (seq (length pre) (length l))) = l) as Hgen.
  { intros pre ks l. revert pre ks.
    induction l as [|x l IH]; intros pre [|k ks] Hl; try done.
    cbn [length seq zip zip_with omap list_omap snd].
    rewrite (lookup_app_r pre) by lia. rewrite Nat.sub_diag. cbn [lookup list_lookup].
    f_equal.
    specialize (IH (pre ++ [x]) ks). rewrite length_app in IH.
    cbn [length] in IH. rewrite Nat.add_1_r, <- app_assoc in IH.
    apply IH. simpl in Hl. lia. }
  apply (Hgen [] keys findings Hlen).
Qed.

Lemma add_observation_frame (new : string) (f : InspectionFinding) :
  area (add_observation new f) = area f
  ∧ severity_indicator (add_observation new f) = severity_indicator f
  ∧ possible_cause (add_observation new f) = possible_cause f.
Proof. unfold add_observation. by destruct (_ && _). Qed.

Lemma fmap_alter_same {A B} (f : A → B) (g : A → A) (i : nat)
    (l : list A) :
  (∀ x, f (g x) = f x) → f <$> alter g i l = f <$> l.
Proof.
  intros Hg. revert i. induction l as [|x l IH]; intros [|i]; try done.
  - cbn [alter list_alter]. rewrite !fmap_cons. by rewrite Hg.
  - cbn [alter list_alter]. rewrite !fmap_cons. f_equal. apply IH.
Qed.

Lemma get_strip_typed (item : pydict) (key : string) :
  str_or_absent (item !! key) → ∃ s, get_strip item key = Returns s.
Proof.
  unfold get_strip. destruct (item !! key) as [[| | |s|]|]; try done;
    intros _; by eexists.
Qed.

Lemma enhance_frame (m : findings_map_t) (findings : list InspectionFinding)
    (item : pydict) :
  item_typed item →
  ∃ findings',
    enhance m findings item = Returns findings'
    ∧ others <$> findings' = others <$> findings.
Proof.
  intros [Ha Ho]. unfold enhance.
  destruct (get_strip_typed _ _ Ha) as [a ->].
  destruct (get_strip_typed _ _ Ho) as [o ->].
  cbn [mbind outcome_bind].
  destruct (_ || _); [by exists findings|].
  destruct (map_get m _) as [i|]; [|by exists findings].
  eexists. split; [done|]. apply fmap_alter_same. intros f.
  unfold others. by destruct (add_observation_frame o f) as (-> & -> & ->).
Qed.

Lemma enhance_all_frame (m : findings_map_t)
    (findings : list InspectionFinding) (items : list pydict) :
  Forall item_typed items →
  ∃ findings',
    enhance_all m findings items = Returns findings'
    ∧ others <$> findings' = others <$> findings.
Proof.
  intros Hall. revert findings.
  induction Hall as [|item items Hitem _ IH]; intros findings.
  - by exists findings.
  - destruct (enhance_frame m findings item Hitem) as (f1 & H1 & Hf1).
    destruct (IH f1) as (f2 & H2 & Hf2).
    exists f2. cbn [enhance_all]. rewrite H1. simpl.
    split; [done|]. by rewrite Hf2.
Qed.

Lemma omap_length_le {A B} (f : A → option B) (l : list A) :
  (length (omap f l) ≤ length l)%nat.
Proof.
  induction l as [|x l IH]; [done|]. cbn [omap list_omap].
  destruct (f x); simpl; lia.
Qed.

(** X24.  Observations read from images never add, drop or rename an
    area.  With text findings and image data both non-empty and the image
    fields strings: when the text findings have distinct normalised
    areas, the merge returns as many findings, in the same order, with the
    same areas, severities and causes; when two text findings share a
    normalised area, the merge ends with its [AssertionError]. *)
Theorem merge_keeps_the_areas (text_findings : list InspectionFinding)
    (image_findings_data : list pydict) :
  text_findings ≠ [] → image_findings_data ≠ [] →
  Forall item_typed image_findings_data →
  (NoDup (key_of <$> text_findings) →
   ∃ final_findings,
     _merge_text_and_image_findings text_findings image_findings_data
     = Returns final_findings
     ∧ others <$> final_findings = others <$> text_findings)
  ∧ (¬ NoDup (key_of <$> text_findings) →
     ∃ final_count,
       (final_count < length text_findings)%nat
       ∧ _merge_text_and_image_findings text_findings image_findings_data
         = Raises (AssertionError
             (area_count_message (length text_findings) final_count))).
Proof.
  intros Ht Hi Htyped.
  destruct (enhance_all_frame (index_findings 0 text_findings [])
              text_findings image_findings_data Htyped)
    as (findings & Henh & Hframe).
  assert (length findings = length text_findings) as Hlen.
  { by rewrite <- (length_fmap others), Hframe, length_fmap. }
  assert (_merge_text_and_image_findings text_findings image_findings_data
          = let final_findings :=
              omap (λ entry : string * nat, findings !! entry.2)
                   (index_findings 0 text_findings []) in
            if (length final_findings =? length text_findings)%nat
            then Returns final_findings
            else Raises (AssertionError
                   (area_count_message (length text_findings)
                                       (length final_findings)))) as ->.
  { unfold _merge_text_and_image_findings.
    destruct text_findings as [|f fs]; [done|].
    destruct image_findings_data as [|item items]; [done|].
    by rewrite Henh. }
  cbv zeta. split.
  - intros Hnd. exists findings.
    rewrite index_findings_distinct by done. rewrite app_nil_l.
    rewrite <- Hlen.
    rewrite values_of_positions by (by rewrite length_fmap).
    by rewrite Hlen, Nat.eqb_refl.
  - intros Hdup.
    set (final := omap _ (index_findings 0 text_findings [])).
    assert (length final < length text_findings)%nat as Hshort.
    { unfold final.
      pose proof (omap_length_le
        (λ entry : string * nat, findings !! entry.2)
        (index_findings 0 text_findings [])) as Hle.
      rewrite <- (length_fmap fst (index_findings 0 text_findings [])) in Hle.
      rewrite index_findings_keys in Hle.
      pose proof (firsts_short _ Hdup) as Hf. unfold firsts in Hf.
      rewrite length_fmap in Hf. cbn [fmap list_fmap] in Hle. lia. }
    exists (length final). split; [done|].
    destruct (Nat.eqb_spec (length final) (length text_findings)); [lia|done].
Qed.

Lemma merge_keeps_the_areas_witness :
  let hall := {| area := "Hall"; observation := "Hall Skirting level Dampness";
                 severity_indicator := "Not Available";
                 possible_cause := "Not Available" |} in
  let seen : pydict :=
    {[ "area" := PyStr " HALL "; "observation" := PyStr "stain on ceiling" ]} in
  ∃ final_findings,
    _merge_text_and_image_findings [hall] [seen] = Returns final_findings
    ∧ others <$> final_findings = others <$> [hall].
Proof.
  intros hall seen.
  apply (proj1 (merge_keeps_the_areas [hall] [seen] ltac:(done) ltac:(done)
                  ltac:(by repeat constructor))).
  apply NoDup_singleton.
Defined.

(** The observation seen in an image of the hall is added to the finding
    of the hall; the one seen in the lobby, which the text does not have,
    is dropped. *)
Example hall_enhanced_lobby_ignored :
  let hall := {| area := "Hall"; observation := "Hall Skirting level Dampness";
                 severity_indicator := "Not Available";
                 possible_cause := "Not Available" |} in
  let seen area note : pydict :=
    {[ "area" := PyStr area; "observation" := PyStr note ]} in
  _merge_text_and_image_findings [hall]
    [seen " HALL " "stain on ceiling"; seen "Lobby" "crack"]
  = Returns [with_observation hall
               "Hall Skirting level Dampness; stain on ceiling"].
Proof. vm_compute. reflexivity. Qed.

End merge_properties.

(** ** image_batcher.py *)

Section batcher.
Import image_batcher.
Context {Image : Type}.

Lemma take_add_drop {A} (a b : nat) (l : list A) :
  take (a + b) l = take a l ++ take b (drop a l).
Proof.
  revert l. induction a as [|a IH]; intros l; [done|].
  destruct l as [|x l]; [by destruct b|].
  simpl. f_equal. apply IH.
Qed.

Lemma concat_slices {A} (s : nat) (l : list A) (j m : nat) :
  concat ((λ k, take s (drop (k * s) l)) <$> seq j m)
  = take (m * s) (drop (j * s) l).
Proof.
  revert j. induction m as [|m IH]; intros j; [done|].
  cbn [seq fmap list_fmap concat]. rewrite (IH (S j)).
  replace (S m * s) with (s + m * s) by lia.
  rewrite take_add_drop, drop_drop. do 3 f_equal. lia.
Qed.

Lemma batch_bounds (n s : nat) :
  (0 < s)%nat →
  let m := ((n + s - 1) / s)%nat in
  (n ≤ m * s)%nat ∧ (∀ k, (k < m)%nat → (k * s < n)%nat).
Proof.
  intros Hs m.
  pose proof (Nat.div_mod_eq (n + s - 1) s) as Hdiv.
  pose proof (Nat.mod_upper_bound (n + s - 1) s ltac:(lia)) as Hmod.
  fold m in Hdiv. split; [nia|]. intros k Hk. nia.
Qed.

(** X25.  With a positive batch size the batches cut the pages without
    loss or repetition: their images, put together, are the images; each
    batch holds between one and [images_per_batch] images, and every batch
    but the last is full; the page numbers run on from 1, each batch
    starting one after the end of the one before, and the last ends at
    the number of pages. *)
Theorem batches_partition_the_pages (pages : list Image)
    (images_per_batch : Z) :
  (0 < images_per_batch)%Z →
  ∃ batches,
    create_image_batches pages images_per_batch = Returns batches
    ∧ concat (images <$> batches) = pages
    ∧ Forall (λ b, (1 ≤ image_count b)%nat
                   ∧ (Z.of_nat (image_count b) ≤ images_per_batch)%Z
                   ∧ image_count b = length (images b)
                   ∧ (end_page b + 1 = start_page b + image_count b)%nat)
             batches
    ∧ (∀ i b b', batches !! i = Some b → batches !! S i = Some b' →
         Z.of_nat (image_count b) = images_per_batch
         ∧ start_page b' = (end_page b + 1)%nat)
    ∧ (∀ b, head batches = Some b → start_page b = 1%nat)
    ∧ (∀ b, last batches = Some b → end_page b = length pages).
Proof.
  intros Hpos. unfold create_image_batches, range_from_zero.
  destruct (Z.eqb_spec images_per_batch 0) as [|_]; [lia|].
  destruct (Z.ltb_spec images_per_batch 0) as [|_]; [lia|].
  set (s := Z.to_nat images_per_batch).
  assert (0 < s)%nat as Hs by lia.
  set (m := ((length pages + s - 1) / s)%nat).
  destruct (batch_bounds (length pages) s Hs) as [Hcover Hin]. fold m in Hcover, Hin.
  eexists. split; [reflexivity|].
  rewrite <- !list_fmap_compose.
  assert (∀ i b, (batch_at pages s <$> ((λ k, (k * s)%nat) <$> seq 0 m)) !! i
                 = Some b →
                 (i < m)%nat ∧ b = batch_at pages s (i * s)) as Hlookup.
  { intros i b. rewrite <- list_fmap_compose, list_lookup_fmap.
    destruct (seq 0 m !! i) as [k|] eqn:Hk; [|done].
    apply lookup_seq in Hk as [-> Hlt]. by intros [= <-]. }
  split_and!.
  - rewrite (list_fmap_ext _ (λ k, take s (drop (k * s) pages)) (seq 0 m))
      by done.
    rewrite concat_slices. simpl. rewrite drop_0. apply take_ge. lia.
  - apply Forall_fmap, Forall_forall. intros k Hk%elem_of_seq.
    cbn [compose batch_at image_count images start_page end_page].
    rewrite length_take, length_drop.
    pose proof (Hin k ltac:(lia)). lia.
  - intros i b b' Hb Hb'. rewrite list_fmap_compose in Hb, Hb'.
    apply Hlookup in Hb as [Hi ->]. apply Hlookup in Hb' as [Hi' ->].
    cbn [batch_at image_count start_page end_page].
    rewrite length_take, length_drop.
    pose proof (Hin (S i) Hi'). lia.
  - intros b. rewrite head_lookup, list_fmap_compose.
    intros [_ ->]%Hlookup. done.
  - intros b. rewrite last_lookup, list_fmap_compose.
    rewrite !length_fmap, length_seq.
    intros [Hlt ->]%Hlookup.
    cbn [batch_at end_page]. rewrite length_take, length_drop.
    pose proof (Hin (Nat.pred m) Hlt) as Hlast. clear Hin Hlookup.
    destruct m as [|p]; [lia|]. simpl in *. lia.
Qed.


(** X26.  [estimate_batch_count] gives the number of batches that
    [create_image_batches] makes, for every positive batch size.  With the
    batch size 0 both raise, the one [ValueError] and the other
    [ZeroDivisionError]; with a negative one no batch is made, whatever
    the number of pages. *)
Theorem batch_count_is_the_estimate (pages : list Image)
    (images_per_batch : Z) :
  ((0 < images_per_batch)%Z →
   ∃ batches,
     create_image_batches pages images_per_batch = Returns batches
     ∧ estimate_batch_count (Z.of_nat (length pages)) images_per_batch
       = Returns (Z.of_nat (length batches)))
  ∧ (images_per_batch = 0%Z →
     (∃ msg, create_image_batches pages images_per_batch
             = Raises (ValueError msg))
     ∧ estimate_batch_count (Z.of_nat (length pages)) images_per_batch
       = Raises ZeroDivisionError)
  ∧ ((images_per_batch < 0)%Z →
     create_image_batches pages images_per_batch = Returns []).
Proof.
  unfold create_image_batches, range_from_zero, estimate_batch_count.
  split_and!.
  - intros Hpos.
    destruct (Z.eqb_spec images_per_batch 0) as [|_]; [lia|].
    destruct (Z.ltb_spec images_per_batch 0) as [|_]; [lia|].
    eexists. split; [reflexivity|]. f_equal.
    rewrite !length_fmap, length_seq, Nat2Z.inj_div.
    rewrite Nat2Z.inj_sub, Nat2Z.inj_add by lia.
    rewrite Z2Nat.id by lia. done.
  - intros ->. split; [by eexists|done].
  - intros Hneg.
    destruct (Z.eqb_spec images_per_batch 0) as [|_]; [lia|].
    destruct (Z.ltb_spec images_per_batch 0) as [_|]; [done|lia].
Qed.

End batcher.

Lemma batches_partition_the_pages_witness :
  ∃ batches,
    image_batcher.create_image_batches ["p1"; "p2"; "p3"] 2 = Returns batches
    ∧ concat (image_batcher.images <$> batches) = ["p1"; "p2"; "p3"]
    ∧ Forall (λ b, (1 ≤ image_batcher.image_count b)%nat
                   ∧ (Z.of_nat (image_batcher.image_count b) ≤ 2)%Z
                   ∧ image_batcher.image_count b = length (image_batcher.images b)
                   ∧ (image_batcher.end_page b + 1 = image_batcher.start_page b + image_batcher.image_count b)%nat)
             batches
    ∧ (∀ i b b', batches !! i = Some b → batches !! S i = Some b' →
         Z.of_nat (image_batcher.image_count b) = 2%Z
         ∧ image_batcher.start_page b' = (image_batcher.end_page b + 1)%nat)
    ∧ (∀ b, head batches = Some b → image_batcher.start_page b = 1%nat)
    ∧ (∀ b, last batches = Some b → image_batcher.end_page b = length ["p1"; "p2"; "p3"]).
Proof.
  apply (batches_partition_the_pages (Image := string) ["p1"; "p2"; "p3"] 2). lia.
Defined.

Lemma batch_count_is_the_estimate_witness :
  ∃ batches,
    image_batcher.create_image_batches ["p1"; "p2"; "p3"] 2 = Returns batches
    ∧ image_batcher.estimate_batch_count (Z.of_nat (length ["p1"; "p2"; "p3"])) 2
      = Returns (Z.of_nat (length batches)).
Proof.
  apply (proj1 (batch_count_is_the_estimate (Image := string) ["p1"; "p2"; "p3"] 2)). lia.
Defined.

(** ** rate_limiter.py *)

Section limiter_properties.
Import rate_limiter.
Context {Time : Type}.
Variable wait_time_of : Z → option Time → Time → Time.

Lemma wait_if_needed_counts (self : GeminiRateLimiter) (r : reading) :
  let '(self', o) := wait_if_needed wait_time_of self r in
  rpd self' = rpd self
  ∧ if (counted self (today r) <? rpd self)%Z
    then counted self' (today r) = (counted self (today r) + 1)%Z
         ∧ ∃ w, o = Returns {| call_number := counted self (today r) + 1;
                               daily_limit := rpd self;
                               waited_seconds := w;
                               remaining_today :=
                                 rpd self - (counted self (today r) + 1) |}
    else counted self' (today r) = counted self (today r)
         ∧ o = Raises (Exception
                 (limit_message (rpd self) (counted self (today r)))).
Proof.
  unfold wait_if_needed, counted.
  destruct (Z.ltb_spec (last_reset_date self) (today r)) as [Hnew|Hsame];
    cbn [rpd daily_calls last_reset_date].
  - destruct (Z.leb_spec (rpd self) 0) as [Hfull|Hroom].
    + rewrite (proj2 (Z.ltb_ge 0 (rpd self))) by lia.
      cbn [rpd last_reset_date daily_calls].
      rewrite Z.ltb_irrefl. done.
    + rewrite (proj2 (Z.ltb_lt 0 (rpd self))) by lia.
      cbn [rpd last_reset_date daily_calls].
      rewrite Z.ltb_irrefl. split_and!; try done. by eexists.
  - destruct (Z.leb_spec (rpd self) (daily_calls self)) as [Hfull|Hroom].
    + rewrite (proj2 (Z.ltb_ge (daily_calls self) (rpd self))) by lia.
      rewrite (proj2 (Z.ltb_ge (last_reset_date self) (today r))) by lia.
      done.
    + rewrite (proj2 (Z.ltb_lt (daily_calls self) (rpd self))) by lia.
      cbn [rpd last_reset_date daily_calls].
      rewrite (proj2 (Z.ltb_ge (last_reset_date self) (today r))) by lia.
      split_and!; try done. by eexists.
Qed.

Lemma calls_from (readings : list reading) (day : Z) :
  Forall (λ r, today r = day) readings →
  ∀ (self : GeminiRateLimiter) (k : nat),
    (k < length readings)%nat →
    let c := counted self day in
    ∃ o, calls wait_time_of self readings !! k = Some o
         ∧ if (c + Z.of_nat k <? rpd self)%Z
           then ∃ w, o = Returns {| call_number := c + Z.of_nat k + 1;
                                    daily_limit := rpd self;
                                    waited_seconds := w;
                                    remaining_today :=
                                      rpd self - (c + Z.of_nat k + 1) |}
           else o = Raises (Exception
                      (limit_message (rpd self) (Z.max (rpd self) c))).
Proof.
  induction 1 as [|r readings Hr _ IH]; intros self k Hk; [simpl in Hk; lia|].
  cbn [calls].
  pose proof (wait_if_needed_counts self r) as Hcall.
  destruct (wait_if_needed wait_time_of self r) as [self' o].
  rewrite Hr in Hcall. destruct Hcall as [Hrpd Hcall].
  destruct k as [|k].
  - exists o. split; [done|]. rewrite Z.add_0_r.
    destruct (Z.ltb_spec (counted self day) (rpd self)) as [Hroom|Hfull].
    + by destruct Hcall as [_ Ho].
    + destruct Hcall as [_ ->]. by rewrite Z.max_r by lia.
  - simpl in Hk. destruct (IH self' k ltac:(lia)) as (o' & Ho' & Hk').
    exists o'. split; [done|]. rewrite Hrpd in Hk'.
    destruct (Z.ltb_spec (counted self day) (rpd self)) as [Hroom|Hfull].
    + destruct Hcall as [Hc _]. rewrite Hc in Hk'.
      replace (counted self day + 1 + Z.of_nat k)%Z
        with (counted self day + Z.of_nat (S k))%Z in Hk' by lia.
      rewrite (Z.max_l (rpd self) (counted self day + 1)) in Hk' by lia.
      by rewrite (Z.max_l (rpd self) (counted self day)) by lia.
    + destruct Hcall as [Hc _]. rewrite Hc in Hk'.
      rewrite (proj2 (Z.ltb_ge _ _)) in Hk' by lia.
      by rewrite (proj2 (Z.ltb_ge _ _)) by lia.
Qed.

(** X27.  A limiter lets [rpd] calls of one day pass and no more: of the
    calls made on one day with a new limiter, the first [rpd] return,
    numbered from 1, each with the number of calls that remain; every
    later one raises the exception of the daily limit. *)
Theorem daily_limit_is_enforced (rpm rpd day0 day : Z)
    (limiter : GeminiRateLimiter) (readings : list reading) (k : nat) :
  __init__ rpm rpd day0 = Returns limiter →
  Forall (λ r, today r = day) readings →
  (k < length readings)%nat →
  ∃ o, calls wait_time_of limiter readings !! k = Some o
       ∧ if (Z.of_nat k <? rpd)%Z
         then ∃ w, o = Returns {| call_number := Z.of_nat k + 1;
                                  daily_limit := rpd;
                                  waited_seconds := w;
                                  remaining_today := rpd - (Z.of_nat k + 1) |}
         else o = Raises (Exception (limit_message rpd (Z.max rpd 0))).
Proof.
  unfold __init__. destruct (rpm =? 0)%Z; [done|]. intros [= <-] Hday Hk.
  destruct (calls_from readings day Hday
              {| rpm := rpm; rpd := rpd; last_call_time := None;
                 daily_calls := 0; last_reset_date := day0;
                 call_history := [] |} k Hk) as (o & Ho & Hcase).
  exists o. split; [done|].
  assert (counted {| rpm := rpm; rpd := rpd; last_call_time := None;
                     daily_calls := 0; last_reset_date := day0;
                     call_history := ([] : list (Time * Z * Time)) |} day
          = 0%Z) as Hc.
  { unfold counted. cbn. by destruct (day0 <? day)%Z. }
  rewrite Hc in Hcase. cbn [rate_limiter.rpd] in Hcase.
  by rewrite !Z.add_0_l in Hcase.
Qed.

End limiter_properties.

Lemma daily_limit_is_enforced_witness :
  let limiter :=
    {| rate_limiter.rpm := 5; rate_limiter.rpd := 1;
       rate_limiter.last_call_time := None; rate_limiter.daily_calls := 0;
       rate_limiter.last_reset_date := 100;
       rate_limiter.call_history := [] |} in
  let r := {| rate_limiter.today := 100; rate_limiter.clock := 7%nat;
              rate_limiter.clock_after := 8%nat;
              rate_limiter.timestamp := 8%nat |} in
  ∃ o, rate_limiter.calls (λ _ _ _, 0%nat) limiter [r; r] !! 1%nat = Some o
       ∧ o = Raises (Exception (rate_limiter.limit_message 1 (Z.max 1 0))).
Proof.
  intros limiter r.
  apply (daily_limit_is_enforced (λ _ _ _, 0%nat) 5 1 100 100 limiter [r; r] 1).
  - reflexivity.
  - by repeat constructor.
  - simpl. lia.
Defined.
